(** * A shallow embedding of [scraper.py]

    The scraper crawls a site breadth-first from a root URL, bounded by a
    page quota, then extracts a title, a Markdown body and a content-type
    label from every discovered page.

    Python [str] values are modelled as byte strings ([string]); case
    mapping and character classes are the ASCII ones, which is what the
    interpreter does on ASCII text.  The [str] methods the scraper calls
    are embedded in the module [Py], the functions of [urllib.parse] at the
    head of the section [Scraper]; the third-party collaborators
    ([requests], [BeautifulSoup], [trafilatura], [urljoin]), the order in
    which Python enumerates a set and the validation of a bracketed host
    are Section variables.  Sets are [gset string], the scraper object is a
    record threaded through the methods, and an exception is a result of
    its own ([None], [Raises]).

    The file has the embedding first, then the notions the properties are
    stated with and a small site to run the scraper on, then the properties
    with the lemmas they rest on, and last the runs of the scraper on the
    small site. *)

From Stdlib Require Import ZArith QArith.QArith_base Ascii.
From stdpp Require Import gmap strings list pretty.

Local Open Scope Z_scope.

(** ** Python [str] built-ins *)

Module Py.

Definition code (c : ascii) : N := N_of_ascii c.

Definition isupper (c : ascii) : bool := (65 <=? code c)%N && (code c <=? 90)%N.
Definition islower (c : ascii) : bool := (97 <=? code c)%N && (code c <=? 122)%N.
Definition isalpha (c : ascii) : bool := isupper c || islower c.
Definition isdigit (c : ascii) : bool := (48 <=? code c)%N && (code c <=? 57)%N.
Definition isascii (c : ascii) : bool := (code c <? 128)%N.

(** [str.isspace] on one-byte characters: TAB, LF, VT, FF, CR, the
    separators 0x1c-0x1f and the space. *)
Definition isspace (c : ascii) : bool :=
  ((9 <=? code c)%N && (code c <=? 13)%N) || ((28 <=? code c)%N && (code c <=? 32)%N).

Definition lower_char (c : ascii) : ascii :=
  if isupper c then ascii_of_N (code c + 32) else c.
Definition upper_char (c : ascii) : ascii :=
  if islower c then ascii_of_N (code c - 32) else c.

Fixpoint map_chars (f : ascii → ascii) (s : string) : string :=
  match s with
  | EmptyString => EmptyString
  | String c s' => String (f c) (map_chars f s')
  end.

(** [s.lower()] *)
Definition lower (s : string) : string := map_chars lower_char s.

(** [len(s)] *)
Fixpoint len (s : string) : nat :=
  match s with
  | EmptyString => O
  | String _ s' => S (len s')
  end.

(** [s.startswith(p)] *)
Fixpoint startswith (s p : string) {struct p} : bool :=
  match p, s with
  | EmptyString, _ => true
  | String _ _, EmptyString => false
  | String b p', String a s' => Ascii.eqb a b && startswith s' p'
  end.

(** [s.endswith(p)]: some suffix of [s] is [p]. *)
Fixpoint endswith (s p : string) : bool :=
  String.eqb s p ||
  match s with
  | EmptyString => false
  | String _ s' => endswith s' p
  end.

(** [p in s] for strings: [p] occurs in [s] as a substring. *)
Fixpoint contains (p s : string) : bool :=
  startswith s p ||
  match s with
  | EmptyString => false
  | String _ s' => contains p s'
  end.

(** [c in s] for a single character. *)
Fixpoint has_char (c : ascii) (s : string) : bool :=
  match s with
  | EmptyString => false
  | String a s' => Ascii.eqb a c || has_char c s'
  end.

(** [s[n:]] and [s[:n]] for [0 <= n]. *)
Fixpoint drop (n : nat) (s : string) : string :=
  match n, s with
  | O, _ => s
  | S _, EmptyString => EmptyString
  | S n', String _ s' => drop n' s'
  end.

Fixpoint take (n : nat) (s : string) : string :=
  match n, s with
  | O, _ => EmptyString
  | S _, EmptyString => EmptyString
  | S n', String a s' => String a (take n' s')
  end.

(** [s[i:j]] for [0 <= i]. *)
Definition slice (i j : nat) (s : string) : string := take (j - i) (drop i s).

(** Index of the first occurrence of [c] in [s]. *)
Fixpoint index_of (c : ascii) (s : string) : option nat :=
  match s with
  | EmptyString => None
  | String a s' => if Ascii.eqb a c then Some O else S <$> index_of c s'
  end.

(** [s.find(c, start)]; [None] stands for the result [-1]. *)
Definition find (c : ascii) (start : nat) (s : string) : option nat :=
  (λ i, (start + i)%nat) <$> index_of c (drop start s).

(** Index of the last occurrence of [c] in [s]: [s.rfind(c)]. *)
Fixpoint rfind (c : ascii) (s : string) : option nat :=
  match s with
  | EmptyString => None
  | String a s' =>
      match rfind c s' with
      | Some i => Some (S i)
      | None => if Ascii.eqb a c then Some O else None
      end
  end.

(** [s.lstrip(chars)] and [s.rstrip(chars)], the character set given as
    a predicate. *)
Fixpoint lstrip (p : ascii → bool) (s : string) : string :=
  match s with
  | EmptyString => EmptyString
  | String a s' => if p a then lstrip p s' else s
  end.

Fixpoint rstrip (p : ascii → bool) (s : string) : string :=
  match s with
  | EmptyString => EmptyString
  | String a s' =>
      match rstrip p s' with
      | EmptyString => if p a then EmptyString else String a EmptyString
      | r => String a r
      end
  end.

(** [s.strip()] *)
Definition strip (s : string) : string := lstrip isspace (rstrip isspace s).

(** [s.replace(a, b)] for one-character [a] and [b]. *)
Definition replace_char (a b : ascii) (s : string) : string :=
  map_chars (λ c, if Ascii.eqb c a then b else c) s.

(** [s.replace(a, '')] for a one-character [a]. *)
Fixpoint remove_char (a : ascii) (s : string) : string :=
  match s with
  | EmptyString => EmptyString
  | String c s' => if Ascii.eqb c a then remove_char a s' else String c (remove_char a s')
  end.

(** [s.replace(old, new)] for a non-empty [old]: occurrences are replaced
    left to right without overlap; [skip] counts the characters of a
    matched occurrence still to pass over. *)
Fixpoint replace_go (old new : string) (skip : nat) (s : string) : string :=
  match s with
  | EmptyString => EmptyString
  | String c s' =>
      match skip with
      | S skip' => replace_go old new skip' s'
      | O =>
          if startswith s old
          then String.append new (replace_go old new (len old - 1) s')
          else String c (replace_go old new O s')
      end
  end.
Definition replace (old new s : string) : string := replace_go old new O s.

(** [s.split(c)] for a one-character separator. *)
Fixpoint split (c : ascii) (s : string) : list string :=
  match s with
  | EmptyString => [EmptyString]
  | String a s' =>
      if Ascii.eqb a c then EmptyString :: split c s'
      else match split c s' with
           | h :: t => String a h :: t
           | [] => [String a EmptyString]
           end
  end.

(** [l[-1]] on a list that [split] returned (never empty). *)
Definition last_item (l : list string) : string := List.last l EmptyString.

(** [s.split(c, 1)] when [c in s]: the parts before and after the first
    occurrence. *)
Definition split_once (c : ascii) (s : string) : string * string :=
  match index_of c s with
  | Some i => (take i s, drop (S i) s)
  | None => (s, EmptyString)
  end.

(** [s.title()]: a letter is upper-cased when the previous character is
    not a letter and lower-cased when it is. *)
Fixpoint title_go (prev_cased : bool) (s : string) : string :=
  match s with
  | EmptyString => EmptyString
  | String c s' =>
      let c' := if isalpha c
                then (if prev_cased then lower_char c else upper_char c)
                else c in
      String c' (title_go (isalpha c) s')
  end.
Definition title (s : string) : string := title_go false s.

(** Truthiness of a string: [bool(s)]. *)
Definition truthy (s : string) : bool :=
  match s with EmptyString => false | _ => true end.

End Py.

Section Scraper.

(** ** [urllib.parse] *)

(** [_check_bracketed_netloc]: the validation of a bracketed (IPv6 or
    IPvFuture) host that [urlsplit] runs when the network location holds
    both brackets; [false] stands for the [ValueError] it raises.
    Interpreters that predate the check behave as the constant [true]. *)
Variable check_bracketed_netloc : string → bool.

Definition uses_netloc : list string :=
  [EmptyString; "ftp"; "http"; "gopher"; "nntp"; "telnet"; "imap"; "wais";
   "file"; "mms"; "https"; "shttp"; "snews"; "prospero"; "rtsp"; "rtsps";
   "rtspu"; "rsync"; "svn"; "svn+ssh"; "sftp"; "nfs"; "git"; "git+ssh";
   "ws"; "wss"; "itms-services"].

Definition uses_params : list string :=
  [EmptyString; "ftp"; "hdl"; "prospero"; "http"; "imap"; "https"; "shttp";
   "rtsp"; "rtsps"; "rtspu"; "sip"; "sips"; "mms"; "sftp"; "tel"].

(** [c in scheme_chars] *)
Definition scheme_char (c : ascii) : bool :=
  Py.isalpha c || Py.isdigit c || Py.has_char c "+-.".

(** The characters of [_WHATWG_C0_CONTROL_OR_SPACE]. *)
Definition c0_control_or_space (c : ascii) : bool := (Py.code c <=? 32)%N.

(** Removal of [_UNSAFE_URL_BYTES_TO_REMOVE]: TAB, CR and LF. *)
Definition remove_unsafe_bytes (url : string) : string :=
  Py.remove_char "010" (Py.remove_char "013" (Py.remove_char "009" url)).

Fixpoint all_chars (p : ascii → bool) (s : string) : bool :=
  match s with
  | EmptyString => true
  | String c s' => p c && all_chars p s'
  end.

Record SplitResult := {
  sr_scheme : string;
  sr_netloc : string;
  sr_path : string;
  sr_query : string;
  sr_fragment : string
}.

Record ParseResult := {
  scheme : string;
  netloc : string;
  path : string;
  params : string;
  query : string;
  fragment : string
}.

(** [_splitnetloc(url, start)] *)
Definition splitnetloc (url : string) (start : nat) : string * string :=
  let delim :=
    fold_left
      (λ delim c, match Py.find c start url with
                  | Some wdelim => Nat.min delim wdelim
                  | None => delim
                  end)
      ["/"; "?"; "#"]%char (Py.len url) in
  (Py.slice start delim url, Py.drop delim url).

(** The scheme test of [urlsplit]: a colon at a positive index, a first
    character that is an ASCII letter, and only scheme characters before
    the colon. *)
Definition split_scheme (url : string) : string * string :=
  match Py.find ":" 0 url, url with
  | Some (S i'), String c0 _ =>
      let i := S i' in
      if Py.isascii c0 && Py.isalpha c0 && all_chars scheme_char (Py.take i url)
      then (Py.lower (Py.take i url), Py.drop (S i) url)
      else (EmptyString, url)
  | _, _ => (EmptyString, url)
  end.

(** The network-location step of [urlsplit]: taken when the rest of the
    URL starts with two slashes; [None] when a bracket is unmatched or the
    bracketed host is refused. *)
Definition split_authority (url : string) : option (string * string) :=
  if Py.startswith url "//" then
    let '(netloc, rest) := splitnetloc url 2 in
    let lb := Py.has_char "[" netloc in
    let rb := Py.has_char "]" netloc in
    if (lb && negb rb) || (rb && negb lb) then None
    else if lb && rb && negb (check_bracketed_netloc netloc) then None
    else Some (netloc, rest)
  else Some (EmptyString, url).

(** The fragment and query steps of [urlsplit]. *)
Definition split_fragment (url : string) : string * string :=
  if Py.has_char "#" url then Py.split_once "#" url else (url, EmptyString).

Definition split_query (url : string) : string * string :=
  if Py.has_char "?" url then Py.split_once "?" url else (url, EmptyString).

(** [urlsplit] after the scheme is split off. *)
Definition split_components (scheme url : string) : option SplitResult :=
  '(netloc, url) ← split_authority url;
  let '(url, fragment) := split_fragment url in
  let '(url, query) := split_query url in
  Some {| sr_scheme := scheme; sr_netloc := netloc; sr_path := url;
          sr_query := query; sr_fragment := fragment |}.

(** [urlsplit(url)]; [None] stands for [ValueError]. *)
Definition urlsplit (url : string) : option SplitResult :=
  let url := Py.lstrip c0_control_or_space url in
  let url := remove_unsafe_bytes url in
  let '(scheme, url) := split_scheme url in
  split_components scheme url.

(** [_splitparams(url)] *)
Definition splitparams (url : string) : string * string :=
  let cut (i : option nat) :=
    match i with
    | Some i => (Py.take i url, Py.drop (S i) url)
    | None => (Py.take (Py.len url - 1) url, url)
    end in
  if Py.has_char "/" url then
    match Py.find ";" (default O (Py.rfind "/" url)) url with
    | None => (url, EmptyString)
    | Some i => cut (Some i)
    end
  else cut (Py.find ";" 0 url).

(** [urlparse(url)]; [None] stands for [ValueError]. *)
Definition urlparse (url : string) : option ParseResult :=
  sr ← urlsplit url;
  let '(url, params) :=
    if bool_decide (sr_scheme sr ∈ uses_params) && Py.has_char ";" (sr_path sr)
    then splitparams (sr_path sr)
    else (sr_path sr, EmptyString) in
  Some {| scheme := sr_scheme sr; netloc := sr_netloc sr; path := url;
          params := params; query := sr_query sr;
          fragment := sr_fragment sr |}.

(** [urlunsplit((scheme, netloc, url, query, fragment))] *)
Definition urlunsplit (scheme netloc url query fragment : string) : string :=
  let url :=
    if Py.truthy netloc
       || (Py.truthy scheme && bool_decide (scheme ∈ uses_netloc)
           && negb (Py.startswith url "//"))
    then
      let url := if Py.truthy url && negb (Py.startswith url "/")
                 then "/" +:+ url else url in
      "//" +:+ netloc +:+ url
    else url in
  let url := if Py.truthy scheme then scheme +:+ ":" +:+ url else url in
  let url := if Py.truthy query then url +:+ "?" +:+ query else url in
  let url := if Py.truthy fragment then url +:+ "#" +:+ fragment else url in
  url.

(** [urlunparse((scheme, netloc, url, params, query, fragment))] *)
Definition urlunparse (scheme netloc url params query fragment : string) : string :=
  let url := if Py.truthy params then url +:+ ";" +:+ params else url in
  urlunsplit scheme netloc url query fragment.

(** ** [WebScraper.normalize_url] and [WebScraper.is_valid_url] *)

(** [normalize_url(url)]; [None] when [urlparse] raises. *)
Definition normalize_url (url : string) : option string :=
  let url :=
    if Py.startswith url "http://" || Py.startswith url "https://"
    then url else "https://" +:+ url in
  parsed ← urlparse url;
  let stripped := Py.rstrip (Ascii.eqb "/") (path parsed) in
  Some (urlunparse (scheme parsed)
                   (Py.lower (netloc parsed))
                   (if Py.truthy stripped then stripped else "/")
                   (params parsed)
                   (query parsed)
                   (fragment parsed)).

(** [is_valid_url(url, base_domain)]: every exception is caught and
    turned into [False]. *)
Definition is_valid_url (url base_domain : string) : bool :=
  match urlparse url with
  | None => false
  | Some parsed =>
      if negb (Py.truthy (netloc parsed)) then false
      else String.eqb (netloc parsed) base_domain
           || Py.endswith (netloc parsed) ("." +:+ base_domain)
  end.

(** ** External collaborators *)

(** A [requests] response: status code and body text. *)
Record Response := { status_code : Z; text : string }.

(** [self.session.get(url, timeout=t)]; [None] stands for any exception
    of the transport (DNS, TLS, connection, timeout). *)
Variable session_get : string → Z → option Response.

(** [response.raise_for_status()] raises on 4xx and 5xx; [true] when it
    returns normally. *)
Definition raise_for_status (r : Response) : bool :=
  negb ((400 <=? status_code r) && (status_code r <? 600)).

(** [[link['href'] for link in soup.find_all('a', href=True)]] *)
Variable soup_hrefs : string → list string.

(** [soup.select_one(selector)], given as the [get_text()] of the element
    found; [None] when no element matches. *)
Variable soup_select_one : string → string → option string.

(** [trafilatura.extract(html, ..., output_format='markdown')] *)
Variable trafilatura_extract : string → option string.

(** [urljoin(base_url, href)]; [None] stands for [ValueError]. *)
Variable urljoin : string → string → option string.

(** [list(s)] for a set [s]: Python enumerates a set in an order of its
    own. *)
Variable list_of_set : gset string → list string.

(** The headers a fresh [requests.Session()] carries. *)
Variable default_headers : gmap string string.

(** ** The scraper object *)

Record WebScraper := {
  max_pages : Z;
  delay : Q;
  session_headers : gmap string string;
  visited_urls : gset string
}.

Definition user_agent : string :=
  "Mozilla/5.0 (Macintosh; Intel Mac OS X 10_15_7) AppleWebKit/537.36 (KHTML, like Gecko) Chrome/91.0.4472.124 Safari/537.36".

(** [WebScraper.__init__(max_pages, delay)] *)
Definition init (max_pages : Z) (delay : Q) : WebScraper :=
  {| max_pages := max_pages;
     delay := delay;
     session_headers := <["User-Agent" := user_agent]> default_headers;
     visited_urls := ∅ |}.

(** [WebScraper()] with the default arguments. *)
Definition default_delay : Q := Qmake 1 2.
Definition default_max_pages : Z := 50.

(** [self.visited_urls.add(url)] *)
Definition visited_add (url : string) (self : WebScraper) : WebScraper :=
  {| max_pages := max_pages self;
     delay := delay self;
     session_headers := session_headers self;
     visited_urls := {[url]} ∪ visited_urls self |}.

(** ** [WebScraper.extract_links] *)

(** The loop over the anchors of [extract_links]; an exception of
    [urljoin] or [normalize_url] leaves the loop. *)
Fixpoint collect_links (hrefs : list string) (base_url base_domain : string)
    (links : list string) : option (list string) :=
  match hrefs with
  | [] => Some links
  | href :: hrefs' =>
      full_url ← urljoin base_url href;
      full_url ← normalize_url full_url;
      collect_links hrefs' base_url base_domain
        (if is_valid_url full_url base_domain then links ++ [full_url] else links)
  end.

Definition extract_links (html base_url base_domain : string) : option (list string) :=
  links ← collect_links (soup_hrefs html) base_url base_domain [];
  Some (list_of_set (list_to_set links)).

(** ** [WebScraper.crawl_site] *)

(** The variables of [crawl_site], the scraper object, and two ghost
    fields: [fetched] logs the URLs passed to [session.get], oldest
    first, and [discovery] logs the URLs in the order they entered
    [found_urls]. *)
Record CrawlState := {
  urls_to_visit : list string;
  found_urls : gset string;
  self : WebScraper;
  fetched : list string;
  discovery : list string
}.

Definition set_urls_to_visit (q : list string) (st : CrawlState) : CrawlState :=
  {| urls_to_visit := q; found_urls := found_urls st; self := self st;
     fetched := fetched st; discovery := discovery st |}.

Definition set_self (s : WebScraper) (st : CrawlState) : CrawlState :=
  {| urls_to_visit := urls_to_visit st; found_urls := found_urls st; self := s;
     fetched := fetched st; discovery := discovery st |}.

Definition log_fetch (url : string) (st : CrawlState) : CrawlState :=
  {| urls_to_visit := urls_to_visit st; found_urls := found_urls st;
     self := self st; fetched := fetched st ++ [url];
     discovery := discovery st |}.

(** One round of [for link in new_links]. *)
Definition add_link (st : CrawlState) (link : string) : CrawlState :=
  if bool_decide (link ∉ found_urls st)
     && (Z.of_nat (size (found_urls st)) <? max_pages (self st))
  then {| urls_to_visit := urls_to_visit st ++ [link];
          found_urls := {[link]} ∪ found_urls st;
          self := self st;
          fetched := fetched st;
          discovery := discovery st ++ [link] |}
  else st.

(** The guard of the [while] loop. *)
Definition crawl_guard (st : CrawlState) : bool :=
  negb (bool_decide (urls_to_visit st = []))
  && (Z.of_nat (size (found_urls st)) <? max_pages (self st)).

(** The body of the [while] loop. *)
Definition crawl_iter (base_domain : string) (st : CrawlState) : CrawlState :=
  match urls_to_visit st with
  | [] => st
  | current_url :: rest =>
      let st := set_urls_to_visit rest st in
      if bool_decide (current_url ∈ visited_urls (self st)) then st
      else
        let st := log_fetch current_url st in
        match session_get current_url 10 with
        | None => st
        | Some response =>
            if negb (raise_for_status response) then st
            else
              let st := set_self (visited_add current_url (self st)) st in
              match extract_links (text response) current_url base_domain with
              | None => st
              | Some new_links => foldl add_link st new_links
              end
        end
  end.

(** The [while] loop; [None] when the fuel runs out before the guard
    fails. *)
Fixpoint crawl_loop (fuel : nat) (base_domain : string) (st : CrawlState)
    : option CrawlState :=
  if crawl_guard st then
    match fuel with
    | O => None
    | S fuel' => crawl_loop fuel' base_domain (crawl_iter base_domain st)
    end
  else Some st.

(** What a call does: return a value, raise, or not finish within the
    fuel. *)
Inductive outcome (A : Type) : Type :=
| Returns (a : A)
| Raises
| OutOfFuel.
Global Arguments Returns {A} a.
Global Arguments Raises {A}.
Global Arguments OutOfFuel {A}.

(** The state [crawl_site] enters its loop with. *)
Definition crawl_start (self : WebScraper) (root_url : string) : CrawlState :=
  {| urls_to_visit := [root_url];
     found_urls := {[root_url]};
     self := self;
     fetched := [];
     discovery := [root_url] |}.

(** Fuel for the loop: it runs fewer than [max_pages] rounds (see
    [crawl_loop_terminates]). *)
Definition crawl_fuel (self : WebScraper) : nat := Z.to_nat (max_pages self).

(** [crawl_site] up to the end of its loop. *)
Definition crawl_run (self : WebScraper) (root_url : string) : outcome CrawlState :=
  match normalize_url root_url with
  | None => Raises
  | Some root_url =>
      match urlparse root_url with
      | None => Raises
      | Some parsed =>
          let base_domain := netloc parsed in
          match crawl_loop (crawl_fuel self) base_domain (crawl_start self root_url) with
          | None => OutOfFuel
          | Some st => Returns st
          end
      end
  end.

(** [crawl_site(root_url)]: the list returned and the scraper
    afterwards. *)
Definition crawl_site (self0 : WebScraper) (root_url : string)
    : outcome (list string) * WebScraper :=
  match crawl_run self0 root_url with
  | Returns st => (Returns (list_of_set (found_urls st)), self st)
  | Raises => (Raises, self0)
  | OutOfFuel => (OutOfFuel, self0)
  end.

(** ** [WebScraper.detect_content_type] *)

(** [any(pattern in s for pattern in patterns)] *)
Definition any_in (patterns : list string) (s : string) : bool :=
  existsb (λ pattern, Py.contains pattern s) patterns.

Definition detect_content_type (url title content : string) : string :=
  let url_lower := Py.lower url in
  let title_lower := if Py.truthy title then Py.lower title else EmptyString in
  if any_in ["/blog/"; "/post/"; "/article/"] url_lower then "blog"
  else if any_in ["/podcast/"; "/episode/"] url_lower then "podcast_transcript"
  else if any_in ["/call/"; "/meeting/"] url_lower then "call_transcript"
  else if any_in ["linkedin.com"; "/posts/"] url_lower then "linkedin_post"
  else if any_in ["reddit.com"; "/comments/"] url_lower then "reddit_comment"
  else if any_in ["/book/"; "/books/"] url_lower then "book"
  else if any_in ["/guide/"; "/guides/"; "/tutorial/"] url_lower then "blog"
  else "blog".

(** ** [WebScraper.extract_content] *)

Record ExtractionRecord := {
  title : string;
  content : string;
  content_type : string;
  source_url : string
}.

(** [not x] for an [x] that is [None] or a string. *)
Definition is_falsy (title : option string) : bool :=
  match title with
  | None => true
  | Some t => negb (Py.truthy t)
  end.

Definition title_selectors : list string :=
  ["h1"; "title"; ".post-title"; ".entry-title"; ".article-title"].

(** The loop over the selectors: the first element found sets the title
    and ends the loop. *)
Fixpoint select_title (selectors : list string) (html : string) : option string :=
  match selectors with
  | [] => None
  | selector :: selectors' =>
      match soup_select_one html selector with
      | Some elem_text => Some (Py.strip elem_text)
      | None => select_title selectors' html
      end
  end.

(** The loop over the Markdown lines: the first line that starts with
    ["# "] sets the title and ends the loop. *)
Fixpoint markdown_title (lines : list string) (title : option string) : option string :=
  match lines with
  | [] => title
  | line :: lines' =>
      if Py.startswith line "# " then Some (Py.strip (Py.drop 2 line))
      else markdown_title lines' title
  end.

(** [urlparse(url).path.split('/')[-1].replace('-', ' ').replace('_', ' ').title()] *)
Definition url_title (url : string) : option string :=
  parsed ← urlparse url;
  Some (Py.title
          (Py.replace_char "_" " "
             (Py.replace_char "-" " "
                (Py.last_item (Py.split "/" (path parsed)))))).

(** The title of a page from its HTML, its URL and the extracted
    Markdown; [None] when [urlparse] raises. *)
Definition resolve_title (html url extracted : string) : option string :=
  let title := select_title title_selectors html in
  let title :=
    if is_falsy title && Py.truthy extracted
    then markdown_title (Py.split "010" extracted) title
    else title in
  if is_falsy title then url_title url else title.

(** [extract_content(url)]: every exception is caught and turned into
    [None]. *)
Definition extract_content (url : string) : option ExtractionRecord :=
  match session_get url 15 with
  | None => None
  | Some response =>
      if negb (raise_for_status response) then None
      else
        match trafilatura_extract (text response) with
        | None => None
        | Some extracted =>
            if negb (Py.truthy extracted) then None
            else
              title ← resolve_title (text response) url extracted;
              Some {| title := title;
                      content := extracted;
                      content_type := detect_content_type url title extracted;
                      source_url := url |}
        end
  end.

(** ** [WebScraper.build_output] and [WebScraper.scrape_site] *)

Record ScrapeResult := {
  site : string;
  items : list ExtractionRecord
}.

Definition build_output (site_url : string) (items : list ExtractionRecord) : ScrapeResult :=
  {| site := site_url; items := items |}.

(** [time.sleep(secs)] raises [ValueError] on a negative length; [true]
    when it returns. *)
Definition time_sleep (secs : Q) : bool := Qle_bool (Qmake 0 1) secs.

(** The extraction loop of [scrape_site]; [None] when [time.sleep]
    raises. *)
Fixpoint extract_all (self : WebScraper) (urls : list string)
    (items : list ExtractionRecord) : option (list ExtractionRecord) :=
  match urls with
  | [] => Some items
  | url_to_scrape :: urls' =>
      let items :=
        match extract_content url_to_scrape with
        | Some content_data => items ++ [content_data]
        | None => items
        end in
      if time_sleep (delay self) then extract_all self urls' items else None
  end.

Definition scrape_site (self0 : WebScraper) (url : string)
    : outcome ScrapeResult * WebScraper :=
  match normalize_url url with
  | None => (Raises, self0)
  | Some normalized_url =>
      match crawl_site self0 normalized_url with
      | (Returns urls, self1) =>
          match extract_all self1 urls [] with
          | Some items => (Returns (build_output normalized_url items), self1)
          | None => (Raises, self1)
          end
      | (Raises, self1) => (Raises, self1)
      | (OutOfFuel, self1) => (OutOfFuel, self1)
      end
  end.

(** ** [main] *)

(** [int(s)]; [None] stands for [ValueError]. *)
Variable py_int : string → option Z.

(** [open(output_file, 'w')] followed by [json.dump]; [false] stands for
    an exception of either. *)
Variable write_json : string → ScrapeResult → bool.

(** [print(line)]; [false] stands for an exception of the write to the
    standard output: a closed stream, or a stream whose encoding has no
    code for a character of the line. *)
Variable print : string → bool.

(** What a run of the program leaves behind: its exit status and the
    document it wrote, if any. *)
Record ProcessResult := {
  exit_status : Z;
  written : option (string * ScrapeResult)
}.

Definition exited (status : Z) : ProcessResult :=
  {| exit_status := status; written := None |}.

(** The lines [main] prints when the command line names no URL. *)
Definition usage : list string :=
  ["Usage: python scraper.py <url> [output_file] [max_pages]";
   "Example: python scraper.py https://quill.co/blog";
   "Example: python scraper.py https://quill.co/blog quill_output.json";
   "Example: python scraper.py https://quill.co/blog quill_output.json 100"].

(** [int(sys.argv[3]) if len(sys.argv) > 3 else 50]; [None] when [int]
    raises. *)
Definition max_pages_arg (argv : list string) : option Z :=
  match argv !! 3%nat with
  | Some a => py_int a
  | None => Some default_max_pages
  end.

(** The name of the output file: [sys.argv[2]] when it is given and not
    empty, else a name made from the network location of the URL as it
    was given; [None] when [urlparse] raises. *)
Definition output_file_arg (argv : list string) (url : string) : option string :=
  if is_falsy (argv !! 2%nat)
  then parsed ← urlparse url;
       Some (Py.replace "." "_"
               (Py.replace "www." EmptyString (netloc parsed))
             +:+ "_scraped.json")
  else argv !! 2%nat.

(** [main()] on [sys.argv = argv].  An exception that nothing catches
    ends the interpreter with status 1, as [sys.exit(1)] does; so does an
    exception of a [print] of the usage text.  The text of the lines is
    the text of the source, byte for byte.  The crawl never runs out of
    fuel ([crawl_run_finishes]); that branch is there for the match to be
    complete. *)
Definition main (argv : list string) : ProcessResult :=
  if (length argv <? 2)%nat
  then (if forallb print usage then exited 1 else exited 1)
  else
    match argv !! 1%nat with
    | None => exited 1
    | Some url =>
        match max_pages_arg argv with
        | None => exited 1
        | Some max_pages =>
            match output_file_arg argv url with
            | None => exited 1
            | Some output_file =>
                let scraper := init max_pages default_delay in
                if negb (print ("ğŸš€ Starting scrape of " +:+ url)
                         && print ("ğŸ“„ Output will be saved to: " +:+ output_file)
                         && print "â³ This may take a few minutes...")
                then exited 1
                else
                  match fst (scrape_site scraper url) with
                  | Returns result =>
                      if write_json output_file result
                      then
                        if print ("âœ… Successfully scraped "
                                  +:+ pretty (length (items result))
                                  +:+ " items")
                           && print ("ğŸ“ Results saved to: " +:+ output_file)
                        then {| exit_status := 0;
                                written := Some (output_file, result) |}
                        else {| exit_status := 1;
                                written := Some (output_file, result) |}
                      else exited 1
                  | Raises => exited 1
                  | OutOfFuel => exited 1
                  end
            end
        end
    end.

(** ** Notions the properties are stated with *)

(** The characters that end the network location of a URL. *)
Definition is_delim (c : ascii) : bool :=
  Ascii.eqb c "/" || Ascii.eqb c "?" || Ascii.eqb c "#".

(** The longest prefix of [s] free of the characters [p] accepts, and
    what follows it. *)
Fixpoint span_until (p : ascii → bool) (s : string) : string * string :=
  match s with
  | EmptyString => (EmptyString, EmptyString)
  | String c s' =>
      if p c then (EmptyString, s)
      else let '(a, b) := span_until p s' in (String c a, b)
  end.

(** One round of the loop of [_splitnetloc]: the nearer of [delim] and
    the first occurrence of [c] in [t]. *)
Definition nearer (t : string) (delim : nat) (c : ascii) : nat :=
  match Py.index_of c t with
  | Some wdelim => Nat.min delim wdelim
  | None => delim
  end.

(** [s] is empty or starts with a character [p] accepts. *)
Definition head_is (p : ascii → bool) (s : string) : bool :=
  match s with
  | EmptyString => true
  | String c _ => p c
  end.

(** The path [normalize_url] writes: the stripped path, or a single
    slash. *)
Definition normal_path (path : string) : string :=
  let stripped := Py.rstrip (Ascii.eqb "/") path in
  if Py.truthy stripped then stripped else "/".

(** A query or fragment as [urlunsplit] appends it: nothing when it is
    empty, else the separator [c] and the part. *)
Definition tail_of (c : ascii) (part : string) : string :=
  if Py.truthy part then String c part else EmptyString.

(** The part of [s] from its last slash on (all of [s] when it has
    none): the final segment of a path, with the slash before it. *)
Definition last_segment (s : string) : string :=
  Py.drop (default O (Py.rfind "/" s)) s.

(** [s] holds none of the bytes [urlsplit] removes. *)
Definition safe (s : string) : Prop :=
  Py.has_char "009" s = false ∧ Py.has_char "013" s = false
  ∧ Py.has_char "010" s = false.

(** The bracket test of [urlsplit] lets [netloc] through. *)
Definition brackets_ok (netloc : string) : Prop :=
  Py.has_char "[" netloc = Py.has_char "]" netloc
  ∧ (Py.has_char "[" netloc = true → check_bracketed_netloc netloc = true).

(** What [urlsplit] guarantees of the parts of a URL with a network
    location. *)
Record parts_ok (n p q f : string) : Prop := {
  netloc_no_delim : all_chars (λ c, negb (is_delim c)) n = true;
  netloc_brackets : brackets_ok n;
  path_rooted : head_is (Ascii.eqb "/") p = true;
  path_no_fragment : Py.has_char "#" p = false;
  path_no_query : Py.has_char "?" p = false;
  query_no_fragment : Py.has_char "#" q = false;
  netloc_safe : safe n;
  path_safe : safe p;
  query_safe : safe q;
  fragment_safe : safe f
}.

(** What [urlparse] guarantees of the parameters it splits off the last
    segment of a path. *)
Record params_ok (pa : string) : Prop := {
  params_no_slash : Py.has_char "/" pa = false;
  params_no_fragment : Py.has_char "#" pa = false;
  params_no_query : Py.has_char "?" pa = false;
  params_safe : safe pa
}.

(** The host of a URL, which [urllib] gives as [hostname]: the network
    location without the user information (up to the last [@]) and without
    the port (from the first [:] after the host, or after the closing
    bracket of a bracketed host), lowercased up to a zone mark [%];
    [None] when it is empty. *)
Definition hostname (parsed : ParseResult) : option string :=
  let hostinfo :=
    match Py.rfind "@" (netloc parsed) with
    | Some i => Py.drop (S i) (netloc parsed)
    | None => netloc parsed
    end in
  let host :=
    if Py.has_char "[" hostinfo
    then fst (Py.split_once "]" (snd (Py.split_once "[" hostinfo)))
    else fst (Py.split_once ":" hostinfo) in
  if Py.truthy host
  then Some (if Py.has_char "%" host
             then Py.lower (fst (Py.split_once "%" host))
                  +:+ "%" +:+ snd (Py.split_once "%" host)
             else Py.lower host)
  else None.

(** The configuration set at construction. *)
Definition config (s : WebScraper) : Z * Q * gmap string string :=
  (max_pages s, delay s, session_headers s).

(** The page quota as the crawl enforces it: the root is always
    discovered. *)
Definition quota (s : WebScraper) : Z := Z.max 1 (max_pages s).

(** The scraper [s] with [visited] for its visited set. *)
Definition with_visited (visited : gset string) (s : WebScraper) : WebScraper :=
  {| max_pages := max_pages s;
     delay := delay s;
     session_headers := session_headers s;
     visited_urls := visited |}.

(** The scraper [s] as it was constructed: nothing visited yet. *)
Definition fresh (s : WebScraper) : WebScraper := with_visited ∅ s.

(** A crawl state whose scraper has visited the URLs of [V] as well. *)
Definition join_visited (V : gset string) (st : CrawlState) : CrawlState :=
  set_self (with_visited (V ∪ visited_urls (self st)) (self st)) st.

(** The states the [while] loop passes through at its head, from [st0]. *)
Inductive crawl_reaches (base_domain : string) (st0 : CrawlState) : CrawlState → Prop :=
| reaches_start : crawl_reaches base_domain st0 st0
| reaches_iter st :
    crawl_reaches base_domain st0 st →
    crawl_guard st = true →
    crawl_reaches base_domain st0 (crawl_iter base_domain st).

(** What the crawl takes from the page at [url]: the list
    [extract_links] returns, nothing when the fetch or the link
    extraction fails.  A notion of the proofs: the invariants of the loop
    are stated with it. *)
Definition page_links (base_domain url : string) : list string :=
  match session_get url 10 with
  | Some response =>
      if raise_for_status response
      then default [] (extract_links (text response) url base_domain)
      else []
  | None => []
  end.

(** The pages the crawl can come to from [root]: a notion of the
    proofs, compared with [site_reachable] in [reachable_site]. *)
Inductive reachable (base_domain root : string) : string → Prop :=
| reachable_root : reachable base_domain root root
| reachable_link u v :
    reachable base_domain root u →
    v ∈ page_links base_domain u →
    reachable base_domain root v.

(** A link of the page at [base_url], taken from the anchors [hrefs] of
    the page: the normal form of an anchor joined to [base_url], when it
    is internal to [base_domain]. *)
Definition link_of (hrefs : list string) (base_url base_domain v : string) : Prop :=
  ∃ href joined,
    href ∈ hrefs
    ∧ urljoin base_url href = Some joined
    ∧ normalize_url joined = Some v
    ∧ is_valid_url v base_domain = true.

(** An anchor that makes [urljoin] or [normalize_url] raise. *)
Definition bad_href (base_url href : string) : Prop :=
  urljoin base_url href = None
  ∨ ∃ joined, urljoin base_url href = Some joined ∧ normalize_url joined = None.

(** The site as the specification sees it: the page at [url] links to
    [v] when one of the anchors of its HTML leads to [v], a page internal
    to the base domain; the pages of the site reachable from the root are
    those a chain of such links leads to.  Neither notion refers to what
    the crawl does. *)
Definition links_to (base_domain url v : string) : Prop :=
  ∃ response,
    session_get url 10 = Some response
    ∧ link_of (soup_hrefs (text response)) url base_domain v.

Inductive site_reachable (base_domain root : string) : string → Prop :=
| site_root : site_reachable base_domain root root
| site_link u v :
    site_reachable base_domain root u →
    links_to base_domain u v →
    site_reachable base_domain root v.

(** Every fetch succeeds: the request for a reachable page returns, with
    a status that [raise_for_status] accepts. *)
Definition site_fetches_succeed (base_domain root : string) : Prop :=
  ∀ u, site_reachable base_domain root u →
       ∃ response, session_get u 10 = Some response
                   ∧ raise_for_status response = true.

(** Every anchor of a reachable page can be joined to the URL of the page
    and normalized. *)
Definition anchors_parse (base_domain root : string) : Prop :=
  ∀ u response href,
    site_reachable base_domain root u →
    session_get u 10 = Some response →
    href ∈ soup_hrefs (text response) →
    ∃ joined v, urljoin u href = Some joined ∧ normalize_url joined = Some v.


(** The classifier as a table: groups of substrings in priority order,
    each with its label. *)
Definition content_type_rules : list (list string * string) :=
  [ (["/blog/"; "/post/"; "/article/"], "blog");
    (["/podcast/"; "/episode/"], "podcast_transcript");
    (["/call/"; "/meeting/"], "call_transcript");
    (["linkedin.com"; "/posts/"], "linkedin_post");
    (["reddit.com"; "/comments/"], "reddit_comment");
    (["/book/"; "/books/"], "book");
    (["/guide/"; "/guides/"; "/tutorial/"], "blog") ].

(** The label of the first group one of whose substrings occurs in the
    lowercased URL; ["blog"] when no group matches. *)
Definition classify (url : string) : string :=
  match List.find (λ rule, any_in (fst rule) (Py.lower url)) content_type_rules with
  | Some rule => snd rule
  | None => "blog"
  end.

(** The three tiers of the title chain. *)
Definition headline_title (html : string) : option string :=
  select_title title_selectors html.
Definition heading_title (extracted : string) : option string :=
  markdown_title (Py.split "010" extracted) None.

(** A tier yields when it gives a non-empty string. *)
Definition yields (t : option string) : option string :=
  match t with
  | Some s => if Py.truthy s then Some s else None
  | None => None
  end.

(** The title chain: the first tier that yields, the URL tier last. *)
Definition title_chain (html url extracted : string) : option string :=
  match yields (headline_title html) with
  | Some t => Some t
  | None =>
      match yields (heading_title extracted) with
      | Some t => Some t
      | None => url_title url
      end
  end.

(** The three tiers as the specification words them.  First tier: the
    stripped text of the first element found among [h1], [title],
    [.post-title], [.entry-title] and [.article-title], tried in this
    order. *)
Definition first_headline (html : string) : option string :=
  Py.strip <$>
    match soup_select_one html "h1" with
    | Some elem_text => Some elem_text
    | None =>
    match soup_select_one html "title" with
    | Some elem_text => Some elem_text
    | None =>
    match soup_select_one html ".post-title" with
    | Some elem_text => Some elem_text
    | None =>
    match soup_select_one html ".entry-title" with
    | Some elem_text => Some elem_text
    | None => soup_select_one html ".article-title"
    end end end end.

(** Second tier: the first line of the Markdown that begins with ["# "],
    without these two characters, stripped. *)
Definition first_heading (extracted : string) : option string :=
  (λ line, Py.strip (Py.drop 2 line))
    <$> List.find (λ line, Py.startswith line "# ") (Py.split "010" extracted).

(** Third tier: what follows the last slash of the path of the URL, with
    each hyphen and underscore turned into a space, title-cased. *)
Definition last_path_segment (path : string) : string :=
  match Py.rfind "/" path with
  | Some i => Py.drop (S i) path
  | None => path
  end.

Definition spaced (segment : string) : string :=
  Py.map_chars (λ c, if Ascii.eqb c "-" || Ascii.eqb c "_" then " "%char else c)
    segment.

Definition humanized_segment (url : string) : option string :=
  parsed ← urlparse url;
  Some (Py.title (spaced (last_path_segment (path parsed)))).

(** The chain of the three tiers: the first that yields, the URL tier
    last. *)
Definition title_tiers (html url extracted : string) : option string :=
  match yields (first_headline html) with
  | Some t => Some t
  | None =>
      match yields (first_heading extracted) with
      | Some t => Some t
      | None => humanized_segment url
      end
  end.

(** The last segment of the path of [url]. *)
Definition final_segment (url : string) : option string :=
  parsed ← urlparse url;
  Some (Py.last_item (Py.split "/" (path parsed))).

(** [url] with the scheme [normalize_url] gives it. *)
Definition with_scheme (url : string) : string :=
  if Py.startswith url "http://" || Py.startswith url "https://"
  then url else "https://" +:+ url.

(** A URL is well formed when it parses and names a host. *)
Definition well_formed (url : string) : Prop :=
  ∃ sr, urlsplit (with_scheme url) = Some sr ∧ sr_netloc sr ≠ EmptyString.

(** The path component of a URL, before parameters are split off. *)
Definition raw_path (url : string) : option string :=
  sr_path <$> urlsplit (with_scheme url).

(** ** A small site to run the scraper on

    Four pages under [example.com]: the root A links to B and C, B links
    back to A, to D and to another site, C and D link nowhere.  A has no
    headline element and no Markdown heading, B has an [h1] and a
    [title], C has no article body, D has a Markdown heading only.  A
    fifth URL, to which no page links, answers with status 404. *)

Definition url_A : string := "https://example.com/".
Definition url_B : string := "https://example.com/blog/b".
Definition url_C : string := "https://example.com/c".
Definition url_D : string := "https://example.com/guide/d".
Definition url_gone : string := "https://example.com/gone".

Definition demo_get (url : string) (timeout : Z) : option Response :=
  if String.eqb url url_A then Some {| status_code := 200; text := "A" |}
  else if String.eqb url url_B then Some {| status_code := 200; text := "B" |}
  else if String.eqb url url_C then Some {| status_code := 200; text := "C" |}
  else if String.eqb url url_D then Some {| status_code := 200; text := "D" |}
  else if String.eqb url url_gone then Some {| status_code := 404; text := EmptyString |}
  else None.

Definition demo_hrefs (html : string) : list string :=
  if String.eqb html "A" then ["https://example.com/blog/b"; "https://example.com/c/"]
  else if String.eqb html "B"
       then ["https://EXAMPLE.com"; "https://example.com/guide/d"; "https://other.org/x"]
       else [].

Definition demo_select_one (html selector : string) : option string :=
  if String.eqb html "B" && String.eqb selector "h1" then Some " Post B "
  else if String.eqb html "B" && String.eqb selector "title"
       then Some "Post B | Example"
       else None.

Definition demo_extract (html : string) : option string :=
  if String.eqb html "A" then Some "Welcome to the site."
  else if String.eqb html "B" then Some "Body of B."
  else if String.eqb html "D" then Some ("Intro" +:+ String "010" "# Deep dive")
  else None.

(** Every link of the site is absolute, so joining returns the link. *)
Definition demo_urljoin (base_url href : string) : option string := Some href.

Definition demo_check (netloc : string) : bool := true.
Definition demo_int (s : string) : option Z := Some 10.
Definition demo_write (output_file : string) (result : ScrapeResult) : bool := true.
Definition demo_print (line : string) : bool := true.

(** ** Facts about the string built-ins *)

Lemma endswith_spec (s p : string) :
  Py.endswith s p = true ↔ ∃ pre, s = pre +:+ p.
Proof.
  induction s as [|a s IH].
  - change (Py.endswith EmptyString p) with (String.eqb EmptyString p || false).
    rewrite orb_false_r, String.eqb_eq. split.
    + intros <-. by exists EmptyString.
    + intros [pre Hpre]. destruct pre; simpl in Hpre; [done | discriminate].
  - change (Py.endswith (String a s) p)
      with (String.eqb (String a s) p || Py.endswith s p).
    rewrite orb_true_iff, String.eqb_eq, IH. split.
    + intros [<- | [pre ->]]; [by exists EmptyString | by exists (String a pre)].
    + intros [pre Hpre]. destruct pre as [|b pre]; simpl in Hpre.
      * by left.
      * right. exists pre. by injection Hpre.
Qed.

Lemma truthy_spec (s : string) : Py.truthy s = true ↔ s ≠ EmptyString.
Proof. by destruct s. Qed.

Lemma truthy_false (s : string) : Py.truthy s = false ↔ s = EmptyString.
Proof. by destruct s. Qed.

(** ** Appending and cutting strings *)

Lemma str_app_cons (a : ascii) (s t : string) : String a s +:+ t = String a (s +:+ t).
Proof. done. Qed.

Lemma str_app_nil_r (s : string) : s +:+ EmptyString = s.
Proof. induction s as [|a s IH]; [done|]. by rewrite str_app_cons, IH. Qed.

Lemma str_app_assoc (s t u : string) : (s +:+ t) +:+ u = s +:+ (t +:+ u).
Proof. induction s as [|a s IH]; [done|]. by rewrite !str_app_cons, IH. Qed.

Lemma has_char_app (c : ascii) (s t : string) :
  Py.has_char c (s +:+ t) = Py.has_char c s || Py.has_char c t.
Proof.
  induction s as [|a s IH]; [done|]. rewrite str_app_cons. simpl.
  by rewrite IH, orb_assoc.
Qed.

Lemma startswith_spec (s p : string) :
  Py.startswith s p = true ↔ ∃ x, s = p +:+ x.
Proof.
  revert s. induction p as [|b p IH]; intros s.
  - split; [by exists s | by destruct s].
  - destruct s as [|a s]; simpl.
    + split; [done|]. by intros [x Hx].
    + rewrite andb_true_iff, Ascii.eqb_eq, IH. split.
      * intros [-> [x ->]]. by exists x.
      * intros [x Hx]. rewrite str_app_cons in Hx. injection Hx as -> ->.
        split; [done | by exists x].
Qed.

Lemma index_of_none (c : ascii) (s : string) :
  Py.index_of c s = None ↔ Py.has_char c s = false.
Proof.
  induction s as [|a s IH]; simpl; [done|].
  destruct (Ascii.eqb a c); simpl; [done|].
  rewrite <- IH. by destruct (Py.index_of c s).
Qed.

Lemma index_of_some (c : ascii) (s : string) (i : nat) :
  Py.index_of c s = Some i →
  s = Py.take i s +:+ String c (Py.drop (S i) s)
  ∧ Py.has_char c (Py.take i s) = false.
Proof.
  revert i. induction s as [|a s IH]; intros i; simpl; [done|].
  destruct (Ascii.eqb a c) eqn:Hac.
  - intros [= <-]. apply Ascii.eqb_eq in Hac as ->. done.
  - destruct (Py.index_of c s) as [j|]; simpl; [|done].
    intros [= <-]. destruct (IH j eq_refl) as [Hs Hno]. simpl.
    rewrite str_app_cons, Hac, Hno. split; [f_equal; exact Hs | done].
Qed.

Lemma index_of_app (c : ascii) (a b : string) :
  Py.has_char c a = false →
  Py.index_of c (a +:+ String c b) = Some (Py.len a).
Proof.
  induction a as [|x a IH]; simpl.
  - intros _. by rewrite Ascii.eqb_refl.
  - intros [Hx Ha]%orb_false_iff. by rewrite Hx, IH.
Qed.

Lemma take_app (a b : string) : Py.take (Py.len a) (a +:+ b) = a.
Proof. induction a as [|x a IH]; simpl; [by destruct b|]. by rewrite IH. Qed.

Lemma drop_app (a b : string) : Py.drop (Py.len a) (a +:+ b) = b.
Proof. induction a as [|x a IH]; simpl; done. Qed.

Lemma split_once_app (c : ascii) (a b : string) :
  Py.has_char c a = false →
  Py.split_once c (a +:+ String c b) = (a, b).
Proof.
  intros Ha. unfold Py.split_once. rewrite index_of_app by done.
  rewrite take_app.
  change (Py.drop (S (Py.len a)) (a +:+ String c b))
    with (Py.drop 1 (Py.drop (Py.len a) (a +:+ String c b))) || idtac.
  f_equal. revert Ha. induction a as [|x a IH]; simpl; [done|].
  intros [_ Ha]%orb_false_iff. by apply IH.
Qed.

Lemma split_once_spec (c : ascii) (s a b : string) :
  Py.has_char c s = true →
  Py.split_once c s = (a, b) →
  s = a +:+ String c b ∧ Py.has_char c a = false.
Proof.
  intros Hc. unfold Py.split_once.
  destruct (Py.index_of c s) as [i|] eqn:Hi.
  - intros [= <- <-]. by apply index_of_some.
  - apply index_of_none in Hi. congruence.
Qed.

Lemma remove_char_id (c : ascii) (s : string) :
  Py.has_char c s = false → Py.remove_char c s = s.
Proof.
  induction s as [|a s IH]; simpl; [done|].
  intros [Ha Hs]%orb_false_iff. by rewrite Ha, IH.
Qed.

Lemma has_char_remove_char (c : ascii) (s : string) :
  Py.has_char c (Py.remove_char c s) = false.
Proof.
  induction s as [|a s IH]; simpl; [done|].
  destruct (Ascii.eqb a c) eqn:Ha; simpl; [done|]. by rewrite Ha.
Qed.

Lemma has_char_remove_other (c d : ascii) (s : string) :
  Py.has_char c s = false → Py.has_char c (Py.remove_char d s) = false.
Proof.
  induction s as [|a s IH]; simpl; [done|].
  intros [Ha Hs]%orb_false_iff.
  destruct (Ascii.eqb a d); simpl; [by apply IH|]. by rewrite Ha, IH.
Qed.

Lemma remove_unsafe_bytes_safe (s : string) : safe (remove_unsafe_bytes s).
Proof.
  unfold safe, remove_unsafe_bytes. split; [|split].
  - do 2 apply has_char_remove_other. apply has_char_remove_char.
  - apply has_char_remove_other, has_char_remove_char.
  - apply has_char_remove_char.
Qed.

Lemma remove_unsafe_bytes_id (s : string) : safe s → remove_unsafe_bytes s = s.
Proof.
  intros (Ht & Hr & Hn). unfold remove_unsafe_bytes.
  by rewrite (remove_char_id "009"), (remove_char_id "013"), (remove_char_id "010").
Qed.

Lemma safe_app (s t : string) : safe (s +:+ t) ↔ safe s ∧ safe t.
Proof.
  unfold safe. rewrite !has_char_app, !orb_false_iff. clear. tauto.
Qed.

Lemma safe_cons (c : ascii) (s : string) :
  safe (String c s) ↔ safe (String c EmptyString) ∧ safe s.
Proof. apply (safe_app (String c EmptyString) s). Qed.

(** *** The longest prefix free of delimiters *)

Lemma span_until_spec (p : ascii → bool) (s a b : string) :
  span_until p s = (a, b) →
  s = a +:+ b ∧ all_chars (λ c, negb (p c)) a = true ∧ head_is p b = true.
Proof.
  revert a b. induction s as [|c s IH]; intros a b; simpl.
  - by intros [= <- <-].
  - destruct (p c) eqn:Hc.
    + intros [= <- <-]. simpl. by rewrite Hc.
    + destruct (span_until p s) as [a' b'].
      intros [= <- <-]. destruct (IH a' b' eq_refl) as (-> & Ha & Hb).
      simpl. by rewrite Hc, Ha.
Qed.

Lemma span_until_app (p : ascii → bool) (a b : string) :
  all_chars (λ c, negb (p c)) a = true → head_is p b = true →
  span_until p (a +:+ b) = (a, b).
Proof.
  intros Ha Hb. induction a as [|c a IH]; simpl in *.
  - destruct b as [|c b]; simpl in *; [done|]. by rewrite Hb.
  - apply andb_true_iff in Ha as [Hc Ha]. apply negb_true_iff in Hc.
    by rewrite Hc, IH.
Qed.

Lemma span_until_len (p : ascii → bool) (s : string) :
  Py.take (Py.len (span_until p s).1) s = (span_until p s).1
  ∧ Py.drop (Py.len (span_until p s).1) s = (span_until p s).2.
Proof.
  destruct (span_until p s) as [a b] eqn:Hs.
  apply span_until_spec in Hs as (-> & _ & _). simpl.
  by rewrite take_app, drop_app.
Qed.

Lemma nearer_hit (a c : ascii) (t : string) (delim : nat) :
  Ascii.eqb a c = true → nearer (String a t) delim c = O.
Proof.
  intros Hac. unfold nearer. cbn [Py.index_of]. rewrite Hac. apply Nat.min_0_r.
Qed.

Lemma nearer_miss (a c : ascii) (t : string) (delim : nat) :
  Ascii.eqb a c = false → nearer (String a t) (S delim) c = S (nearer t delim c).
Proof.
  intros Hac. unfold nearer. cbn [Py.index_of]. rewrite Hac.
  by destruct (Py.index_of c t).
Qed.

Lemma nearer_zero (c : ascii) (t : string) : nearer t O c = O.
Proof. unfold nearer. by destruct (Py.index_of c t). Qed.

(** The index [_splitnetloc] computes is the length of that prefix. *)
Lemma delim_index (t : string) :
  nearer t (nearer t (nearer t (Py.len t) "/") "?") "#"
  = Py.len (span_until is_delim t).1.
Proof.
  induction t as [|a t IH]; [done|].
  cbn [span_until Py.len]. unfold is_delim at 1.
  destruct (Ascii.eqb a "/") eqn:H1.
  { by rewrite (nearer_hit a "/"), !nearer_zero. }
  rewrite (nearer_miss a "/") by done.
  destruct (Ascii.eqb a "?") eqn:H2.
  { by rewrite (nearer_hit a "?"), !nearer_zero. }
  rewrite (nearer_miss a "?") by done.
  destruct (Ascii.eqb a "#") eqn:H3.
  { by rewrite (nearer_hit a "#"). }
  rewrite (nearer_miss a "#") by done. rewrite IH.
  by destruct (span_until is_delim t).
Qed.

Lemma splitnetloc_span (t : string) :
  splitnetloc (String "/" (String "/" t)) 2 = span_until is_delim t.
Proof.
  unfold splitnetloc, Py.find, Py.slice.
  change (Py.drop 2 (String "/" (String "/" t))) with t.
  cbn [fold_left].
  pose proof (delim_index t) as Hd.
  pose proof (span_until_len is_delim t) as [Htake Hdrop].
  set (k := Py.len (span_until is_delim t).1) in *.
  set (delim := match _ <$> Py.index_of "#" t with Some _ => _ | None => _ end).
  assert (Hdelim : delim = S (S k)).
  { subst delim. rewrite <- Hd. unfold nearer. cbn [Py.len].
    destruct (Py.index_of "/" t), (Py.index_of "?" t), (Py.index_of "#" t);
      simpl; lia. }
  rewrite Hdelim.
  change (Py.drop (S (S k)) (String "/" (String "/" t))) with (Py.drop k t).
  replace (S (S k) - 2)%nat with k by lia.
  rewrite Htake, Hdrop. by destruct (span_until is_delim t).
Qed.

(** *** Lowercasing and stripping *)

Lemma lower_char_islower (a : ascii) :
  Py.isupper a = true → Py.islower (Py.lower_char a) = true.
Proof. destruct a as [[] [] [] [] [] [] [] []]; by vm_compute. Qed.

Lemma lower_char_idem (a : ascii) :
  Py.lower_char (Py.lower_char a) = Py.lower_char a.
Proof. destruct a as [[] [] [] [] [] [] [] []]; by vm_compute. Qed.

(** Lowercasing neither makes nor unmakes a character that is not a
    letter. *)
Lemma lower_char_eqb (a c : ascii) :
  Py.isalpha c = false → Ascii.eqb (Py.lower_char a) c = Ascii.eqb a c.
Proof.
  intros [Hup Hlow]%orb_false_iff. unfold Py.lower_char.
  destruct (Py.isupper a) eqn:Ha; [|done].
  transitivity false; [|symmetry]; apply Ascii.eqb_neq; intros Heq.
  - pose proof (lower_char_islower a Ha) as Hl. unfold Py.lower_char in Hl.
    rewrite Ha in Hl. congruence.
  - congruence.
Qed.

Lemma has_char_lower (c : ascii) (s : string) :
  Py.isalpha c = false → Py.has_char c (Py.lower s) = Py.has_char c s.
Proof.
  intros Hc. unfold Py.lower. induction s as [|a s IH]; simpl; [done|].
  by rewrite lower_char_eqb, IH.
Qed.

Lemma is_delim_lower_char (a : ascii) : is_delim (Py.lower_char a) = is_delim a.
Proof. unfold is_delim. by rewrite !lower_char_eqb. Qed.

Lemma no_delim_lower (s : string) :
  all_chars (λ c, negb (is_delim c)) (Py.lower s)
  = all_chars (λ c, negb (is_delim c)) s.
Proof.
  unfold Py.lower. induction s as [|a s IH]; simpl; [done|].
  by rewrite is_delim_lower_char, IH.
Qed.

Lemma lower_idem (s : string) : Py.lower (Py.lower s) = Py.lower s.
Proof.
  unfold Py.lower. induction s as [|a s IH]; simpl; [done|].
  by rewrite lower_char_idem, IH.
Qed.

Lemma safe_lower (s : string) : safe s → safe (Py.lower s).
Proof. unfold safe. by rewrite !has_char_lower. Qed.

Lemma rstrip_prefix (p : ascii → bool) (s : string) :
  ∃ t, s = Py.rstrip p s +:+ t.
Proof.
  induction s as [|a s [t IH]]; [by exists EmptyString|]. simpl.
  destruct (Py.rstrip p s) as [|b r] eqn:Hr.
  - destruct (p a).
    + by exists (String a s).
    + exists s. done.
  - exists t. rewrite str_app_cons. by rewrite <- IH.
Qed.

Lemma rstrip_idem (p : ascii → bool) (s : string) :
  Py.rstrip p (Py.rstrip p s) = Py.rstrip p s.
Proof.
  induction s as [|a s IH]; [done|]. simpl.
  destruct (Py.rstrip p s) as [|b r] eqn:Hr.
  - destruct (p a) eqn:Ha; [done|]. simpl. by rewrite Ha.
  - cbn [Py.rstrip]. cbn [Py.rstrip] in IH. by rewrite IH.
Qed.

Lemma has_char_rstrip (c : ascii) (p : ascii → bool) (s : string) :
  Py.has_char c s = false → Py.has_char c (Py.rstrip p s) = false.
Proof.
  destruct (rstrip_prefix p s) as [t Ht]. rewrite Ht at 1.
  rewrite has_char_app. by intros [? _]%orb_false_iff.
Qed.

Lemma normal_path_rooted (path : string) :
  head_is (Ascii.eqb "/") path = true →
  Py.startswith (normal_path path) "/" = true.
Proof.
  unfold normal_path. destruct (rstrip_prefix (Ascii.eqb "/") path) as [t Ht].
  destruct (Py.rstrip (Ascii.eqb "/") path) as [|b r]; [done|].
  rewrite Ht, str_app_cons. cbn [head_is].
  intros Hb. apply Ascii.eqb_eq in Hb as <-. reflexivity.
Qed.

Lemma normal_path_idem (path : string) :
  normal_path (normal_path path) = normal_path path.
Proof.
  unfold normal_path.
  destruct (Py.rstrip (Ascii.eqb "/") path) as [|b r] eqn:Hr; [done|].
  cbn [Py.truthy]. rewrite <- Hr, rstrip_idem. by rewrite Hr.
Qed.

Lemma has_char_normal_path (c : ascii) (path : string) :
  Ascii.eqb "/" c = false →
  Py.has_char c path = false → Py.has_char c (normal_path path) = false.
Proof.
  intros Hc Hp. unfold normal_path.
  pose proof (has_char_rstrip c (Ascii.eqb "/") path Hp) as Hs.
  destruct (Py.rstrip (Ascii.eqb "/") path); [|done].
  cbn [Py.truthy Py.has_char]. by rewrite Hc.
Qed.

Lemma safe_normal_path (path : string) : safe path → safe (normal_path path).
Proof.
  intros (? & ? & ?). by split; [|split]; apply has_char_normal_path.
Qed.

(** ** Splitting and joining URLs *)

Lemma urlsplit_http (x : string) :
  urlsplit ("http://" +:+ x)
  = split_components "http" (String "/" (String "/" (remove_unsafe_bytes x))).
Proof. reflexivity. Qed.

Lemma urlsplit_https (x : string) :
  urlsplit ("https://" +:+ x)
  = split_components "https" (String "/" (String "/" (remove_unsafe_bytes x))).
Proof. reflexivity. Qed.

Lemma split_authority_spec (t n r : string) :
  split_authority (String "/" (String "/" t)) = Some (n, r) →
  t = n +:+ r
  ∧ all_chars (λ c, negb (is_delim c)) n = true
  ∧ head_is is_delim r = true
  ∧ brackets_ok n.
Proof.
  unfold split_authority.
  change (Py.startswith (String "/" (String "/" t)) "//") with true.
  cbn iota. rewrite splitnetloc_span.
  destruct (span_until is_delim t) as [n' r'] eqn:Hspan.
  apply span_until_spec in Hspan as (-> & Hn & Hr).
  unfold brackets_ok.
  destruct (Py.has_char "[" n') eqn:Hlb, (Py.has_char "]" n') eqn:Hrb;
    simpl; try done.
  - destruct (check_bracketed_netloc n') eqn:Hchk; simpl; [|done].
    intros [= <- <-]. by rewrite Hlb, Hrb.
  - intros [= <- <-]. by rewrite Hlb, Hrb.
Qed.

Lemma split_authority_join (n r : string) :
  all_chars (λ c, negb (is_delim c)) n = true →
  head_is is_delim r = true →
  brackets_ok n →
  split_authority (String "/" (String "/" (n +:+ r))) = Some (n, r).
Proof.
  intros Hn Hr [Heq Hchk]. unfold split_authority.
  change (Py.startswith (String "/" (String "/" (n +:+ r))) "//") with true.
  cbn iota. rewrite splitnetloc_span, span_until_app by done.
  rewrite <- Heq.
  destruct (Py.has_char "[" n) eqn:Hlb; simpl; [|done].
  by rewrite Hchk.
Qed.

Lemma split_fragment_spec (url r f : string) :
  split_fragment url = (r, f) →
  Py.has_char "#" r = false
  ∧ (url = r ∧ f = EmptyString ∨ url = r +:+ String "#" f).
Proof.
  unfold split_fragment. destruct (Py.has_char "#" url) eqn:Hc.
  - intros [-> Hr]%split_once_spec; [|done]. split; [done | by right].
  - intros [= <- <-]. split; [done | by left].
Qed.

Lemma split_query_spec (url p q : string) :
  split_query url = (p, q) →
  Py.has_char "?" p = false
  ∧ (url = p ∧ q = EmptyString ∨ url = p +:+ String "?" q).
Proof.
  unfold split_query. destruct (Py.has_char "?" url) eqn:Hc.
  - intros [-> Hr]%split_once_spec; [|done]. split; [done | by right].
  - intros [= <- <-]. split; [done | by left].
Qed.

(** Both steps cut a tail off the URL; what the tail lacks, the part
    cut out of it lacks. *)
Lemma cut_tail (c : ascii) (url p q : string) :
  url = p ∧ q = EmptyString ∨ url = p +:+ String c q →
  ∃ tl, url = p +:+ tl
        ∧ ∀ d, Py.has_char d tl = false → Py.has_char d q = false.
Proof.
  intros [[-> ->] | ->].
  - exists EmptyString. by rewrite str_app_nil_r.
  - exists (String c q). split; [done|].
    intros d Hd. simpl in Hd. by apply orb_false_iff in Hd as [_ ?].
Qed.

Lemma safe_tail (tl q : string) :
  (∀ d, Py.has_char d tl = false → Py.has_char d q = false) →
  safe tl → safe q.
Proof. intros H (? & ? & ?). split; [|split]; by apply H. Qed.

(** The parts [urlsplit] returns for a URL with a network location. *)
Lemma split_components_parts (sch t : string) (sr : SplitResult) :
  safe t →
  split_components sch (String "/" (String "/" t)) = Some sr →
  sr_scheme sr = sch
  ∧ parts_ok (sr_netloc sr) (sr_path sr) (sr_query sr) (sr_fragment sr).
Proof.
  intros Hsafe. unfold split_components.
  destruct (split_authority _) as [[n r]|] eqn:Hauth; simpl; [|done].
  apply split_authority_spec in Hauth as (-> & Hn & Hr & Hbr).
  destruct (split_fragment r) as [r1 f] eqn:Hfrag.
  destruct (split_query r1) as [p q] eqn:Hquery.
  intros [= <-]. simpl. split; [done|].
  apply split_fragment_spec in Hfrag as [Hr1 Hfrag].
  apply split_query_spec in Hquery as [Hp Hquery].
  apply safe_app in Hsafe as [Hsn Hsr].
  apply (cut_tail "#") in Hfrag as (tf & -> & Htf).
  apply (cut_tail "?") in Hquery as (tq & -> & Htq).
  apply safe_app in Hsr as [[Hsp Hsq]%safe_app Hsf].
  rewrite has_char_app in Hr1. apply orb_false_iff in Hr1 as [Hpf Hqf].
  split; try done.
  - destruct p as [|c p]; [done|]. cbn [head_is].
    rewrite !str_app_cons in Hr. cbn [head_is] in Hr.
    simpl in Hp, Hpf. apply orb_false_iff in Hp as [Hc1 _].
    apply orb_false_iff in Hpf as [Hc2 _].
    unfold is_delim in Hr. rewrite Hc1, Hc2, !orb_false_r in Hr.
    by rewrite Ascii.eqb_sym.
  - by apply Htq.
  - by apply (safe_tail tq).
  - by apply (safe_tail tf).
Qed.

(** ** Parsing what [urlunsplit] wrote *)

Lemma urlunsplit_shape (sch n p q f : string) :
  Py.truthy sch = true → Py.truthy n = true → Py.startswith p "/" = true →
  urlunsplit sch n p q f
  = sch +:+ ":" +:+ String "/" (String "/"
      (n +:+ p +:+ tail_of "?" q +:+ tail_of "#" f)).
Proof.
  intros Hsch Hn Hp. unfold urlunsplit, tail_of.
  rewrite Hsch, Hn, Hp. cbn [orb negb andb].
  rewrite andb_false_r.
  destruct q as [|cq q], f as [|cf f]; cbn [Py.truthy];
    rewrite ?str_app_assoc, ?str_app_nil_r; reflexivity.
Qed.

Lemma has_char_tail_of (d c : ascii) (part : string) :
  Ascii.eqb c d = false → Py.has_char d part = false →
  Py.has_char d (tail_of c part) = false.
Proof.
  intros Hcd Hpart. unfold tail_of. destruct part; [done|].
  cbn [Py.truthy]. change (Py.has_char d (String c (String a part)))
    with (Ascii.eqb c d || Py.has_char d (String a part)).
  by rewrite Hcd, Hpart.
Qed.

Lemma safe_tail_of (c : ascii) (part : string) :
  safe (String c EmptyString) → safe part → safe (tail_of c part).
Proof.
  intros Hc Hpart. unfold tail_of. destruct part; [done|].
  cbn [Py.truthy]. by apply safe_cons.
Qed.

Lemma split_fragment_join (r f : string) :
  Py.has_char "#" r = false →
  split_fragment (r +:+ tail_of "#" f) = (r, f).
Proof.
  intros Hr. unfold split_fragment, tail_of. destruct f as [|c f]; cbn [Py.truthy].
  - by rewrite str_app_nil_r, Hr.
  - rewrite has_char_app. cbn [Py.has_char]. rewrite Ascii.eqb_refl, orb_true_r.
    by apply split_once_app.
Qed.

Lemma split_query_join (p q : string) :
  Py.has_char "?" p = false →
  split_query (p +:+ tail_of "?" q) = (p, q).
Proof.
  intros Hp. unfold split_query, tail_of. destruct q as [|c q]; cbn [Py.truthy].
  - by rewrite str_app_nil_r, Hp.
  - rewrite has_char_app. cbn [Py.has_char]. rewrite Ascii.eqb_refl, orb_true_r.
    by apply split_once_app.
Qed.

Lemma split_components_join (sch n p q f : string) :
  parts_ok n p q f →
  Py.startswith p "/" = true →
  split_components sch
    (String "/" (String "/" (n +:+ p +:+ tail_of "?" q +:+ tail_of "#" f)))
  = Some {| sr_scheme := sch; sr_netloc := n; sr_path := p;
            sr_query := q; sr_fragment := f |}.
Proof.
  intros [Hn Hbr _ Hpf Hpq Hqf _ _ _ _] Hp. unfold split_components.
  rewrite split_authority_join; [|done| |done].
  - cbn [mbind option_bind]. rewrite <- str_app_assoc.
    rewrite split_fragment_join.
    + by rewrite split_query_join.
    + rewrite has_char_app, Hpf. by apply has_char_tail_of.
  - apply startswith_spec in Hp as [x ->]. by rewrite !str_app_cons.
Qed.

(** [urlsplit] undoes [urlunsplit] on the parts of an [http] or [https]
    URL with a network location and a rooted path. *)
Lemma urlsplit_urlunsplit (sch n p q f : string) :
  sch = "http" ∨ sch = "https" →
  parts_ok n p q f →
  Py.truthy n = true →
  Py.startswith p "/" = true →
  urlsplit (urlunsplit sch n p q f)
  = Some {| sr_scheme := sch; sr_netloc := n; sr_path := p;
            sr_query := q; sr_fragment := f |}
  ∧ with_scheme (urlunsplit sch n p q f) = urlunsplit sch n p q f.
Proof.
  intros Hsch Hparts Hn Hp.
  assert (Hsafe : safe (n +:+ p +:+ tail_of "?" q +:+ tail_of "#" f)).
  { destruct Hparts. rewrite !safe_app.
    split; [done|]. split; [done|]. split; by apply safe_tail_of. }
  rewrite urlunsplit_shape; [|by destruct Hsch as [-> | ->]|done..].
  destruct Hsch as [-> | ->].
  - split; [|reflexivity].
    change ("http" +:+ ":" +:+ String "/" (String "/" ?x)) with ("http://" +:+ x).
    rewrite urlsplit_http, remove_unsafe_bytes_id by done.
    by apply split_components_join.
  - split; [|reflexivity].
    change ("https" +:+ ":" +:+ String "/" (String "/" ?x)) with ("https://" +:+ x).
    rewrite urlsplit_https, remove_unsafe_bytes_id by done.
    by apply split_components_join.
Qed.

Lemma with_scheme_shape (u : string) :
  ∃ sch x, (sch = "http" ∨ sch = "https")
           ∧ with_scheme u = sch +:+ "://" +:+ x.
Proof.
  unfold with_scheme.
  destruct (Py.startswith u "http://") eqn:H1.
  { apply startswith_spec in H1 as [x ->]. exists "http", x. by split; [left|]. }
  destruct (Py.startswith u "https://") eqn:H2.
  { apply startswith_spec in H2 as [x ->]. exists "https", x. by split; [right|]. }
  exists "https", u. by split; [right|].
Qed.

(** The parts of a well-formed URL, as [normalize_url] sees them. *)
Lemma urlsplit_with_scheme (u : string) (sr : SplitResult) :
  urlsplit (with_scheme u) = Some sr →
  (sr_scheme sr = "http" ∨ sr_scheme sr = "https")
  ∧ parts_ok (sr_netloc sr) (sr_path sr) (sr_query sr) (sr_fragment sr).
Proof.
  destruct (with_scheme_shape u) as (sch & x & Hsch & ->).
  destruct Hsch as [-> | ->].
  - change ("http" +:+ "://" +:+ x) with ("http://" +:+ x).
    rewrite urlsplit_http.
    intros [-> ?]%split_components_parts;
      [by split; [left|] | apply remove_unsafe_bytes_safe].
  - change ("https" +:+ "://" +:+ x) with ("https://" +:+ x).
    rewrite urlsplit_https.
    intros [-> ?]%split_components_parts;
      [by split; [right|] | apply remove_unsafe_bytes_safe].
Qed.

Lemma normalized_parts (n p q f : string) :
  (∀ netloc, check_bracketed_netloc netloc = true →
             check_bracketed_netloc (Py.lower netloc) = true) →
  parts_ok n p q f →
  parts_ok (Py.lower n) (normal_path p) q f.
Proof.
  intros Hchk [Hn [Hbeq Hbchk] Hroot Hpf Hpq Hqf Hsn Hsp Hsq Hsf].
  pose proof (normal_path_rooted p Hroot) as Hp.
  split; try done.
  - by rewrite no_delim_lower.
  - unfold brackets_ok. rewrite !has_char_lower by done. split; [done|].
    intros Hlb. by apply Hchk, Hbchk.
  - apply startswith_spec in Hp as [x ->]. by rewrite str_app_cons.
  - by apply has_char_normal_path.
  - by apply has_char_normal_path.
  - by apply safe_lower.
  - by apply safe_normal_path.
Qed.

(** ** Path parameters *)

Lemma rfind_none (c : ascii) (s : string) :
  Py.has_char c s = false → Py.rfind c s = None.
Proof.
  induction s as [|a s IH]; simpl; [done|].
  intros [Ha Hs]%orb_false_iff. by rewrite IH, Ha.
Qed.

Lemma rfind_none_inv (c : ascii) (s : string) :
  Py.rfind c s = None → Py.has_char c s = false.
Proof.
  induction s as [|a s IH]; simpl; [done|].
  destruct (Py.rfind c s); [done|].
  destruct (Ascii.eqb a c); [done|]. intros _. by apply IH.
Qed.

(** The last occurrence of [c] cuts [s] in two, the second part without
    [c]. *)
Lemma rfind_some (c : ascii) (s : string) (j : nat) :
  Py.rfind c s = Some j →
  ∃ a b, s = a +:+ String c b ∧ Py.len a = j ∧ Py.has_char c b = false.
Proof.
  revert j. induction s as [|x s IH]; intros j; simpl; [done|].
  destruct (Py.rfind c s) as [i|] eqn:Hr.
  - intros [= <-]. destruct (IH i eq_refl) as (a & b & -> & <- & Hb).
    by exists (String x a), b.
  - destruct (Ascii.eqb x c) eqn:Hx; [|done]. intros [= <-].
    apply Ascii.eqb_eq in Hx as ->. exists EmptyString, s.
    split; [done|]. split; [done|]. by apply rfind_none_inv.
Qed.

Lemma rfind_app_without (c : ascii) (s t : string) :
  Py.has_char c t = false → Py.rfind c (s +:+ t) = Py.rfind c s.
Proof.
  intros Ht. induction s as [|a s IH]; simpl; [by apply rfind_none|].
  by rewrite IH.
Qed.

Lemma drop_app_le (a b : string) (j : nat) :
  (j ≤ Py.len a)%nat → Py.drop j (a +:+ b) = Py.drop j a +:+ b.
Proof.
  revert j. induction a as [|x a IH]; intros [|j]; simpl; try done; [lia|].
  intros Hj. apply IH. lia.
Qed.

Lemma has_char_drop (c : ascii) (s : string) (j : nat) :
  Py.has_char c s = false → Py.has_char c (Py.drop j s) = false.
Proof.
  revert j. induction s as [|x s IH]; intros [|j]; simpl; try done.
  intros [_ Hs]%orb_false_iff. by apply IH.
Qed.

Lemma len_app (a b : string) : Py.len (a +:+ b) = (Py.len a + Py.len b)%nat.
Proof. induction a as [|x a IH]; simpl; [done|]. by rewrite IH. Qed.

Lemma take_app_ge (a b : string) (k : nat) :
  Py.take (Py.len a + k) (a +:+ b) = a +:+ Py.take k b.
Proof. induction a as [|x a IH]; simpl; [done|]. by rewrite IH. Qed.

Lemma drop_app_ge (a b : string) (k : nat) :
  Py.drop (Py.len a + k) (a +:+ b) = Py.drop k b.
Proof. induction a as [|x a IH]; simpl; done. Qed.

(** What [_splitparams] returns on a path with a semicolon: the path
    as it is, or the path cut at a semicolon of its last segment. *)
Lemma splitparams_spec (url p pa : string) :
  Py.has_char ";" url = true →
  splitparams url = (p, pa) →
  url = p ∧ pa = EmptyString
  ∨ url = p +:+ String ";" pa ∧ Py.has_char "/" pa = false.
Proof.
  intros Hsemi. unfold splitparams, Py.find.
  destruct (Py.has_char "/" url) eqn:Hslash.
  - destruct (Py.rfind "/" url) as [j|] eqn:Hr.
    + change (default O (Some j)) with j.
      destruct (rfind_some _ _ _ Hr) as (a & b & -> & <- & Hb).
      rewrite drop_app. cbn [Py.index_of].
      change (Ascii.eqb "/" ";") with false. cbn iota.
      destruct (Py.index_of ";" b) as [k|] eqn:Hk; cbn [fmap option_fmap option_map].
      * intros [<- <-]%pair_equal_spec. right.
        destruct (index_of_some _ _ _ Hk) as [Hb' _].
        replace (S (Py.len a + S k)) with (Py.len a + S (S k))%nat by lia.
        rewrite take_app_ge, drop_app_ge. cbn [Py.take Py.drop].
        split.
        -- rewrite str_app_assoc, str_app_cons. do 2 f_equal. exact Hb'.
        -- exact (has_char_drop "/" b (S k) Hb).
      * intros [<- <-]%pair_equal_spec. by left.
    + apply rfind_none_inv in Hr. congruence.
  - cbn [Py.drop].
    destruct (Py.index_of ";" url) as [i|] eqn:Hi; cbn [fmap option_fmap option_map].
    + intros [<- <-]%pair_equal_spec. right.
      destruct (index_of_some _ _ _ Hi) as [Hu _].
      change (0 + i)%nat with i. split; [done|].
      exact (has_char_drop "/" url (S i) Hslash).
    + apply index_of_none in Hi. congruence.
Qed.

(** What [urlparse] hands to [_splitparams] it gets back from
    [urlunparse], when the last segment of the path holds no semicolon. *)
Lemma splitparams_join (sch p pa : string) :
  sch = "http" ∨ sch = "https" →
  Py.startswith p "/" = true →
  Py.has_char ";" (last_segment p) = false →
  Py.has_char "/" pa = false →
  (if bool_decide (sch ∈ uses_params) && Py.has_char ";" (p +:+ tail_of ";" pa)
   then splitparams (p +:+ tail_of ";" pa)
   else (p +:+ tail_of ";" pa, EmptyString))
  = (p, pa).
Proof.
  intros Hsch Hp Hlast Hpa.
  assert (bool_decide (sch ∈ uses_params) = true) as ->.
  { by destruct Hsch as [-> | ->]. }
  cbn [andb].
  assert (Hslash : Py.has_char "/" p = true).
  { apply startswith_spec in Hp as [x ->]. by rewrite str_app_cons. }
  destruct (Py.rfind "/" p) as [j|] eqn:Hr.
  2:{ apply rfind_none_inv in Hr. congruence. }
  unfold last_segment in Hlast. rewrite Hr in Hlast.
  change (default O (Some j)) with j in Hlast.
  destruct (rfind_some _ _ _ Hr) as (a & b & Hpab & Hj & Hb).
  unfold tail_of. destruct pa as [|c pa]; cbn [Py.truthy].
  - rewrite str_app_nil_r.
    destruct (Py.has_char ";" p) eqn:Hsemi; [|done].
    unfold splitparams, Py.find. rewrite Hslash, Hr.
    change (default O (Some j)) with j.
    apply index_of_none in Hlast. by rewrite Hlast.
  - rewrite has_char_app. cbn [Py.has_char]. rewrite Ascii.eqb_refl, orb_true_r.
    unfold splitparams, Py.find.
    rewrite has_char_app, Hslash. cbn [orb].
    rewrite rfind_app_without; [|exact Hpa]. rewrite Hr.
    change (default O (Some j)) with j.
    assert (Hjle : (j ≤ Py.len p)%nat).
    { rewrite Hpab, len_app, <- Hj. lia. }
    rewrite drop_app_le by done.
    rewrite index_of_app by done.
    cbn [fmap option_fmap option_map].
    assert (Hlen : (j + Py.len (Py.drop j p))%nat = Py.len p).
    { rewrite Hpab, <- Hj, drop_app, len_app. done. }
    rewrite Hlen, take_app.
    replace (S (Py.len p)) with (Py.len p + 1)%nat by lia.
    by rewrite drop_app_ge.
Qed.

Lemma urlunparse_tail (sch n p pa q f : string) :
  urlunparse sch n p pa q f = urlunsplit sch n (p +:+ tail_of ";" pa) q f.
Proof.
  unfold urlunparse, tail_of. destruct pa; cbn [Py.truthy]; [|done].
  by rewrite str_app_nil_r.
Qed.

(** [urlparse] undoes [urlunparse] on the parts of an [http] or
    [https] URL with a network location and a rooted path whose last
    segment holds no semicolon. *)
Lemma urlparse_urlunparse (sch n p pa q f : string) :
  sch = "http" ∨ sch = "https" →
  parts_ok n p q f →
  params_ok pa →
  Py.truthy n = true →
  Py.startswith p "/" = true →
  Py.has_char ";" (last_segment p) = false →
  urlparse (urlunparse sch n p pa q f)
  = Some {| scheme := sch; netloc := n; path := p; params := pa;
            query := q; fragment := f |}
  ∧ with_scheme (urlunparse sch n p pa q f) = urlunparse sch n p pa q f.
Proof.
  intros Hsch [Hn Hbr Hroot Hpf Hpq Hqf Hsn Hsp Hsq Hsf] [Hps Hpaf Hpaq Hpas]
    Htn Hp Hlast.
  rewrite urlunparse_tail.
  assert (Hparts : parts_ok n (p +:+ tail_of ";" pa) q f).
  { split; try done.
    - apply startswith_spec in Hp as [x ->]. by rewrite !str_app_cons.
    - rewrite has_char_app, Hpf. by apply has_char_tail_of.
    - rewrite has_char_app, Hpq. by apply has_char_tail_of.
    - apply safe_app. split; [done|]. by apply safe_tail_of. }
  assert (Hp' : Py.startswith (p +:+ tail_of ";" pa) "/" = true).
  { apply startswith_spec in Hp as [x ->]. by rewrite !str_app_cons. }
  destruct (urlsplit_urlunsplit sch n _ q f Hsch Hparts Htn Hp') as [Hsplit Hws].
  split; [|done]. unfold urlparse. rewrite Hsplit. cbn [mbind option_bind].
  cbn [sr_scheme sr_path sr_netloc sr_query sr_fragment].
  by rewrite splitparams_join.
Qed.

(** The parts [urlparse] returns for a URL that [normalize_url] gave
    its scheme. *)
Lemma urlparse_with_scheme (u : string) (parsed : ParseResult) :
  urlparse (with_scheme u) = Some parsed →
  (scheme parsed = "http" ∨ scheme parsed = "https")
  ∧ parts_ok (netloc parsed) (path parsed) (query parsed) (fragment parsed)
  ∧ params_ok (params parsed)
  ∧ (raw_path u = Some (path parsed)
     ∨ raw_path u = Some (path parsed +:+ String ";" (params parsed))).
Proof.
  unfold urlparse, raw_path.
  destruct (urlsplit (with_scheme u)) as [sr|] eqn:Hsplit; [|done].
  cbn [mbind option_bind fmap option_fmap option_map].
  destruct (urlsplit_with_scheme u sr Hsplit) as [Hsch Hparts].
  destruct Hparts as [Hn Hbr Hroot Hpf Hpq Hqf Hsn Hsp Hsq Hsf].
  assert (bool_decide (sr_scheme sr ∈ uses_params) = true) as ->.
  { by destruct Hsch as [-> | ->]. }
  cbn [andb].
  destruct (Py.has_char ";" (sr_path sr)) eqn:Hsemi.
  - destruct (splitparams (sr_path sr)) as [p pa] eqn:Hsp'.
    intros [= <-]. cbn [scheme netloc path params query fragment].
    destruct (splitparams_spec _ _ _ Hsemi Hsp') as [[Hraw ->] | [Hraw Hslash]].
    + rewrite <- Hraw.
      split; [done|]. split; [by split|]. split; [by split|]. by left.
    + rewrite Hraw in *. clear Hraw.
      rewrite has_char_app in Hpf, Hpq.
      apply orb_false_iff in Hpf as [Hpf Hpaf].
      apply orb_false_iff in Hpq as [Hpq Hpaq].
      apply safe_app in Hsp as [Hsp Hspa]. apply safe_cons in Hspa as [_ Hspa].
      simpl in Hpaf, Hpaq.
      split; [done|]. split; [|split; [|by right]].
      * split; try done. destruct p; [done|]. by rewrite str_app_cons in Hroot.
      * by split.
  - intros [= <-]. cbn [scheme netloc path params query fragment].
    split; [done|]. split; [by split|]. split; [by split|]. by left.
Qed.

(** ** Normalizing twice *)

Lemma normalize_url_parsed (u : string) (parsed : ParseResult) :
  urlparse (with_scheme u) = Some parsed →
  normalize_url u
  = Some (urlunparse (scheme parsed) (Py.lower (netloc parsed))
            (normal_path (path parsed)) (params parsed) (query parsed)
            (fragment parsed)).
Proof.
  intros Hparse. unfold normalize_url.
  change (if Py.startswith u "http://" || Py.startswith u "https://"
          then u else "https://" +:+ u) with (with_scheme u).
  by rewrite Hparse.
Qed.

Lemma well_formed_parsed (u : string) :
  well_formed u ↔
  ∃ parsed, urlparse (with_scheme u) = Some parsed
            ∧ netloc parsed ≠ EmptyString.
Proof.
  unfold well_formed, urlparse. split.
  - intros (sr & -> & Hn). cbn [mbind option_bind].
    destruct (if _ && _ then _ else _) as [p pa]. by eexists.
  - intros (parsed & Hparse & Hn).
    destruct (urlsplit (with_scheme u)) as [sr|]; [|done].
    cbn [mbind option_bind] in Hparse.
    destruct (if _ && _ then _ else _) as [p pa].
    injection Hparse as <-. by exists sr.
Qed.

(** C6: for a well-formed URL (one that parses and names a host),
    [normalize_url] returns a URL that it maps to itself whenever the
    last segment of the normalized path holds no semicolon, and so
    whenever the path of the URL holds none at all; the bracketed-host
    check of the library is taken to accept the lowercased form of a host
    it accepts.  Both URLs of the specification normalize to
    ["https://quill.co/blog"]. *)
Theorem normalize_url_idempotent :
  (∀ (u : string) (parsed : ParseResult),
      (∀ netloc, check_bracketed_netloc netloc = true →
                 check_bracketed_netloc (Py.lower netloc) = true) →
      urlparse (with_scheme u) = Some parsed →
      netloc parsed ≠ EmptyString →
      Py.has_char ";" (last_segment (normal_path (path parsed))) = false →
      ∃ v, normalize_url u = Some v ∧ normalize_url v = Some v)
  ∧ (∀ (u path : string),
        (∀ netloc, check_bracketed_netloc netloc = true →
                   check_bracketed_netloc (Py.lower netloc) = true) →
        well_formed u →
        raw_path u = Some path →
        Py.has_char ";" path = false →
        ∃ v, normalize_url u = Some v ∧ normalize_url v = Some v)
  ∧ normalize_url "quill.co/blog/" = Some "https://quill.co/blog"
  ∧ normalize_url "https://quill.co/blog" = Some "https://quill.co/blog".
Proof.
  assert (Hstrong : ∀ (u : string) (parsed : ParseResult),
    (∀ netloc, check_bracketed_netloc netloc = true →
               check_bracketed_netloc (Py.lower netloc) = true) →
    urlparse (with_scheme u) = Some parsed →
    netloc parsed ≠ EmptyString →
    Py.has_char ";" (last_segment (normal_path (path parsed))) = false →
    ∃ v, normalize_url u = Some v ∧ normalize_url v = Some v).
  { intros u parsed Hchk Hparse Hhost Hlast.
    destruct (urlparse_with_scheme u parsed Hparse) as (Hsch & Hparts & Hpa & _).
    eexists. split; [by apply normalize_url_parsed|].
    pose proof (normalized_parts _ _ _ _ Hchk Hparts) as Hparts'.
    assert (Hroot : Py.startswith (normal_path (path parsed)) "/" = true).
    { apply normal_path_rooted. by destruct Hparts. }
    assert (Hn : Py.truthy (Py.lower (netloc parsed)) = true).
    { by destruct (netloc parsed). }
    destruct (urlparse_urlunparse _ _ _ _ _ _ Hsch Hparts' Hpa Hn Hroot Hlast)
      as [Hparse' Hws].
    rewrite <- Hws in Hparse'.
    rewrite (normalize_url_parsed _ _ Hparse').
    cbn [scheme netloc path params query fragment].
    by rewrite lower_idem, normal_path_idem. }
  split; [exact Hstrong|]. split; [|by split; vm_compute].
  intros u path Hchk Hwf Hpath Hsemi.
  apply well_formed_parsed in Hwf as (parsed & Hparse & Hhost).
  apply (Hstrong u parsed); try done.
  destruct (urlparse_with_scheme u parsed Hparse) as (_ & _ & _ & Hraw).
  unfold last_segment. apply has_char_drop, has_char_normal_path; [done|].
  destruct Hraw as [Hraw | Hraw]; rewrite Hpath in Hraw; injection Hraw as ->;
    [done|].
  rewrite has_char_app in Hsemi. by apply orb_false_iff in Hsemi as [? _].
Qed.

(** ** The domain filter *)

(** C7: [is_valid_url] is a total boolean function (an exception of
    [urlparse] is turned into [false]); it answers [true] exactly when the
    URL parses, its network location is not empty, and the network
    location is [base_domain] or ends with a dot followed by
    [base_domain].  On the two URLs of the specification:
    [blog.quill.co] is internal to [quill.co], [quill.co.evil.com] is
    not. *)
Theorem is_valid_url_spec :
  (∀ url base_domain,
      is_valid_url url base_domain = true ↔
      ∃ parsed, urlparse url = Some parsed
                ∧ netloc parsed ≠ EmptyString
                ∧ (netloc parsed = base_domain
                   ∨ ∃ sub, netloc parsed = sub +:+ "." +:+ base_domain))
  ∧ (∀ url base_domain, urlparse url = None → is_valid_url url base_domain = false)
  ∧ (∀ url base_domain parsed,
        urlparse url = Some parsed → netloc parsed = EmptyString →
        is_valid_url url base_domain = false)
  ∧ is_valid_url "https://blog.quill.co/x" "quill.co" = true
  ∧ is_valid_url "https://quill.co.evil.com/x" "quill.co" = false.
Proof.
  split; [|split; [|split; [|split]]].
  - intros url base_domain. unfold is_valid_url.
    destruct (urlparse url) as [parsed|]; [|by split; [|intros (? & ? & _)]].
    destruct (Py.truthy (netloc parsed)) eqn:Hn; simpl.
    + rewrite orb_true_iff, String.eqb_eq, endswith_spec. split.
      * intros H. exists parsed. split; [done|]. split; [by apply truthy_spec|done].
      * intros (parsed' & [= <-] & _ & H). done.
    + split; [done|]. intros (parsed' & [= <-] & Hne & _).
      by apply truthy_false in Hn.
  - intros url base_domain H. unfold is_valid_url. by rewrite H.
  - intros url base_domain parsed H Hn. unfold is_valid_url.
    by rewrite H, Hn.
  - by vm_compute.
  - by vm_compute.
Qed.

(** ** The content-type classifier *)

(** C5: [detect_content_type] returns the label of the first group of
    the priority table one of whose substrings occurs in the lowercased
    URL, and ["blog"] when no group matches; the title and the content
    play no part.  The URLs of the specification classify as stated. *)
Theorem detect_content_type_spec :
  (∀ url title content, detect_content_type url title content = classify url)
  ∧ (∀ url title content title' content',
        detect_content_type url title content
        = detect_content_type url title' content')
  ∧ detect_content_type "https://site.com/blog/my-post" "t" "c" = "blog"
  ∧ detect_content_type "https://site.com/podcast/ep-1" "t" "c" = "podcast_transcript"
  ∧ detect_content_type "https://linkedin.com/posts/123" "t" "c" = "linkedin_post"
  ∧ detect_content_type "https://site.com/about" "t" "c" = "blog".
Proof.
  assert (Hspec : ∀ url title content,
             detect_content_type url title content = classify url).
  { intros url title content.
    unfold detect_content_type, classify, content_type_rules.
    cbn [List.find fst snd].
    repeat (match goal with
            | |- context [any_in ?ps ?u] => destruct (any_in ps u); [reflexivity|]
            end).
    reflexivity. }
  split; [exact Hspec|]. split.
  - intros. by rewrite !Hspec.
  - repeat split; by vm_compute.
Qed.

(** ** What the crawl leaves untouched *)

Lemma add_link_self (st : CrawlState) (link : string) :
  self (add_link st link) = self st.
Proof. unfold add_link. by case_match. Qed.

Lemma add_links_self (links : list string) (st : CrawlState) :
  self (foldl add_link st links) = self st.
Proof.
  revert st. induction links as [|l links IH]; intros st; simpl; [done|].
  by rewrite IH, add_link_self.
Qed.

Lemma crawl_iter_config (base_domain : string) (st : CrawlState) :
  config (self (crawl_iter base_domain st)) = config (self st).
Proof.
  unfold crawl_iter.
  repeat (case_match; simpl; try done); by rewrite add_links_self.
Qed.

Lemma crawl_loop_config (fuel : nat) (base_domain : string) (st st' : CrawlState) :
  crawl_loop fuel base_domain st = Some st' →
  config (self st') = config (self st).
Proof.
  revert st. induction fuel as [|fuel IH]; intros st; simpl.
  - destruct (crawl_guard st); [done|]. by intros [= <-].
  - destruct (crawl_guard st); [|by intros [= <-]].
    intros H. apply IH in H. by rewrite H, crawl_iter_config.
Qed.

Lemma crawl_run_config (s : WebScraper) (root_url : string) (st : CrawlState) :
  crawl_run s root_url = Returns st → config (self st) = config s.
Proof.
  unfold crawl_run. repeat (case_match; try done).
  intros [= <-]. by erewrite crawl_loop_config by eassumption.
Qed.

Lemma crawl_site_config (s : WebScraper) (root_url : string) :
  config (snd (crawl_site s root_url)) = config s.
Proof.
  unfold crawl_site. destruct (crawl_run s root_url) eqn:H; simpl; [|done..].
  by apply crawl_run_config in H.
Qed.

Lemma scrape_site_state (s : WebScraper) (url : string) :
  snd (scrape_site s url) = s
  ∨ ∃ normalized_url, normalize_url url = Some normalized_url
                      ∧ snd (scrape_site s url) = snd (crawl_site s normalized_url).
Proof.
  unfold scrape_site. destruct (normalize_url url) as [n|]; [|by left].
  right. exists n. split; [done|].
  destruct (crawl_site s n) as [[urls| |] s1]; simpl; by repeat case_match.
Qed.

(** C10: the methods that thread the scraper object change nothing but
    [visited_urls]: after [crawl_site] and after [scrape_site] the page
    quota, the delay and the session headers are the ones set at
    construction, whatever the call returns or raises; the extraction
    phase ([extract_content] on every discovered URL) changes no field at
    all, so the scraper after [scrape_site] is the scraper after its
    crawl. *)
Theorem operations_preserve_config :
  ∀ (s : WebScraper) (url : string),
    config (snd (crawl_site s url)) = config s
    ∧ config (snd (scrape_site s url)) = config s
    ∧ (∀ normalized_url,
          normalize_url url = Some normalized_url →
          snd (scrape_site s url) = snd (crawl_site s normalized_url)).
Proof.
  intros s url. split; [apply crawl_site_config|].
  destruct (scrape_site_state s url) as [H | (n & Hn & H)].
  - split; [by rewrite H|]. intros n Hn. revert H.
    unfold scrape_site. rewrite Hn.
    destruct (crawl_site s n) as [[urls| |] s1]; simpl; by repeat case_match.
  - split; [rewrite H; apply crawl_site_config|].
    intros n' Hn'. by simplify_eq.
Qed.

(** ** The page quota and the end of the loop *)

Lemma size_add_fresh (link : string) (X : gset string) :
  link ∉ X → size ({[link]} ∪ X) = S (size X).
Proof. intros H. rewrite size_union by set_solver. by rewrite (size_singleton (C:=gset string)). Qed.

Definition within_quota (st : CrawlState) : Prop :=
  Z.of_nat (size (found_urls st)) ≤ quota (self st).

Lemma add_link_within_quota (st : CrawlState) (link : string) :
  within_quota st → within_quota (add_link st link).
Proof.
  unfold within_quota, add_link, quota.
  destruct (bool_decide (link ∉ found_urls st)) eqn:Hin; simpl; [|done].
  destruct (Z.of_nat (size (found_urls st)) <? max_pages (self st)) eqn:Hlt;
    simpl; [|done].
  apply bool_decide_eq_true in Hin. apply Z.ltb_lt in Hlt.
  rewrite size_add_fresh by done. lia.
Qed.

Lemma add_links_within_quota (links : list string) (st : CrawlState) :
  within_quota st → within_quota (foldl add_link st links).
Proof.
  revert st. induction links as [|l links IH]; intros st H; simpl; [done|].
  by apply IH, add_link_within_quota.
Qed.

Lemma crawl_iter_within_quota (base_domain : string) (st : CrawlState) :
  within_quota st → within_quota (crawl_iter base_domain st).
Proof.
  intros H. unfold crawl_iter.
  repeat (case_match; try done).
  by apply add_links_within_quota.
Qed.

Lemma crawl_start_within_quota (s : WebScraper) (root_url : string) :
  within_quota (crawl_start s root_url).
Proof.
  unfold within_quota, quota, crawl_start. cbn [found_urls self].
  rewrite (size_singleton (C:=gset string)). lia.
Qed.

Lemma crawl_reaches_config (base_domain : string) (st0 st : CrawlState) :
  crawl_reaches base_domain st0 st → config (self st) = config (self st0).
Proof.
  induction 1 as [|st _ IH _]; [done|]. by rewrite crawl_iter_config.
Qed.

Lemma crawl_reaches_within_quota (base_domain : string) (st0 st : CrawlState) :
  within_quota st0 → crawl_reaches base_domain st0 st → within_quota st.
Proof.
  intros H0. induction 1; [done|]. by apply crawl_iter_within_quota.
Qed.

Lemma crawl_loop_reaches (fuel : nat) (base_domain : string) (st0 st st' : CrawlState) :
  crawl_reaches base_domain st0 st →
  crawl_loop fuel base_domain st = Some st' →
  crawl_reaches base_domain st0 st' ∧ crawl_guard st' = false.
Proof.
  revert st. induction fuel as [|fuel IH]; intros st Hst; simpl.
  - destruct (crawl_guard st) eqn:Hg; [done|]. by intros [= <-].
  - destruct (crawl_guard st) eqn:Hg; [|by intros [= <-]].
    apply IH. by constructor.
Qed.

(** The rounds still to run are bounded by the queue length plus the
    room left under the quota. *)
Definition rounds_left (st : CrawlState) : nat :=
  (length (urls_to_visit st)
   + Z.to_nat (max_pages (self st) - Z.of_nat (size (found_urls st))))%nat.

Lemma add_link_rounds_left (st : CrawlState) (link : string) :
  rounds_left (add_link st link) = rounds_left st.
Proof.
  unfold rounds_left, add_link.
  destruct (bool_decide (link ∉ found_urls st)) eqn:Hin; simpl; [|done].
  destruct (Z.of_nat (size (found_urls st)) <? max_pages (self st)) eqn:Hlt;
    simpl; [|done].
  apply bool_decide_eq_true in Hin. apply Z.ltb_lt in Hlt.
  rewrite size_add_fresh, length_app by done. simpl. lia.
Qed.

Lemma add_links_rounds_left (links : list string) (st : CrawlState) :
  rounds_left (foldl add_link st links) = rounds_left st.
Proof.
  revert st. induction links as [|l links IH]; intros st; simpl; [done|].
  by rewrite IH, add_link_rounds_left.
Qed.

Lemma crawl_iter_rounds_left (base_domain : string) (st : CrawlState) :
  crawl_guard st = true →
  S (rounds_left (crawl_iter base_domain st)) = rounds_left st.
Proof.
  unfold crawl_guard, crawl_iter. intros Hg.
  destruct (urls_to_visit st) as [|u rest] eqn:Hq; [done|].
  repeat (case_match; try (unfold rounds_left; simpl; rewrite ?Hq; simpl; lia)).
  rewrite add_links_rounds_left. unfold rounds_left. simpl. rewrite Hq. simpl. lia.
Qed.

Lemma crawl_guard_rounds_left (st : CrawlState) :
  crawl_guard st = true → (2 ≤ rounds_left st)%nat.
Proof.
  unfold crawl_guard, rounds_left. intros [Hq Hs]%andb_true_iff.
  apply Z.ltb_lt in Hs. apply negb_true_iff, bool_decide_eq_false in Hq.
  destruct (urls_to_visit st); [done|]. simpl. lia.
Qed.

Lemma crawl_loop_terminates (fuel : nat) (base_domain : string) (st : CrawlState) :
  (rounds_left st ≤ S fuel)%nat →
  ∃ st', crawl_loop fuel base_domain st = Some st'.
Proof.
  revert st. induction fuel as [|fuel IH]; intros st Hm; simpl.
  - destruct (crawl_guard st) eqn:Hg; [|by eexists].
    apply crawl_guard_rounds_left in Hg. lia.
  - destruct (crawl_guard st) eqn:Hg; [|by eexists].
    apply IH. apply (crawl_iter_rounds_left base_domain) in Hg. lia.
Qed.

Lemma crawl_start_rounds_left (s : WebScraper) (root_url : string) :
  (rounds_left (crawl_start s root_url) ≤ S (crawl_fuel s))%nat.
Proof.
  unfold rounds_left, crawl_fuel, crawl_start.
  cbn [found_urls self urls_to_visit length].
  rewrite (size_singleton (C:=gset string)). lia.
Qed.

Lemma crawl_run_finishes (s : WebScraper) (root_url : string) :
  crawl_run s root_url ≠ OutOfFuel.
Proof.
  unfold crawl_run. repeat (case_match; try done).
  match goal with
  | H : crawl_loop ?f ?b ?st = None |- _ =>
      destruct (crawl_loop_terminates f b st) as [st' Hst'];
      [apply crawl_start_rounds_left | congruence]
  end.
Qed.

(** ** The title chain *)

Lemma map_chars_empty (f : ascii → ascii) (s : string) :
  Py.map_chars f s = EmptyString ↔ s = EmptyString.
Proof. by destruct s. Qed.

Lemma title_empty (s : string) : Py.title s = EmptyString ↔ s = EmptyString.
Proof. by destruct s. Qed.

Lemma url_title_empty (url t : string) :
  url_title url = Some t →
  (t = EmptyString ↔ final_segment url = Some EmptyString).
Proof.
  unfold url_title, final_segment.
  destruct (urlparse url) as [parsed|]; simpl; [|done].
  intros [= <-]. unfold Py.replace_char.
  rewrite title_empty, !map_chars_empty. split; [by intros ->|by intros [= ->]].
Qed.

Lemma markdown_title_default (lines : list string) (d : option string) :
  markdown_title lines d
  = match markdown_title lines None with
    | Some h => Some h
    | None => d
    end.
Proof.
  induction lines as [|line lines IH]; cbn [markdown_title]; [done|].
  by destruct (Py.startswith line "# ").
Qed.

Lemma yields_truthy (t : option string) (s : string) :
  yields t = Some s → t = Some s ∧ s ≠ EmptyString.
Proof. destruct t as [[|]|]; simpl; intros; by simplify_eq. Qed.

(** The nested conditionals of [extract_content] compute the title
    chain. *)
Lemma resolve_title_chain (html url extracted : string) :
  resolve_title html url extracted = title_chain html url extracted.
Proof.
  unfold resolve_title, title_chain, headline_title, heading_title.
  destruct (select_title title_selectors html) as [[|c t]|] eqn:Hsel; simpl.
  - destruct extracted as [|e ex]; simpl; [done|].
    rewrite markdown_title_default.
    by destruct (markdown_title _ None) as [[|]|].
  - done.
  - destruct extracted as [|e ex]; simpl; [done|].
    by destruct (markdown_title _ None) as [[|]|].
Qed.

(** What [extract_content] computes with the loops of the code: the
    title chain over [select_title], [markdown_title] and [url_title]. *)
Lemma extract_content_chain :
  ∀ (url : string) (record : ExtractionRecord),
    extract_content url = Some record →
    ∃ response,
      session_get url 15 = Some response
      ∧ trafilatura_extract (text response) = Some (content record)
      ∧ content record ≠ EmptyString
      ∧ source_url record = url
      ∧ title_chain (text response) url (content record) = Some (title record)
      ∧ (title record = EmptyString ↔
         yields (headline_title (text response)) = None
         ∧ yields (heading_title (content record)) = None
         ∧ final_segment url = Some EmptyString)
      ∧ (∀ segment, final_segment url = Some segment →
                    segment ≠ EmptyString → title record ≠ EmptyString).
Proof.
  intros url record. unfold extract_content.
  destruct (session_get url 15) as [response|]; [|done].
  destruct (raise_for_status response); simpl; [|done].
  destruct (trafilatura_extract (text response)) as [extracted|] eqn:Hex; [|done].
  destruct (Py.truthy extracted) eqn:Htr; simpl; [|done].
  rewrite resolve_title_chain.
  destruct (title_chain (text response) url extracted) as [t|] eqn:Hchain;
    simpl; [|done].
  intros [= <-]. simpl. exists response.
  assert (Hempty : t = EmptyString ↔
            yields (headline_title (text response)) = None
            ∧ yields (heading_title extracted) = None
            ∧ final_segment url = Some EmptyString).
  { revert Hchain. unfold title_chain.
    destruct (yields (headline_title (text response))) as [t1|] eqn:H1.
    { intros [= <-]. apply yields_truthy in H1 as [_ H1].
      split; [done | by intros [? _]]. }
    destruct (yields (heading_title extracted)) as [t2|] eqn:H2.
    { intros [= <-]. apply yields_truthy in H2 as [_ H2].
      split; [done | by intros (_ & ? & _)]. }
    intros Hu. rewrite (url_title_empty _ _ Hu).
    split; [by intros Hs | by intros (_ & _ & Hs)]. }
  repeat split; try done.
  - by apply truthy_spec.
  - by apply Hempty.
  - by apply Hempty.
  - by apply Hempty.
  - by apply Hempty.
  - intros segment Hseg Hne Ht. apply Hempty in Ht as (_ & _ & Ht).
    congruence.
Qed.

(** *** The loops of the code and the tiers of the specification *)

Lemma headline_title_first (html : string) :
  headline_title html = first_headline html.
Proof.
  unfold headline_title, first_headline, title_selectors.
  cbn [select_title].
  destruct (soup_select_one html "h1"); [done|].
  destruct (soup_select_one html "title"); [done|].
  destruct (soup_select_one html ".post-title"); [done|].
  destruct (soup_select_one html ".entry-title"); [done|].
  by destruct (soup_select_one html ".article-title").
Qed.

Lemma heading_title_first (extracted : string) :
  heading_title extracted = first_heading extracted.
Proof.
  unfold heading_title, first_heading.
  induction (Py.split "010" extracted) as [|line lines IH]; [done|].
  cbn [markdown_title List.find].
  by destruct (Py.startswith line "# ").
Qed.

(** [s.split(c)]: one piece when [c] is not in [s], else at least two,
    the last of them what follows the last [c]. *)
Lemma split_without (c : ascii) (s : string) :
  Py.has_char c s = false → Py.split c s = [s].
Proof.
  induction s as [|a s IH]; [done|]. cbn [Py.has_char Py.split].
  intros [Ha Hs]%orb_false_iff. by rewrite Ha, (IH Hs).
Qed.

Lemma split_last (c : ascii) (s : string) (i : nat) :
  Py.rfind c s = Some i →
  ∃ h t, Py.split c s = h :: t ∧ t ≠ []
         ∧ List.last t EmptyString = Py.drop (S i) s.
Proof.
  revert i. induction s as [|a s IH]; intros i; [done|].
  cbn [Py.rfind Py.split].
  destruct (Py.rfind c s) as [j|] eqn:Hj.
  - intros [= <-]. destruct (IH j eq_refl) as (h & t & Hsplit & Ht & Hlast).
    rewrite Hsplit. destruct (Ascii.eqb a c).
    + exists EmptyString, (h :: t). split; [done|]. split; [done|].
      change (Py.drop (S (S j)) (String a s)) with (Py.drop (S j) s).
      rewrite <- Hlast. by destruct t.
    + exists (String a h), t. split; [done|]. split; [done|].
      by change (Py.drop (S (S j)) (String a s)) with (Py.drop (S j) s).
  - apply rfind_none_inv in Hj. destruct (Ascii.eqb a c) eqn:Ha; [|done].
    intros [= <-]. rewrite (split_without c s Hj).
    exists EmptyString, [s]. by split.
Qed.

Lemma last_item_split (path : string) :
  Py.last_item (Py.split "/" path) = last_path_segment path.
Proof.
  unfold Py.last_item, last_path_segment.
  destruct (Py.rfind "/" path) as [i|] eqn:Hi.
  - destruct (split_last _ _ _ Hi) as (h & t & -> & Ht & <-).
    by destruct t.
  - by rewrite split_without by by apply rfind_none_inv.
Qed.

Lemma replace_chars_spaced (segment : string) :
  Py.replace_char "_" " " (Py.replace_char "-" " " segment) = spaced segment.
Proof.
  unfold Py.replace_char, spaced.
  induction segment as [|c segment IH]; [done|].
  cbn [Py.map_chars]. rewrite IH. f_equal.
  destruct (Ascii.eqb c "-") eqn:Hh; [done|]. cbn [orb]. reflexivity.
Qed.

Lemma url_title_humanized (url : string) :
  url_title url = humanized_segment url.
Proof.
  unfold url_title, humanized_segment.
  destruct (urlparse url) as [parsed|]; [|done]. cbn [mbind option_bind].
  by rewrite last_item_split, replace_chars_spaced.
Qed.

Lemma title_chain_tiers (html url extracted : string) :
  title_chain html url extracted = title_tiers html url extracted.
Proof.
  unfold title_chain, title_tiers.
  by rewrite headline_title_first, heading_title_first, url_title_humanized.
Qed.

Lemma final_segment_last (url : string) (segment : string) :
  final_segment url = Some segment ↔
  ∃ parsed, urlparse url = Some parsed
            ∧ last_path_segment (path parsed) = segment.
Proof.
  unfold final_segment. destruct (urlparse url) as [parsed|];
    cbn [mbind option_bind].
  - rewrite last_item_split. split.
    + intros [= <-]. by exists parsed.
    + by intros (p & [= <-] & <-).
  - split; [done|]. by intros (p & ? & _).
Qed.

(** C4: when [extract_content] returns a record, its content is the
    non-empty Markdown of the page and its title is the outcome of the
    three tiers, in order: the stripped text of the first element found
    among [h1], [title], [.post-title], [.entry-title],
    [.article-title], tried in this order, when that text is not empty;
    else the stripped remainder of the first Markdown line that begins
    with ["# "] when it is not empty; else what follows the last slash of
    the path of the URL, with hyphens and underscores turned into spaces,
    title-cased.  The title is empty exactly when the first two tiers
    yield nothing and the path of the URL ends in a slash or is empty; it
    is non-empty whenever something follows the last slash.  The tiers
    are written out in [first_headline], [first_heading] and
    [humanized_segment], apart from the loops of the code; the last
    three parts of the statement evaluate them. *)
Theorem extract_content_title :
  (∀ (url : string) (record : ExtractionRecord),
      extract_content url = Some record →
      ∃ response,
        session_get url 15 = Some response
        ∧ trafilatura_extract (text response) = Some (content record)
        ∧ content record ≠ EmptyString
        ∧ source_url record = url
        ∧ title_tiers (text response) url (content record) = Some (title record)
        ∧ (title record = EmptyString ↔
           yields (first_headline (text response)) = None
           ∧ yields (first_heading (content record)) = None
           ∧ ∃ parsed, urlparse url = Some parsed
                       ∧ last_path_segment (path parsed) = EmptyString)
        ∧ (∀ parsed, urlparse url = Some parsed →
                     last_path_segment (path parsed) ≠ EmptyString →
                     title record ≠ EmptyString))
  ∧ first_heading ("Intro" +:+ String "010" ("#  Deep dive " +:+ String "010" "# Next"))
    = Some "Deep dive"
  ∧ humanized_segment "https://site.com/docs/my-first_post?x=1"
    = Some "My First Post"
  ∧ humanized_segment "https://site.com/docs/" = Some EmptyString.
Proof.
  split; [|by split; [|split]; vm_compute].
  intros url record Hrec.
  destruct (extract_content_chain url record Hrec)
    as (response & Hget & Hex & Hne & Hsrc & Hchain & Hempty & Hsome).
  exists response.
  rewrite title_chain_tiers in Hchain.
  rewrite headline_title_first, heading_title_first in Hempty.
  split; [done|]. split; [done|]. split; [done|]. split; [done|].
  split; [done|]. split.
  - rewrite Hempty. by rewrite final_segment_last.
  - intros parsed Hparse Hseg. apply (Hsome (last_path_segment (path parsed)));
      [|done]. apply final_segment_last. by exists parsed.
Qed.
(** ** The order of the items *)

(** The ghost log [discovery] lists the discovered set without
    repetition. *)
Definition discovery_ok (st : CrawlState) : Prop :=
  NoDup (discovery st) ∧ list_to_set (discovery st) = found_urls st.

Lemma add_link_discovery_ok (st : CrawlState) (link : string) :
  discovery_ok st → discovery_ok (add_link st link).
Proof.
  unfold discovery_ok, add_link. intros [Hnd Hset].
  destruct (bool_decide (link ∉ found_urls st)) eqn:Hin; simpl; [|done].
  destruct (Z.of_nat (size (found_urls st)) <? max_pages (self st)); simpl; [|done].
  apply bool_decide_eq_true in Hin. split.
  - apply NoDup_app. split; [done|]. split; [|apply NoDup_singleton].
    intros x Hx ->%list_elem_of_singleton. apply Hin. rewrite <- Hset.
    by apply elem_of_list_to_set.
  - rewrite list_to_set_app_L, list_to_set_singleton_L, Hset.
    apply (comm_L (∪)).
Qed.

Lemma add_links_discovery_ok (links : list string) (st : CrawlState) :
  discovery_ok st → discovery_ok (foldl add_link st links).
Proof.
  revert st. induction links as [|l links IH]; intros st H; simpl; [done|].
  by apply IH, add_link_discovery_ok.
Qed.

Lemma crawl_iter_discovery_ok (base_domain : string) (st : CrawlState) :
  discovery_ok st → discovery_ok (crawl_iter base_domain st).
Proof.
  intros H. unfold crawl_iter.
  repeat (case_match; try done).
  by apply add_links_discovery_ok.
Qed.

Lemma crawl_reaches_discovery_ok (base_domain : string) (st0 st : CrawlState) :
  discovery_ok st0 → crawl_reaches base_domain st0 st → discovery_ok st.
Proof.
  intros H0. induction 1; [done|]. by apply crawl_iter_discovery_ok.
Qed.

Lemma crawl_start_discovery_ok (s : WebScraper) (root_url : string) :
  discovery_ok (crawl_start s root_url).
Proof.
  unfold discovery_ok, crawl_start. cbn [discovery found_urls]. split.
  - apply NoDup_singleton.
  - by rewrite list_to_set_singleton_L.
Qed.

(** What [crawl_run] returns was reached from the start state of a
    normalized root, and the loop guard fails there. *)
Lemma crawl_run_reaches (s : WebScraper) (root_url : string) (st : CrawlState) :
  crawl_run s root_url = Returns st →
  ∃ root parsed,
    normalize_url root_url = Some root
    ∧ urlparse root = Some parsed
    ∧ crawl_reaches (netloc parsed) (crawl_start s root) st
    ∧ crawl_guard st = false.
Proof.
  unfold crawl_run.
  destruct (normalize_url root_url) as [root|]; [|done].
  destruct (urlparse root) as [parsed|] eqn:Hparse; [|done].
  destruct (crawl_loop _ _ _) as [st'|] eqn:Hloop; [|done].
  intros [= <-]. exists root, parsed.
  eapply crawl_loop_reaches in Hloop as [? ?]; [|constructor].
  by repeat split.
Qed.

Lemma extract_content_source (url : string) (record : ExtractionRecord) :
  extract_content url = Some record → source_url record = url.
Proof.
  unfold extract_content. repeat (case_match; try done).
  destruct (resolve_title _ _ _); simpl; [|done]. by intros [= <-].
Qed.

Lemma extract_all_spec (s : WebScraper) (urls : list string)
    (items result : list ExtractionRecord) :
  extract_all s urls items = Some result →
  result = items ++ omap extract_content urls.
Proof.
  revert items. induction urls as [|u urls IH]; intros items; simpl.
  - intros [= <-]. by rewrite app_nil_r.
  - destruct (time_sleep (delay s)); [|done].
    intros ->%IH. destruct (extract_content u); simpl; [|done].
    by rewrite <- app_assoc.
Qed.

Lemma omap_length_le {A B} (f : A → option B) (l : list A) :
  (length (omap f l) ≤ length l)%nat.
Proof.
  induction l as [|x l IH]; simpl; [done|].
  destruct (f x); simpl; [apply le_n_S | apply le_S]; exact IH.
Qed.

Lemma omap_extract_sources (urls : list string) :
  source_url <$> omap extract_content urls
  = filter (λ u, is_Some (extract_content u)) urls.
Proof.
  induction urls as [|u urls IH]; simpl; [done|].
  destruct (extract_content u) as [record|] eqn:Hu; simpl.
  - rewrite filter_cons_True by (by rewrite Hu).
    f_equal; [by apply extract_content_source | exact IH].
  - rewrite filter_cons_False; [exact IH|]. rewrite Hu. by intros [? ?].
Qed.

(** ** Failures of the root URL *)



(** ** The frontier: no page is fetched twice *)

(** The frontier holds discovered URLs, each once, and none that was
    fetched already. *)
Record queue_inv (st : CrawlState) : Prop := {
  queue_nodup : NoDup (urls_to_visit st);
  queue_found : ∀ u, u ∈ urls_to_visit st → u ∈ found_urls st;
  fetched_nodup : NoDup (fetched st);
  fetched_done : ∀ u, u ∈ fetched st → u ∈ found_urls st ∧ u ∉ urls_to_visit st
}.

Lemma add_link_queue_inv (st : CrawlState) (link : string) :
  queue_inv st → queue_inv (add_link st link).
Proof.
  intros [Hnd Hqf Hfnd Hfd]. unfold add_link.
  destruct (bool_decide (link ∉ found_urls st)) eqn:Hin; simpl; [|done].
  destruct (Z.of_nat (size (found_urls st)) <? max_pages (self st)); simpl; [|done].
  apply bool_decide_eq_true in Hin. split; simpl.
  - apply NoDup_app. split; [done|]. split; [|apply NoDup_singleton].
    intros x Hx ->%list_elem_of_singleton. by apply Hin, Hqf.
  - intros u [Hu | ->%list_elem_of_singleton]%elem_of_app.
    + apply elem_of_union_r. by apply Hqf.
    + apply elem_of_union_l. by apply elem_of_singleton.
  - done.
  - intros u Hu. destruct (Hfd u Hu) as [Hf Hq]. split.
    + by apply elem_of_union_r.
    + intros [? | ->%list_elem_of_singleton]%elem_of_app; [done|]. by apply Hin.
Qed.

Lemma add_links_queue_inv (links : list string) (st : CrawlState) :
  queue_inv st → queue_inv (foldl add_link st links).
Proof.
  revert st. induction links as [|l links IH]; intros st H; simpl; [done|].
  by apply IH, add_link_queue_inv.
Qed.

Lemma crawl_iter_queue_inv (base_domain : string) (st : CrawlState) :
  queue_inv st → queue_inv (crawl_iter base_domain st).
Proof.
  intros [Hnd Hqf Hfnd Hfd]. unfold crawl_iter.
  destruct (urls_to_visit st) as [|u rest] eqn:Hq; [by split; rewrite ?Hq|].
  apply NoDup_cons in Hnd as [Hu Hrest].
  assert (Hpop : queue_inv (set_urls_to_visit rest st)).
  { split; simpl; [done| |done|].
    - intros w Hw. apply Hqf. by right.
    - intros w Hw. destruct (Hfd w Hw) as [? Hnq]. split; [done|].
      intros ?. apply Hnq. by right. }
  assert (Hlog : queue_inv (log_fetch u (set_urls_to_visit rest st))).
  { destruct Hpop as [? Hqf' ? Hfd']. split; simpl in *; [done|done| |].
    - apply NoDup_app. split; [done|]. split; [|apply NoDup_singleton].
      intros x Hx ->%list_elem_of_singleton.
      destruct (Hfd u Hx) as [_ Hnq]. apply Hnq. by left.
    - intros w [Hw | ->%list_elem_of_singleton]%elem_of_app; [by apply Hfd'|].
      split; [|done]. apply Hqf. by left. }
  destruct (bool_decide _); [done|].
  destruct (session_get u 10) as [response|]; [|done].
  destruct (raise_for_status response); simpl; [|done].
  assert (Hvis : queue_inv (set_self
                   (visited_add u (self (log_fetch u (set_urls_to_visit rest st))))
                   (log_fetch u (set_urls_to_visit rest st)))).
  { by destruct Hlog. }
  destruct (extract_links _ _ _); [|done].
  by apply add_links_queue_inv.
Qed.

Lemma crawl_start_queue_inv (s : WebScraper) (root_url : string) :
  queue_inv (crawl_start s root_url).
Proof.
  split; simpl.
  - apply NoDup_singleton.
  - intros u ->%list_elem_of_singleton. by apply elem_of_singleton.
  - apply NoDup_nil_2.
  - by intros u Hu%elem_of_nil.
Qed.

Lemma crawl_reaches_queue_inv (base_domain : string) (st0 st : CrawlState) :
  queue_inv st0 → crawl_reaches base_domain st0 st → queue_inv st.
Proof.
  intros H0. induction 1; [done|]. by apply crawl_iter_queue_inv.
Qed.

Lemma crawl_run_fetches_once (s : WebScraper) (root_url : string) (st : CrawlState) :
  crawl_run s root_url = Returns st → NoDup (fetched st).
Proof.
  intros (root & parsed & _ & _ & Hr & _)%crawl_run_reaches.
  eapply crawl_reaches_queue_inv in Hr; [|apply crawl_start_queue_inv].
  by destruct Hr.
Qed.

(** ** The crawl discovers every reachable page *)

Lemma add_links_found_mono (links : list string) (st : CrawlState) :
  found_urls st ⊆ found_urls (foldl add_link st links).
Proof.
  revert st. induction links as [|l links IH]; intros st; simpl; [done|].
  etrans; [|apply IH]. unfold add_link. case_match; simpl; [|done].
  apply union_subseteq_r.
Qed.

Lemma add_links_queue_mono (links : list string) (st : CrawlState) (u : string) :
  u ∈ urls_to_visit st → u ∈ urls_to_visit (foldl add_link st links).
Proof.
  revert st. induction links as [|l links IH]; intros st Hu; simpl; [done|].
  apply IH. unfold add_link. case_match; simpl; [|done].
  apply elem_of_app. by left.
Qed.

(** What the inner loop appends to the frontier was not discovered
    before. *)
Lemma add_links_queue_new (links : list string) (st : CrawlState) (u : string) :
  u ∈ urls_to_visit (foldl add_link st links) →
  u ∈ urls_to_visit st ∨ u ∉ found_urls st.
Proof.
  revert st. induction links as [|l links IH]; intros st; simpl; [by left|].
  intros [Hu | Hu]%IH; revert Hu; unfold add_link.
  - destruct (bool_decide (l ∉ found_urls st)) eqn:Hin; simpl; [|by left].
    destruct (_ <? _); simpl; [|by left].
    apply bool_decide_eq_true in Hin.
    intros [? | ->%list_elem_of_singleton]%elem_of_app; [by left | by right].
  - case_match; simpl; [|by right].
    intros Hu. right. intros ?. apply Hu. by apply elem_of_union_r.
Qed.

(** What the inner loop discovers, it appends to the frontier. *)
Lemma add_links_found_new (links : list string) (st : CrawlState) (u : string) :
  u ∈ found_urls (foldl add_link st links) →
  u ∈ found_urls st ∨ u ∈ urls_to_visit (foldl add_link st links).
Proof.
  revert st. induction links as [|l links IH]; intros st; simpl; [by left|].
  intros [Hu | Hu]%IH; [|by right]. revert Hu. unfold add_link at 1.
  destruct (bool_decide (l ∉ found_urls st) && _) eqn:Hadd; simpl; [|by left].
  intros [->%elem_of_singleton | ?]%elem_of_union; [|by left].
  right. apply add_links_queue_mono. unfold add_link. rewrite Hadd. simpl.
  apply elem_of_app. right. by apply list_elem_of_singleton.
Qed.

Lemma add_links_found_sub (links : list string) (st : CrawlState) :
  found_urls (foldl add_link st links) ⊆ found_urls st ∪ list_to_set links.
Proof.
  revert st. induction links as [|l links IH]; intros st; simpl.
  - apply union_subseteq_l.
  - etrans; [apply IH|].
    unfold add_link. case_match; simpl;
      intros x; rewrite !elem_of_union; clear; tauto.
Qed.

(** With room under the quota for all of them, every link is discovered. *)
Lemma add_links_found_all (R : gset string) (links : list string) (st : CrawlState) :
  found_urls st ⊆ R →
  (∀ l, l ∈ links → l ∈ R) →
  Z.of_nat (size R) < max_pages (self st) →
  ∀ l, l ∈ links → l ∈ found_urls (foldl add_link st links).
Proof.
  revert st. induction links as [|l links IH]; intros st Hsub Hlinks Hroom x Hx.
  { by apply elem_of_nil in Hx. }
  simpl.
  assert (Hl : l ∈ found_urls (add_link st l)).
  { unfold add_link.
    destruct (bool_decide (l ∉ found_urls st)) eqn:Hin; simpl.
    - assert (Hlt : (Z.of_nat (size (found_urls st)) <? max_pages (self st)) = true).
      { apply Z.ltb_lt. apply subseteq_size in Hsub. lia. }
      rewrite Hlt. simpl. apply elem_of_union_l. by apply elem_of_singleton.
    - apply bool_decide_eq_false in Hin. by apply dec_stable in Hin. }
  apply elem_of_cons in Hx as [-> | Hx].
  - by apply add_links_found_mono.
  - apply IH; [| |by rewrite add_link_self|done].
    + unfold add_link. case_match; simpl; [|done].
      apply union_subseteq. split; [|done].
      apply singleton_subseteq_l, Hlinks. by left.
    + intros y Hy. apply Hlinks. by right.
Qed.

(** One round of the crawl on a page not visited before: the page is
    fetched, possibly marked as visited, and its links go through the
    inner loop. *)
Lemma crawl_iter_unfold (base_domain : string) (st : CrawlState)
    (u : string) (rest : list string) :
  urls_to_visit st = u :: rest →
  u ∉ visited_urls (self st) →
  ∃ s',
    (s' = self st ∨ s' = visited_add u (self st))
    ∧ crawl_iter base_domain st
      = foldl add_link
          {| urls_to_visit := rest; found_urls := found_urls st; self := s';
             fetched := fetched st ++ [u]; discovery := discovery st |}
          (page_links base_domain u).
Proof.
  intros Hq Hu. unfold crawl_iter, page_links. rewrite Hq.
  cbn [set_urls_to_visit self]. rewrite bool_decide_eq_false_2 by done.
  destruct (session_get u 10) as [response|]; [|by eexists; split; [left|]].
  destruct (raise_for_status response); cbn [negb];
    [|by eexists; split; [left|]].
  destruct (extract_links (text response) u base_domain) as [links|];
    by eexists; split; [right|].
Qed.

Section Completeness.

Variables (base_domain root : string) (R : gset string) (N : Z).
Hypothesis R_reachable : ∀ u, u ∈ R ↔ reachable base_domain root u.
Hypothesis R_small : Z.of_nat (size R) < N.

(** Discovered pages are reachable, pages visited by this crawl are
    off the frontier, and a discovered page off the frontier has all
    its links discovered. *)
Record reach_inv (st : CrawlState) : Prop := {
  inv_root : root ∈ found_urls st;
  inv_found : found_urls st ⊆ R;
  inv_quota : max_pages (self st) = N;
  inv_visited : ∀ u, u ∈ visited_urls (self st) → u ∈ R →
                     u ∈ found_urls st ∧ u ∉ urls_to_visit st;
  inv_closed : ∀ w v, w ∈ found_urls st → w ∉ urls_to_visit st →
                      v ∈ page_links base_domain w → v ∈ found_urls st
}.

Lemma crawl_iter_reach_inv (st : CrawlState) :
  queue_inv st → reach_inv st → crawl_guard st = true →
  reach_inv (crawl_iter base_domain st).
Proof.
  intros [Hnd Hqf _ _] [Hroot Hfound Hquota Hvis Hclosed] Hg.
  destruct (urls_to_visit st) as [|u rest] eqn:Hq.
  { unfold crawl_guard in Hg. by rewrite Hq in Hg. }
  apply NoDup_cons in Hnd as [Hurest _].
  assert (HuF : u ∈ found_urls st) by (apply Hqf; by left).
  assert (HuR : u ∈ R) by (by apply Hfound).
  assert (HuV : u ∉ visited_urls (self st)).
  { intros Hin. destruct (Hvis u Hin HuR) as [_ Hn]. apply Hn. by left. }
  destruct (crawl_iter_unfold base_domain st u rest Hq HuV)
    as (s' & Hs' & ->).
  set (st1 := {| urls_to_visit := rest; found_urls := found_urls st;
                 self := s'; fetched := fetched st ++ [u];
                 discovery := discovery st |}).
  set (links := page_links base_domain u).
  assert (Hlinks : ∀ l, l ∈ links → l ∈ R).
  { intros l Hl. apply R_reachable. eapply reachable_link; [|exact Hl].
    by apply R_reachable. }
  assert (Hmax : max_pages s' = N) by (by destruct Hs' as [-> | ->]).
  assert (Hvis' : ∀ w, w ∈ visited_urls s' →
                       w = u ∨ w ∈ visited_urls (self st)).
  { intros w. destruct Hs' as [-> | ->]; [by right|]. simpl.
    intros [->%elem_of_singleton | ?]%elem_of_union; [by left | by right]. }
  assert (Hoff : ∀ w, w ∈ found_urls st →
                      w ∈ urls_to_visit (foldl add_link st1 links) →
                      w ∈ rest).
  { intros w Hw [? | Hn]%add_links_queue_new; done. }
  split.
  - by apply add_links_found_mono.
  - etrans; [apply add_links_found_sub|].
    apply union_subseteq. split; [done|].
    intros l Hl%elem_of_list_to_set. by apply Hlinks.
  - by rewrite add_links_self.
  - rewrite add_links_self. intros w Hw HwR.
    destruct (Hvis' w Hw) as [-> | Hold].
    + split; [by apply add_links_found_mono|].
      intros Hin. by apply Hurest, Hoff.
    + destruct (Hvis w Hold HwR) as [HwF Hwq]. split.
      * by apply add_links_found_mono.
      * intros Hin. apply Hwq. right. by apply Hoff.
  - intros w v Hw Hwq Hv.
    destruct (add_links_found_new _ _ _ Hw) as [HwF | ?]; [|done].
    destruct (decide (w = u)) as [-> | Hne].
    + apply (add_links_found_all R); try done.
      simpl. by rewrite Hmax.
    + apply add_links_found_mono. simpl. apply (Hclosed w v); [done| |done].
      intros [-> | Hin]%elem_of_cons; [done|].
      apply Hwq. by apply add_links_queue_mono.
Qed.

Lemma crawl_reaches_reach_inv (st0 st : CrawlState) :
  queue_inv st0 → reach_inv st0 →
  crawl_reaches base_domain st0 st → reach_inv st.
Proof.
  intros Hq0 H0 Hr. induction Hr as [|st Hr IH Hg]; [done|].
  apply crawl_iter_reach_inv; [|done..].
  by eapply crawl_reaches_queue_inv.
Qed.

(** When the loop ends, the discovered set is the reachable set. *)
Lemma reach_inv_final (st : CrawlState) :
  reach_inv st → crawl_guard st = false → found_urls st = R.
Proof.
  intros [Hroot Hfound Hquota _ Hclosed] Hg.
  assert (Hq : urls_to_visit st = []).
  { unfold crawl_guard in Hg. apply andb_false_iff in Hg as [Hg | Hg].
    - by apply negb_false_iff, bool_decide_eq_true in Hg.
    - apply Z.ltb_ge in Hg. apply subseteq_size in Hfound. lia. }
  apply set_eq. intros u. split; [by apply Hfound|].
  intros Hu%R_reachable. induction Hu as [|u v _ IH Hv]; [done|].
  apply (Hclosed u v); [done| |done]. rewrite Hq. apply not_elem_of_nil.
Qed.

Lemma crawl_start_reach_inv (s : WebScraper) :
  max_pages s = N → visited_urls s ## R →
  reach_inv (crawl_start s root).
Proof.
  intros Hmax Hdisj. split; simpl.
  - by apply elem_of_singleton.
  - apply singleton_subseteq_l, R_reachable. constructor.
  - done.
  - intros u Hu HuR. by destruct (Hdisj u).
  - intros w v ->%elem_of_singleton Hw. exfalso. apply Hw. by left.
Qed.

End Completeness.

(** ** The visited set across calls *)

Lemma crawl_iter_found_mono (base_domain : string) (st : CrawlState) :
  found_urls st ⊆ found_urls (crawl_iter base_domain st).
Proof.
  unfold crawl_iter. repeat (case_match; try done).
  etrans; [|apply add_links_found_mono]. done.
Qed.

Lemma crawl_loop_found_mono (fuel : nat) (base_domain : string) (st st' : CrawlState) :
  crawl_loop fuel base_domain st = Some st' → found_urls st ⊆ found_urls st'.
Proof.
  revert st. induction fuel as [|fuel IH]; intros st; simpl.
  - destruct (crawl_guard st); [done|]. by intros [= <-].
  - destruct (crawl_guard st); [|by intros [= <-]].
    intros H%IH. etrans; [apply crawl_iter_found_mono|done].
Qed.

Lemma crawl_iter_visited_mono (base_domain : string) (st : CrawlState) :
  visited_urls (self st) ⊆ visited_urls (self (crawl_iter base_domain st)).
Proof.
  unfold crawl_iter. repeat (case_match; try done); simpl;
    rewrite ?add_links_self; simpl; apply union_subseteq_r.
Qed.

Lemma crawl_loop_visited_mono (fuel : nat) (base_domain : string) (st st' : CrawlState) :
  crawl_loop fuel base_domain st = Some st' →
  visited_urls (self st) ⊆ visited_urls (self st').
Proof.
  revert st. induction fuel as [|fuel IH]; intros st; simpl.
  - destruct (crawl_guard st); [done|]. by intros [= <-].
  - destruct (crawl_guard st); [|by intros [= <-]].
    intros H%IH. etrans; [apply crawl_iter_visited_mono|done].
Qed.

Lemma crawl_site_visited_mono (s : WebScraper) (root_url : string) :
  visited_urls s ⊆ visited_urls (snd (crawl_site s root_url)).
Proof.
  unfold crawl_site, crawl_run. repeat (case_match; simplify_eq; try done).
  simpl. match goal with H : crawl_loop _ _ _ = Some _ |- _ =>
           by apply crawl_loop_visited_mono in H end.
Qed.

Lemma scrape_site_visited_mono (s : WebScraper) (url : string) :
  visited_urls s ⊆ visited_urls (snd (scrape_site s url)).
Proof.
  destruct (scrape_site_state s url) as [-> | (n & _ & ->)]; [done|].
  apply crawl_site_visited_mono.
Qed.

Lemma add_link_join_visited (V : gset string) (st : CrawlState) (link : string) :
  add_link (join_visited V st) link = join_visited V (add_link st link).
Proof. unfold add_link, join_visited. simpl. by case_match. Qed.

Lemma add_links_join_visited (V : gset string) (links : list string) (st : CrawlState) :
  foldl add_link (join_visited V st) links
  = join_visited V (foldl add_link st links).
Proof.
  revert st. induction links as [|l links IH]; intros st; simpl; [done|].
  by rewrite add_link_join_visited, IH.
Qed.

(** A round of the crawl on a page outside [V] does the same with and
    without [V] in the visited set. *)
Lemma crawl_iter_join_visited (base_domain : string) (V : gset string)
    (st : CrawlState) :
  (∀ u, u ∈ urls_to_visit st → u ∉ V) →
  crawl_iter base_domain (join_visited V st)
  = join_visited V (crawl_iter base_domain st).
Proof.
  intros HV. unfold crawl_iter.
  change (urls_to_visit (join_visited V st)) with (urls_to_visit st).
  destruct (urls_to_visit st) as [|u rest]; [done|].
  assert (Hu : u ∉ V) by (apply HV; by left).
  change (visited_urls (self (set_urls_to_visit rest (join_visited V st))))
    with (V ∪ visited_urls (self st)).
  change (visited_urls (self (set_urls_to_visit rest st)))
    with (visited_urls (self st)).
  destruct (decide (u ∈ visited_urls (self st))) as [Hin | Hout].
  - rewrite !bool_decide_eq_true_2; [done|done|]. by apply elem_of_union_r.
  - rewrite !bool_decide_eq_false_2; [|done|].
    2:{ by intros [? | ?]%elem_of_union. }
    destruct (session_get u 10) as [response|]; [|done].
    destruct (raise_for_status response); simpl; [|done].
    destruct (extract_links (text response) u base_domain) as [links|].
    + rewrite <- add_links_join_visited. f_equal.
      unfold join_visited, set_self, log_fetch, set_urls_to_visit, visited_add,
        with_visited. simpl. do 2 f_equal.
      apply set_eq. intros x. rewrite !elem_of_union. clear. tauto.
    + unfold join_visited, set_self, log_fetch, set_urls_to_visit, visited_add,
        with_visited. simpl. do 2 f_equal.
      apply set_eq. intros x. rewrite !elem_of_union. clear. tauto.
Qed.

Lemma crawl_loop_join_visited (fuel : nat) (base_domain : string) (V : gset string)
    (st st' : CrawlState) :
  queue_inv st →
  crawl_loop fuel base_domain st = Some st' →
  V ## found_urls st' →
  crawl_loop fuel base_domain (join_visited V st) = Some (join_visited V st').
Proof.
  revert st. induction fuel as [|fuel IH]; intros st Hq; simpl;
    change (crawl_guard (join_visited V st)) with (crawl_guard st).
  - destruct (crawl_guard st); [done|]. by intros [= <-].
  - destruct (crawl_guard st); [|by intros [= <-]].
    intros Hloop Hdisj. rewrite crawl_iter_join_visited.
    + apply IH; [by apply crawl_iter_queue_inv|done..].
    + intros u Hu HuV. apply (Hdisj u HuV).
      apply (crawl_loop_found_mono _ _ _ _ Hloop), crawl_iter_found_mono.
      by apply Hq.
Qed.

Lemma with_visited_fresh (s : WebScraper) :
  with_visited (visited_urls s ∪ visited_urls (fresh s)) (fresh s) = s.
Proof.
  destruct s as [m d h V]. unfold with_visited, fresh. simpl.
  f_equal. apply (right_id_L ∅ (∪)).
Qed.

(** A crawl from a scraper that visited nothing the crawl discovers is
    the crawl from a fresh scraper, the earlier visits carried along. *)
Lemma crawl_run_join_visited (s : WebScraper) (root_url : string) (st : CrawlState) :
  crawl_run (fresh s) root_url = Returns st →
  visited_urls s ## found_urls st →
  crawl_run s root_url = Returns (join_visited (visited_urls s) st).
Proof.
  unfold crawl_run.
  destruct (normalize_url root_url) as [root|]; [|done].
  destruct (urlparse root) as [parsed|]; [|done].
  destruct (crawl_loop _ _ (crawl_start (fresh s) root)) as [st'|] eqn:Hloop;
    [|done].
  intros [= <-] Hdisj.
  apply (crawl_loop_join_visited _ _ (visited_urls s)) in Hloop;
    [|apply crawl_start_queue_inv|done].
  change (crawl_fuel (fresh s)) with (crawl_fuel s) in Hloop.
  replace (join_visited (visited_urls s) (crawl_start (fresh s) root))
    with (crawl_start s root) in Hloop.
  - by rewrite Hloop.
  - unfold join_visited, crawl_start, set_self. simpl.
    by rewrite with_visited_fresh.
Qed.

Lemma extract_all_delay (s s' : WebScraper) (urls : list string)
    (items : list ExtractionRecord) :
  delay s = delay s' → extract_all s urls items = extract_all s' urls items.
Proof.
  intros Hd. revert items. induction urls as [|u urls IH]; intros items; simpl;
    [done|]. by rewrite Hd, IH.
Qed.

(** C3: the frontier and the discovered set are made anew by every
    call, but the visited set belongs to the scraper object: it is empty
    at construction and a call only adds to it.  A call of [scrape_site]
    on a scraper that has visited none of the URLs the call would
    discover from a fresh scraper returns what the fresh scraper returns,
    and leaves the earlier visits joined with the new ones. *)
Theorem visited_set_scope :
  (∀ (n : Z) (d : Q), visited_urls (init n d) = ∅)
  ∧ (∀ (s : WebScraper) (url : string),
        visited_urls s ⊆ visited_urls (snd (scrape_site s url)))
  ∧ (∀ (s : WebScraper) (url normalized_url : string) (st : CrawlState),
        normalize_url url = Some normalized_url →
        crawl_run (fresh s) normalized_url = Returns st →
        visited_urls s ## found_urls st →
        fst (scrape_site s url) = fst (scrape_site (fresh s) url)
        ∧ visited_urls (snd (scrape_site s url))
          = visited_urls s ∪ visited_urls (snd (scrape_site (fresh s) url))).
Proof.
  split; [done|]. split; [apply scrape_site_visited_mono|].
  intros s url n st Hn Hrun Hdisj.
  pose proof (crawl_run_join_visited s n st Hrun Hdisj) as Hrun'.
  unfold scrape_site, crawl_site. rewrite Hn, Hrun, Hrun'.
  change (found_urls (join_visited (visited_urls s) st)) with (found_urls st).
  rewrite (extract_all_delay (self (join_visited (visited_urls s) st)) (self st))
    by done.
  by destruct (extract_all (self st) _ _).
Qed.

(** ** Properties that depend on how Python enumerates a set *)

(** Python enumerates the elements of a set, each once. *)
Hypothesis list_of_set_perm : ∀ X : gset string, list_of_set X ≡ₚ elements X.

Lemma list_of_set_length (X : gset string) : length (list_of_set X) = size X.
Proof. by rewrite list_of_set_perm. Qed.

Lemma elem_of_list_of_set (X : gset string) (u : string) :
  u ∈ list_of_set X ↔ u ∈ X.
Proof. by rewrite list_of_set_perm, elem_of_elements. Qed.

Lemma NoDup_list_of_set (X : gset string) : NoDup (list_of_set X).
Proof. rewrite list_of_set_perm. apply NoDup_elements. Qed.

Lemma list_of_set_singleton (u : string) : list_of_set {[u]} = [u].
Proof.
  apply Permutation_singleton_r.
  by rewrite list_of_set_perm, elements_singleton.
Qed.

Lemma crawl_run_discovery (s : WebScraper) (root_url : string) (st : CrawlState) :
  crawl_run s root_url = Returns st →
  list_of_set (found_urls st) ≡ₚ discovery st.
Proof.
  intros (root & parsed & _ & _ & Hr & _)%crawl_run_reaches.
  eapply crawl_reaches_discovery_ok in Hr as [Hnd Hset];
    [|apply crawl_start_discovery_ok].
  rewrite list_of_set_perm, <- Hset. by apply elements_list_to_set.
Qed.


(** ** The links [extract_links] returns *)

Lemma collect_links_spec (hrefs : list string) (base_url base_domain : string)
    (acc links : list string) :
  collect_links hrefs base_url base_domain acc = Some links →
  ∀ v, v ∈ links ↔ v ∈ acc ∨ link_of hrefs base_url base_domain v.
Proof using Type.
  revert acc. induction hrefs as [|href hrefs IH]; intros acc Hc v.
  - injection Hc as <-. split; [by left|].
    intros [? | (href & j & []%elem_of_nil & _)]. done.
  - cbn [collect_links] in Hc.
    destruct (urljoin base_url href) as [j|] eqn:Hj; [|done].
    cbn [mbind option_bind] in Hc.
    destruct (normalize_url j) as [w|] eqn:Hw; [|done].
    cbn [mbind option_bind] in Hc.
    rewrite (IH _ Hc v). split.
    + intros [Hv | (h & j' & Hh & Hj' & Hn & Hval)].
      * destruct (is_valid_url w base_domain) eqn:Hval; [|by left].
        apply elem_of_app in Hv as [Hv | ->%list_elem_of_singleton]; [by left|].
        right. exists href, j. split; [by left|done].
      * right. exists h, j'. split; [by right|done].
    + intros [Hv | (h & j' & Hh & Hj' & Hn & Hval)].
      * left. destruct (is_valid_url w base_domain); [|done].
        apply elem_of_app. by left.
      * apply elem_of_cons in Hh as [-> | Hh].
        -- left. rewrite Hj in Hj'. injection Hj' as <-.
           rewrite Hw in Hn. injection Hn as <-. rewrite Hval.
           apply elem_of_app. right. by apply list_elem_of_singleton.
        -- right. by exists h, j'.
Qed.

Lemma collect_links_none (hrefs : list string) (base_url base_domain : string)
    (acc : list string) :
  collect_links hrefs base_url base_domain acc = None ↔
  ∃ href, href ∈ hrefs ∧ bad_href base_url href.
Proof using Type.
  revert acc. induction hrefs as [|href hrefs IH]; intros acc.
  - split; [done|]. by intros (href & []%elem_of_nil & _).
  - cbn [collect_links].
    destruct (urljoin base_url href) as [j|] eqn:Hj; cbn [mbind option_bind].
    + destruct (normalize_url j) as [w|] eqn:Hw; cbn [mbind option_bind].
      * rewrite IH. split.
        -- intros (h & Hh & Hbad). exists h. split; [by right|done].
        -- intros (h & [-> | Hh]%elem_of_cons & Hbad); [|by exists h].
           destruct Hbad as [Hbad | (j' & Hj' & Hbad)]; [congruence|].
           rewrite Hj in Hj'. injection Hj' as <-. congruence.
      * split; [|done]. intros _. exists href. split; [by left|].
        right. by exists j.
    + split; [|done]. intros _. exists href. split; [by left|by left].
Qed.

Lemma extract_links_some (html base_url base_domain : string) (links : list string) :
  extract_links html base_url base_domain = Some links →
  NoDup links
  ∧ ∀ v, v ∈ links ↔ link_of (soup_hrefs html) base_url base_domain v.
Proof using list_of_set_perm.
  unfold extract_links. intros Hl.
  destruct (collect_links _ _ _ _) as [collected|] eqn:Hc; [|done].
  injection Hl as <-. split; [apply NoDup_list_of_set|].
  intros v. rewrite elem_of_list_of_set, elem_of_list_to_set.
  rewrite (collect_links_spec _ _ _ _ _ Hc v). split; [|by right].
  by intros [[]%elem_of_nil | ?].
Qed.

(** C1: the discovered set holds at most [max(1, max_pages)] URLs in
    every state the crawl loop passes through and after every round of
    the inner loop over the links, and the list [crawl_site] returns is
    that long at most; for [max_pages >= 1] the bound is [max_pages]
    itself. *)
Theorem crawl_site_within_quota :
  ∀ (s : WebScraper) (root_url : string),
    (∀ base_domain root st,
        crawl_reaches base_domain (crawl_start s root) st →
        Z.of_nat (size (found_urls st)) ≤ quota s)
    ∧ (∀ st link, within_quota st → within_quota (add_link st link))
    ∧ (∀ urls s',
          crawl_site s root_url = (Returns urls, s') →
          Z.of_nat (length urls) ≤ quota s)
    ∧ (1 ≤ max_pages s → quota s = max_pages s).
Proof.
  intros s root_url. split; [|split; [|split]].
  - intros base_domain root st Hst.
    pose proof (crawl_reaches_within_quota _ _ _
                  (crawl_start_within_quota s root) Hst) as Hq.
    apply crawl_reaches_config in Hst. unfold within_quota, quota in *.
    injection Hst as Hm _ _. simpl in Hm. by rewrite <- Hm.
  - apply add_link_within_quota.
  - intros urls s'. unfold crawl_site.
    destruct (crawl_run s root_url) as [st| |] eqn:Hrun; [|done..].
    intros [= <- <-]. rewrite list_of_set_length.
    revert Hrun. unfold crawl_run. repeat (case_match; try done).
    intros [= <-].
    match goal with H : crawl_loop _ _ _ = Some _ |- _ =>
      eapply crawl_loop_reaches in H as [Hr _]; [|constructor] end.
    pose proof (crawl_reaches_within_quota _ _ _
                  (crawl_start_within_quota s _) Hr) as Hq.
    apply crawl_reaches_config in Hr. unfold within_quota, quota in *.
    injection Hr as Hm _ _. simpl in Hm. by rewrite <- Hm.
  - unfold quota. lia.
Qed.

(** C9: when [scrape_site] returns, its items are the records of the
    URLs in the list [crawl_site] returned, in the order of that list,
    the URLs whose extraction gave nothing left out.  That list is an
    enumeration of the discovered set in the set's own iteration order: a
    rearrangement of the discovery order, not the discovery order
    itself. *)
Theorem scrape_site_items_order :
  ∀ (s s' : WebScraper) (url : string) (result : ScrapeResult),
    scrape_site s url = (Returns result, s') →
    ∃ normalized_url st,
      let urls := list_of_set (found_urls st) in
      normalize_url url = Some normalized_url
      ∧ crawl_run s normalized_url = Returns st
      ∧ crawl_site s normalized_url = (Returns urls, s')
      ∧ site result = normalized_url
      ∧ items result = omap extract_content urls
      ∧ source_url <$> items result
        = filter (λ u, is_Some (extract_content u)) urls
      ∧ urls ≡ₚ discovery st
      ∧ (length (items result) ≤ length urls)%nat.
Proof.
  intros s s' url result. unfold scrape_site.
  destruct (normalize_url url) as [n|]; [|done].
  unfold crawl_site.
  destruct (crawl_run s n) as [st| |] eqn:Hrun; [|done..].
  destruct (extract_all _ _ _) as [its|] eqn:Hall; [|done].
  intros [= <- <-]. exists n, st. cbn zeta.
  apply extract_all_spec in Hall. simpl in Hall. subst its.
  split; [done|]. split; [done|]. split; [by rewrite Hrun|].
  split; [done|]. split; [done|].
  split; [apply omap_extract_sources|].
  split; [by eapply crawl_run_discovery|].
  simpl. apply omap_length_le.
Qed.

(** ** The site and the crawl *)

(** On a page whose fetch succeeds and whose anchors all parse, the
    links the crawl extracts are the links of the page. *)
Lemma page_links_site (base_domain u : string) (response : Response) :
  session_get u 10 = Some response →
  raise_for_status response = true →
  (∀ href, href ∈ soup_hrefs (text response) →
           ∃ joined v, urljoin u href = Some joined
                       ∧ normalize_url joined = Some v) →
  ∀ v, v ∈ page_links base_domain u ↔ links_to base_domain u v.
Proof using list_of_set_perm.
  intros Hget Hstatus Hparse v. unfold page_links, links_to.
  rewrite Hget, Hstatus.
  destruct (extract_links (text response) u base_domain) as [links|] eqn:Hl.
  - cbn [default]. apply extract_links_some in Hl as [_ Hl]. rewrite Hl. split.
    + intros Hv. by exists response.
    + by intros (response' & [= <-] & Hv).
  - exfalso. unfold extract_links in Hl.
    destruct (collect_links _ _ _ _) as [collected|] eqn:Hc; [done|].
    apply collect_links_none in Hc as (href & Hin & Hbad).
    destruct (Hparse href Hin) as (joined & w & Hj & Hn).
    destruct Hbad as [Hbad | (j' & Hj' & Hbad)]; [congruence|].
    rewrite Hj in Hj'. injection Hj' as <-. congruence.
Qed.

(** When every fetch succeeds and every anchor parses, the pages the
    crawl can reach are the reachable pages of the site. *)
Lemma reachable_site (base_domain root : string) :
  site_fetches_succeed base_domain root →
  anchors_parse base_domain root →
  ∀ u, reachable base_domain root u ↔ site_reachable base_domain root u.
Proof using list_of_set_perm.
  intros Hfetch Hanchors.
  assert (Hlinks : ∀ u v, site_reachable base_domain root u →
            (v ∈ page_links base_domain u ↔ links_to base_domain u v)).
  { intros u v Hu. destruct (Hfetch u Hu) as (response & Hget & Hstatus).
    apply (page_links_site base_domain u response); [done..|].
    intros href Hin. by apply (Hanchors u response). }
  intros u. split.
  - induction 1 as [|u v _ IH Hv]; [constructor|].
    apply (site_link _ _ u); [done|]. by apply Hlinks.
  - induction 1 as [|u v Hu IH Hv]; [constructor|].
    apply (reachable_link _ _ u); [done|]. by apply Hlinks.
Qed.

(** C2: [crawl_site] always leaves its loop, and no URL is fetched twice
    in the crawl phase.  When the pages of the site reachable from the
    normalized root number fewer than [max_pages], every fetch succeeds,
    every anchor of those pages can be joined and normalized, and the
    scraper has visited none of those pages before, the call returns the
    reachable pages, each once (links back to pages already discovered do
    not trap the loop).  The reachable pages are those of
    [site_reachable], which follows the anchors of the pages and does not
    refer to the crawl. *)
Theorem crawl_site_complete :
  ∀ (s : WebScraper) (root_url : string),
    crawl_run s root_url ≠ OutOfFuel
    ∧ (∀ st, crawl_run s root_url = Returns st → NoDup (fetched st))
    ∧ (∀ (root : string) (parsed : ParseResult) (R : gset string),
          normalize_url root_url = Some root →
          urlparse root = Some parsed →
          (∀ u, u ∈ R ↔ site_reachable (netloc parsed) root u) →
          Z.of_nat (size R) < max_pages s →
          site_fetches_succeed (netloc parsed) root →
          anchors_parse (netloc parsed) root →
          visited_urls s ## R →
          ∃ st urls,
            crawl_run s root_url = Returns st
            ∧ found_urls st = R
            ∧ crawl_site s root_url = (Returns urls, self st)
            ∧ NoDup urls
            ∧ ∀ u, u ∈ urls ↔ site_reachable (netloc parsed) root u).
Proof.
  intros s root_url. split; [apply crawl_run_finishes|].
  split; [apply crawl_run_fetches_once|].
  intros root parsed R Hnorm Hparse HR Hsmall Hfetch Hanchors Hdisj.
  pose proof (reachable_site (netloc parsed) root Hfetch Hanchors) as Hsame.
  assert (HR' : ∀ u, u ∈ R ↔ reachable (netloc parsed) root u).
  { intros u. by rewrite Hsame. }
  destruct (crawl_run s root_url) as [st| |] eqn:Hrun.
  - destruct (crawl_run_reaches _ _ _ Hrun)
      as (root' & parsed' & Hnorm' & Hparse' & Hreach & Hguard).
    simplify_eq.
    assert (Hfound : found_urls st = R).
    { apply (reach_inv_final (netloc parsed) root R (max_pages s)); try done.
      eapply crawl_reaches_reach_inv; try done.
      - apply crawl_start_queue_inv.
      - by apply crawl_start_reach_inv. }
    exists st, (list_of_set (found_urls st)).
    split; [done|]. split; [done|].
    split; [unfold crawl_site; by rewrite Hrun|].
    split; [apply NoDup_list_of_set|].
    intros u. by rewrite elem_of_list_of_set, Hfound.
  - revert Hrun. unfold crawl_run. rewrite Hnorm, Hparse. by case_match.
  - by apply crawl_run_finishes in Hrun.
Qed.

(** * Further properties of the code *)

(** ** [normalize_url]: the shape of the result *)

Lemma urlunparse_scheme (sch n p pa q f : string) :
  sch = "http" ∨ sch = "https" →
  ∃ x, urlunparse sch n p pa q f = sch +:+ "://" +:+ x.
Proof using Type.
  intros Hsch. rewrite urlunparse_tail. unfold urlunsplit.
  assert (Hs : Py.truthy sch = true) by (by destruct Hsch as [-> | ->]).
  assert (Hu : bool_decide (sch ∈ uses_netloc) = true).
  { by destruct Hsch as [-> | ->]; vm_compute. }
  rewrite Hs, Hu. cbn [andb].
  set (url := p +:+ tail_of ";" pa).
  destruct (Py.truthy n || negb (Py.startswith url "//")) eqn:Hcase.
  - set (U := if Py.truthy url && negb (Py.startswith url "/")
              then "/" +:+ url else url).
    exists (n +:+ U +:+ tail_of "?" q +:+ tail_of "#" f).
    unfold tail_of.
    destruct q as [|cq q], f as [|cf f]; cbn [Py.truthy];
      rewrite ?str_app_assoc, ?str_app_nil_r; reflexivity.
  - apply orb_false_iff in Hcase as [_ Hstart].
    apply negb_false_iff, startswith_spec in Hstart as [y ->].
    exists (y +:+ tail_of "?" q +:+ tail_of "#" f).
    unfold tail_of.
    destruct q as [|cq q], f as [|cf f]; cbn [Py.truthy];
      rewrite ?str_app_assoc, ?str_app_nil_r; reflexivity.
Qed.

Lemma normalize_url_some (u v : string) :
  normalize_url u = Some v →
  ∃ parsed, urlparse (with_scheme u) = Some parsed
            ∧ v = urlunparse (scheme parsed) (Py.lower (netloc parsed))
                    (normal_path (path parsed)) (params parsed)
                    (query parsed) (fragment parsed).
Proof using Type.
  intros Hv. destruct (urlparse (with_scheme u)) as [parsed|] eqn:Hparse.
  - exists parsed. split; [done|].
    rewrite (normalize_url_parsed _ _ Hparse) in Hv. by injection Hv.
  - unfold normalize_url in Hv.
    change (if Py.startswith u "http://" || Py.startswith u "https://"
            then u else "https://" +:+ u) with (with_scheme u) in Hv.
    by rewrite Hparse in Hv.
Qed.

(** X1: whatever the input, a URL that [normalize_url] returns starts
    with ["http://"] or ["https://"], so that normalizing it again adds no
    second scheme. *)
Theorem normalize_url_scheme :
  ∀ u v : string,
    normalize_url u = Some v →
    (∃ x, v = "http://" +:+ x ∨ v = "https://" +:+ x)
    ∧ with_scheme v = v.
Proof using Type.
  intros u v (parsed & Hparse & ->)%normalize_url_some.
  destruct (urlparse_with_scheme u parsed Hparse) as (Hsch & _).
  destruct (urlunparse_scheme (scheme parsed) (Py.lower (netloc parsed))
              (normal_path (path parsed)) (params parsed) (query parsed)
              (fragment parsed) Hsch) as [x Hx].
  rewrite Hx. destruct Hsch as [-> | ->].
  - split; [exists x; by left|]. done.
  - split; [exists x; by right|]. done.
Qed.

(** ** [normalize_url] on a URL given by its parts *)











(** ** Characters a URL does not hold *)

Lemma has_char_cons (c a : ascii) (s : string) :
  Py.has_char c (String a s) = Ascii.eqb a c || Py.has_char c s.
Proof using Type. reflexivity. Qed.


Lemma has_char_take (c : ascii) (s : string) (n : nat) :
  Py.has_char c s = false → Py.has_char c (Py.take n s) = false.
Proof using Type.
  revert n. induction s as [|a s IH]; intros [|n] Hs; try done.
  rewrite has_char_cons in Hs. apply orb_false_iff in Hs as [Ha Hs].
  cbn [Py.take]. by rewrite has_char_cons, Ha, IH.
Qed.

Lemma has_char_remove_unsafe (c : ascii) (s : string) :
  Py.has_char c s = false → Py.has_char c (remove_unsafe_bytes s) = false.
Proof using Type.
  intros Hs. unfold remove_unsafe_bytes.
  by do 3 apply has_char_remove_other.
Qed.







(** ** [normalize_url] raises on a bracket only *)








(** ** [extract_links] *)

(** X6: [extract_links] raises exactly when one anchor of the page makes
    [urljoin] or [normalize_url] raise; the links of the other anchors are
    lost with it. *)
Theorem extract_links_raises :
  ∀ html base_url base_domain : string,
    extract_links html base_url base_domain = None ↔
    ∃ href, href ∈ soup_hrefs html ∧ bad_href base_url href.
Proof using Type.
  intros html base_url base_domain. unfold extract_links.
  rewrite <- (collect_links_none _ base_url base_domain []).
  by destruct (collect_links _ _ _ _).
Qed.

(** X5: the list [extract_links] returns has no duplicate, and its
    elements are the normal forms of the anchors of the page, joined to
    the URL of the page, that [is_valid_url] accepts for the base domain. *)
Theorem extract_links_spec :
  ∀ (html base_url base_domain : string) (links : list string),
    extract_links html base_url base_domain = Some links →
    NoDup links
    ∧ ∀ v, v ∈ links ↔
           ∃ href joined,
             href ∈ soup_hrefs html
             ∧ urljoin base_url href = Some joined
             ∧ normalize_url joined = Some v
             ∧ is_valid_url v base_domain = true.
Proof using list_of_set_perm. exact extract_links_some. Qed.

(** ** [crawl_site]: what the crawl returns *)

Lemma crawl_site_returns (s s' : WebScraper) (root_url : string) (urls : list string) :
  crawl_site s root_url = (Returns urls, s') →
  ∃ st, crawl_run s root_url = Returns st
        ∧ urls = list_of_set (found_urls st) ∧ s' = self st.
Proof using Type.
  unfold crawl_site. destruct (crawl_run s root_url) as [st| |]; [|done..].
  intros [= <- <-]. by exists st.
Qed.

Lemma crawl_reaches_found_mono (base_domain : string) (st0 st : CrawlState) :
  crawl_reaches base_domain st0 st → found_urls st0 ⊆ found_urls st.
Proof using Type.
  induction 1 as [|st _ IH _]; [done|].
  etrans; [exact IH|]. apply crawl_iter_found_mono.
Qed.

(** What one round of the crawl discovers is a link of a page discovered
    before. *)
Lemma crawl_iter_found (base_domain : string) (st : CrawlState) (v : string) :
  v ∈ found_urls (crawl_iter base_domain st) →
  v ∈ found_urls st
  ∨ ∃ u, u ∈ urls_to_visit st ∧ v ∈ page_links base_domain u.
Proof using Type.
  destruct (urls_to_visit st) as [|u rest] eqn:Hq.
  { unfold crawl_iter. rewrite Hq. by left. }
  destruct (decide (u ∈ visited_urls (self st))) as [Hvis | Hvis].
  { unfold crawl_iter. rewrite Hq. cbn [set_urls_to_visit self].
    rewrite bool_decide_eq_true_2 by done. by left. }
  destruct (crawl_iter_unfold base_domain st u rest Hq Hvis) as (s' & _ & ->).
  intros Hv%add_links_found_sub. cbn [found_urls] in Hv.
  apply elem_of_union in Hv as [Hv | Hv%elem_of_list_to_set]; [by left|].
  right. exists u. split; [by left|done].
Qed.

Lemma crawl_reaches_sound (base_domain root : string) (s : WebScraper)
    (st : CrawlState) :
  crawl_reaches base_domain (crawl_start s root) st →
  ∀ v, v ∈ found_urls st → reachable base_domain root v.
Proof using Type.
  intros Hr. induction Hr as [|st Hr IH Hguard]; intros v Hv.
  - cbn [crawl_start found_urls] in Hv.
    apply elem_of_singleton in Hv as ->. constructor.
  - pose proof (crawl_reaches_queue_inv _ _ _
      (crawl_start_queue_inv s root) Hr) as Hinv.
    apply crawl_iter_found in Hv as [Hv | (u & Hu & Hv)]; [by apply IH|].
    apply (reachable_link _ _ u); [|done].
    apply IH. by apply (queue_found _ Hinv).
Qed.

(** A link of a page is internal to the base domain, and a normal form. *)
Lemma page_links_valid (base_domain u v : string) :
  v ∈ page_links base_domain u →
  is_valid_url v base_domain = true ∧ ∃ w, normalize_url w = Some v.
Proof using list_of_set_perm.
  unfold page_links.
  destruct (session_get u 10) as [response|]; [|by intros []%elem_of_nil].
  destruct (raise_for_status response); [|by intros []%elem_of_nil].
  destruct (extract_links _ _ _) as [links|] eqn:Hl; [|by intros []%elem_of_nil].
  cbn [default]. intros Hv.
  apply extract_links_some in Hl as [_ Hl].
  apply Hl in Hv as (href & j & _ & _ & Hn & Hval). split; [done|by exists j].
Qed.

Lemma reachable_internal (base_domain root v : string) :
  reachable base_domain root v →
  v = root
  ∨ is_valid_url v base_domain = true ∧ ∃ w, normalize_url w = Some v.
Proof using list_of_set_perm.
  intros [|u w _ Hw]; [by left|]. right. by apply (page_links_valid _ u).
Qed.

(** X7: [crawl_site] raises exactly when the root URL cannot be
    normalized or its normal form cannot be parsed, whatever the network
    does; when it returns, the list has no duplicate and holds the normal
    form of the root. *)
Theorem crawl_site_outcome :
  ∀ (s : WebScraper) (root_url : string),
    (fst (crawl_site s root_url) = Raises ↔
     normalize_url root_url = None
     ∨ ∃ root, normalize_url root_url = Some root ∧ urlparse root = None)
    ∧ (∀ urls s',
          crawl_site s root_url = (Returns urls, s') →
          ∃ root, normalize_url root_url = Some root
                  ∧ root ∈ urls ∧ NoDup urls).
Proof using list_of_set_perm.
  intros s root_url. split.
  - pose proof (crawl_run_finishes s root_url) as Hfin.
    unfold crawl_site. unfold crawl_run in *.
    destruct (normalize_url root_url) as [root|]; [|split; [by left|done]].
    destruct (urlparse root) as [parsed|] eqn:Hparse.
    + destruct (crawl_loop _ _ _) as [st|]; [|by destruct Hfin].
      cbn [fst]. split; [done|].
      intros [? | (root' & [= <-] & ?)]; [done|congruence].
    + split; [|done]. intros _. right. by exists root.
  - intros urls s' (st & Hrun & -> & ->)%crawl_site_returns.
    apply crawl_run_reaches in Hrun as (root & parsed & Hn & _ & Hr & _).
    exists root. split; [done|]. split; [|apply NoDup_list_of_set].
    apply elem_of_list_of_set. apply (crawl_reaches_found_mono _ _ _ Hr).
    cbn [crawl_start found_urls]. by apply elem_of_singleton.
Qed.

(** What the crawl takes from a page are links of the page. *)
Lemma page_links_links_to (base_domain u v : string) :
  v ∈ page_links base_domain u → links_to base_domain u v.
Proof using list_of_set_perm.
  unfold page_links, links_to.
  destruct (session_get u 10) as [response|]; [|by intros []%elem_of_nil].
  destruct (raise_for_status response); [|by intros []%elem_of_nil].
  destruct (extract_links _ _ _) as [links|] eqn:Hl; [|by intros []%elem_of_nil].
  cbn [default]. intros Hv. exists response. split; [done|].
  apply extract_links_some in Hl as [_ Hl]. by apply Hl.
Qed.

Lemma reachable_in_site (base_domain root v : string) :
  reachable base_domain root v → site_reachable base_domain root v.
Proof using list_of_set_perm.
  induction 1 as [|u w _ IH Hw]; [constructor|].
  apply (site_link _ _ u); [done|]. by apply page_links_links_to.
Qed.

(** X8: every URL [crawl_site] returns is a page of the site reachable
    from the root: the root, or a page that an anchor of a reachable page
    leads to.  The quota and the visited set can make the crawl miss
    pages, never add one. *)
Theorem crawl_site_sound :
  ∀ (s s' : WebScraper) (root_url : string) (urls : list string),
    crawl_site s root_url = (Returns urls, s') →
    ∃ root parsed,
      normalize_url root_url = Some root
      ∧ urlparse root = Some parsed
      ∧ ∀ u, u ∈ urls → site_reachable (netloc parsed) root u.
Proof using list_of_set_perm.
  intros s s' root_url urls (st & Hrun & -> & ->)%crawl_site_returns.
  apply crawl_run_reaches in Hrun as (root & parsed & Hn & Hp & Hr & _).
  exists root, parsed. split; [done|]. split; [done|].
  intros u Hu%elem_of_list_of_set.
  by apply reachable_in_site, (crawl_reaches_sound _ _ s st).
Qed.

(** X9: the crawl stays on the site: every URL [crawl_site] returns,
    the root apart, is a value of [normalize_url] that [is_valid_url]
    accepts for the network location of the root. *)
Theorem crawl_site_internal :
  ∀ (s s' : WebScraper) (root_url : string) (urls : list string),
    crawl_site s root_url = (Returns urls, s') →
    ∃ root parsed,
      normalize_url root_url = Some root
      ∧ urlparse root = Some parsed
      ∧ ∀ u, u ∈ urls →
             u = root
             ∨ is_valid_url u (netloc parsed) = true
               ∧ ∃ w, normalize_url w = Some u.
Proof using list_of_set_perm.
  intros s s' root_url urls (st & Hrun & -> & ->)%crawl_site_returns.
  apply crawl_run_reaches in Hrun as (root & parsed & Hn & Hp & Hr & _).
  exists root, parsed. split; [done|]. split; [done|].
  intros u Hu%elem_of_list_of_set. apply reachable_internal.
  by apply (crawl_reaches_sound _ _ s st).
Qed.

(** ** [crawl_site]: the requests of the crawl *)

(** The request of the crawl for [url] succeeds: [session.get] returns
    and [raise_for_status] accepts the response. *)
Definition fetch_ok (url : string) : Prop :=
  ∃ response, session_get url 10 = Some response
              ∧ raise_for_status response = true.

Lemma add_links_fetched (links : list string) (st : CrawlState) :
  fetched (foldl add_link st links) = fetched st.
Proof using Type.
  revert st. induction links as [|l links IH]; intros st; simpl; [done|].
  rewrite IH. unfold add_link. by case_match.
Qed.

Lemma NoDup_length_size (l : list string) (X : gset string) :
  NoDup l → (∀ x, x ∈ l → x ∈ X) → (length l ≤ size X)%nat.
Proof using Type.
  intros Hnd Hsub. rewrite <- (size_list_to_set (C:=gset string) l Hnd).
  apply subseteq_size. intros x Hx%elem_of_list_to_set. by apply Hsub.
Qed.

(** The requests sent so far are fewer than the quota. *)
Definition budget_inv (st : CrawlState) : Prop :=
  fetched st = [] ∨ Z.of_nat (length (fetched st)) < max_pages (self st).

Lemma crawl_iter_budget (base_domain : string) (st : CrawlState) :
  queue_inv st → budget_inv st → crawl_guard st = true →
  budget_inv (crawl_iter base_domain st).
Proof using Type.
  intros Hinv Hb Hguard. unfold crawl_guard in Hguard.
  apply andb_true_iff in Hguard as [_ Hroom%Z.ltb_lt].
  destruct (urls_to_visit st) as [|u rest] eqn:Hq.
  { unfold crawl_iter. by rewrite Hq. }
  destruct (decide (u ∈ visited_urls (self st))) as [Hvis | Hvis].
  { unfold crawl_iter. rewrite Hq. cbn [set_urls_to_visit self].
    by rewrite bool_decide_eq_true_2. }
  destruct (crawl_iter_unfold base_domain st u rest Hq Hvis) as (s' & Hs' & ->).
  right. rewrite add_links_fetched, add_links_self. cbn [fetched self].
  assert (max_pages s' = max_pages (self st)) as -> by by destruct Hs' as [-> | ->].
  assert (length (fetched st ++ [u]) ≤ size (found_urls st))%nat; [|lia].
  destruct Hinv as [_ Hqf Hfnd Hfd]. apply NoDup_length_size.
  - apply NoDup_app. split; [done|]. split; [|apply NoDup_singleton].
    intros x Hx ->%list_elem_of_singleton.
    destruct (Hfd u Hx) as [_ Hnq]. apply Hnq. rewrite Hq. by left.
  - intros x [Hx | ->%list_elem_of_singleton]%elem_of_app.
    + by destruct (Hfd x Hx).
    + apply Hqf. rewrite Hq. by left.
Qed.

(** The visited set is the set the crawl started with and the pages
    whose request succeeded; no request goes to a page of the set the
    crawl started with. *)
Record visited_inv (visited0 : gset string) (st : CrawlState) : Prop := {
  visited_log : ∀ u, u ∈ visited_urls (self st) ↔
                     u ∈ visited0 ∨ (u ∈ fetched st ∧ fetch_ok u);
  fetched_fresh : ∀ u, u ∈ fetched st → u ∉ visited0
}.

Lemma crawl_iter_visited_inv (base_domain : string) (visited0 : gset string)
    (st : CrawlState) :
  visited_inv visited0 st → visited_inv visited0 (crawl_iter base_domain st).
Proof using Type.
  intros [Hlog Hfresh]. unfold crawl_iter.
  destruct (urls_to_visit st) as [|u rest]; [done|].
  cbn [set_urls_to_visit self].
  destruct (bool_decide (u ∈ visited_urls (self st))) eqn:Hvis; [done|].
  apply bool_decide_eq_false in Hvis.
  assert (Hu0 : u ∉ visited0).
  { intros Hu. apply Hvis, Hlog. by left. }
  assert (Hfresh' : ∀ w, w ∈ fetched st ++ [u] → w ∉ visited0).
  { intros w [Hw | ->%list_elem_of_singleton]%elem_of_app; [by apply Hfresh|done]. }
  assert (Hfail : ¬ fetch_ok u → visited_inv visited0
            (log_fetch u {| urls_to_visit := rest; found_urls := found_urls st;
                            self := self st; fetched := fetched st;
                            discovery := discovery st |})).
  { intros Hno. split; cbn [log_fetch self fetched]; [|done].
    intros w. rewrite Hlog. split.
    - intros [? | [Hw Hok]]; [by left|]. right. split; [|done].
      apply elem_of_app. by left.
    - intros [? | [[Hw | ->%list_elem_of_singleton]%elem_of_app Hok]];
        [by left|by right|done]. }
  destruct (session_get u 10) as [response|] eqn:Hget.
  2: { apply Hfail. intros (r & Hr & _). congruence. }
  destruct (raise_for_status response) eqn:Hstatus; cbn [negb].
  2: { apply Hfail. intros (r & Hr & Hok). congruence. }
  assert (Hok : visited_inv visited0
            (set_self
               (visited_add u (self (log_fetch u (set_urls_to_visit rest st))))
               (log_fetch u (set_urls_to_visit rest st)))).
  { split; cbn [set_self log_fetch set_urls_to_visit self fetched visited_add
                visited_urls]; [|done].
    intros w. rewrite elem_of_union, elem_of_singleton, Hlog. split.
    - intros [-> | [? | [Hw Hok]]].
      + right. split; [apply elem_of_app; right; by apply list_elem_of_singleton|].
        by exists response.
      + by left.
      + right. split; [|done]. apply elem_of_app. by left.
    - intros [? | [[Hw | ->%list_elem_of_singleton]%elem_of_app Hok]].
      + right. by left.
      + right. by right.
      + by left. }
  destruct (extract_links _ _ _) as [links|]; [|exact Hok].
  destruct Hok as [Hlog' Hfresh'']. split.
  - intros w. by rewrite add_links_self, add_links_fetched.
  - intros w. rewrite add_links_fetched. apply Hfresh''.
Qed.

Lemma crawl_start_visited_inv (s : WebScraper) (root : string) :
  visited_inv (visited_urls s) (crawl_start s root).
Proof using Type.
  split; cbn [crawl_start self fetched].
  - intros u. split; [by left|]. by intros [? | [[]%elem_of_nil _]].
  - by intros u []%elem_of_nil.
Qed.

Lemma crawl_reaches_requests (base_domain root : string) (s : WebScraper)
    (st : CrawlState) :
  crawl_reaches base_domain (crawl_start s root) st →
  queue_inv st ∧ budget_inv st ∧ visited_inv (visited_urls s) st
  ∧ max_pages (self st) = max_pages s.
Proof using Type.
  induction 1 as [|st Hr (Hq & Hb & Hv & Hm) Hguard].
  - split; [apply crawl_start_queue_inv|]. split; [by left|].
    split; [apply crawl_start_visited_inv|done].
  - split; [by apply crawl_iter_queue_inv|].
    split; [by apply crawl_iter_budget|].
    split; [by apply crawl_iter_visited_inv|].
    pose proof (crawl_iter_config base_domain st) as Hc.
    unfold config in Hc. by injection Hc as -> _ _.
Qed.

(** X10: the crawl sends fewer than [max_pages] requests, each to a URL
    of the list it returns, none to a URL that was in the visited set
    when the crawl began. *)
Theorem crawl_site_requests :
  ∀ (s : WebScraper) (root_url : string) (st : CrawlState),
    crawl_run s root_url = Returns st →
    (fetched st = [] ∨ Z.of_nat (length (fetched st)) < max_pages s)
    ∧ ∀ u, u ∈ fetched st → u ∈ found_urls st ∧ u ∉ visited_urls s.
Proof using Type.
  intros s root_url st (root & parsed & _ & _ & Hr & _)%crawl_run_reaches.
  apply crawl_reaches_requests in Hr as (Hq & Hb & Hv & Hm).
  split; [by rewrite <- Hm|]. intros u Hu. split.
  - by destruct (fetched_done _ Hq u Hu).
  - by apply (fetched_fresh _ _ Hv).
Qed.

(** X11: after a crawl the visited set holds what it held before and
    the pages whose request succeeded; a page whose request failed is not
    marked as visited. *)
Theorem crawl_site_visited_log :
  ∀ (s : WebScraper) (root_url : string) (st : CrawlState),
    crawl_run s root_url = Returns st →
    snd (crawl_site s root_url) = self st
    ∧ ∀ u, u ∈ visited_urls (self st) ↔
           u ∈ visited_urls s ∨ (u ∈ fetched st ∧ fetch_ok u).
Proof using Type.
  intros s root_url st Hrun. split; [unfold crawl_site; by rewrite Hrun|].
  apply crawl_run_reaches in Hrun as (root & parsed & _ & _ & Hr & _).
  apply crawl_reaches_requests in Hr as (_ & _ & Hv & _).
  apply (visited_log _ _ Hv).
Qed.

Lemma crawl_loop_guard_false (fuel : nat) (base_domain : string) (st : CrawlState) :
  crawl_guard st = false → crawl_loop fuel base_domain st = Some st.
Proof using Type. intros Hg. destruct fuel; cbn [crawl_loop]; by rewrite Hg. Qed.

Lemma crawl_run_root_only (s : WebScraper) (root_url root : string)
    (parsed : ParseResult) :
  normalize_url root_url = Some root →
  urlparse root = Some parsed →
  max_pages s ≤ 1 ∨ root ∈ visited_urls s →
  ∃ st, crawl_run s root_url = Returns st
        ∧ fetched st = [] ∧ found_urls st = {[root]} ∧ self st = s.
Proof using Type.
  intros Hn Hp Hcase. unfold crawl_run. rewrite Hn, Hp.
  destruct (crawl_guard (crawl_start s root)) eqn:Hguard.
  - unfold crawl_guard in Hguard. cbn [crawl_start found_urls self] in Hguard.
    apply andb_true_iff in Hguard as [_ Hroom%Z.ltb_lt].
    rewrite (size_singleton (C:=gset string)) in Hroom.
    destruct Hcase as [Hle | Hvis]; [lia|].
    unfold crawl_fuel. destruct (Z.to_nat (max_pages s)) as [|fuel] eqn:Hfuel; [lia|].
    cbn [crawl_loop].
    assert (Hg : crawl_guard (crawl_start s root) = true).
    { unfold crawl_guard. cbn [crawl_start urls_to_visit found_urls self].
      rewrite (size_singleton (C:=gset string)).
      apply andb_true_iff. split; [done|]. by apply Z.ltb_lt. }
    rewrite Hg.
    assert (Hiter : crawl_iter (netloc parsed) (crawl_start s root)
                    = set_urls_to_visit [] (crawl_start s root)).
    { unfold crawl_iter. cbn [crawl_start urls_to_visit set_urls_to_visit self].
      by rewrite bool_decide_eq_true_2. }
    rewrite Hiter, crawl_loop_guard_false by done. by eexists.
  - rewrite crawl_loop_guard_false by done. by eexists.
Qed.


(** ** [extract_content] *)

Lemma title_chain_some (html url extracted : string) :
  is_Some (title_chain html url extracted) ↔
  is_Some (yields (headline_title html))
  ∨ is_Some (yields (heading_title extracted))
  ∨ is_Some (urlparse url).
Proof using Type.
  unfold title_chain, url_title.
  destruct (yields (headline_title html)) as [t1|]; [by split; eauto|].
  destruct (yields (heading_title extracted)) as [t2|]; [by split; eauto|].
  destruct (urlparse url) as [parsed|]; cbn [mbind option_bind].
  - split; eauto.
  - split; [by intros [? ?]|].
    by intros [[? ?] | [[? ?] | [? ?]]].
Qed.

(** X13: [extract_content] returns a record exactly when the request
    succeeds, the extractor gives a non-empty Markdown text, and a title
    can be computed: an element or a Markdown heading yields one, or the
    URL parses.  In every other case it returns [None]. *)
Theorem extract_content_returns :
  ∀ url : string,
    is_Some (extract_content url) ↔
    ∃ response extracted,
      session_get url 15 = Some response
      ∧ raise_for_status response = true
      ∧ trafilatura_extract (text response) = Some extracted
      ∧ extracted ≠ EmptyString
      ∧ (is_Some (yields (first_headline (text response)))
         ∨ is_Some (yields (first_heading extracted))
         ∨ is_Some (urlparse url)).
Proof using Type.
  intros url. setoid_rewrite <- headline_title_first.
  setoid_rewrite <- heading_title_first. unfold extract_content.
  destruct (session_get url 15) as [response|].
  2: { split; [by intros [? ?]|]. by intros (? & ? & ? & _). }
  destruct (raise_for_status response) eqn:Hstatus; cbn [negb].
  2: { split; [by intros [? ?]|].
       intros (r & ? & [= <-] & ? & _). congruence. }
  destruct (trafilatura_extract (text response)) as [extracted|] eqn:Hex.
  2: { split; [by intros [? ?]|].
       intros (r & ? & [= <-] & _ & ? & _). congruence. }
  destruct (Py.truthy extracted) eqn:Htr; cbn [negb].
  2: { split; [by intros [? ?]|].
       intros (r & e & [= <-] & _ & He & Hne & _).
       rewrite Hex in He. injection He as <-.
       by apply truthy_false in Htr. }
  rewrite resolve_title_chain.
  pose proof (title_chain_some (text response) url extracted) as Hchain.
  destruct (title_chain (text response) url extracted) as [t|];
    cbn [mbind option_bind].
  - split; [|by eauto]. intros _. exists response, extracted.
    split; [done|]. split; [done|]. split; [done|].
    split; [by apply truthy_spec|]. apply Hchain. by eauto.
  - split; [by intros [? ?]|].
    intros (r & e & [= <-] & _ & He & _ & Ht).
    rewrite Hex in He. injection He as <-.
    apply Hchain in Ht as [? ?]. done.
Qed.

Lemma select_title_first (pre post : list string) (sel html t : string) :
  (∀ s, s ∈ pre → soup_select_one html s = None) →
  soup_select_one html sel = Some t →
  select_title (pre ++ sel :: post) html = Some (Py.strip t).
Proof using Type.
  intros Hpre Hsel. induction pre as [|s pre IH]; cbn [app select_title].
  - by rewrite Hsel.
  - rewrite (Hpre s) by by left. apply IH. intros s' Hs'. apply Hpre. by right.
Qed.

(** X14: the title comes from the first selector of the list that finds
    an element, whatever the later selectors find.  When the text of that
    element is blank, the title is taken from the Markdown heading or the
    URL: an empty [h1] hides the [title] element of the page. *)
Theorem title_first_selector :
  ∀ (html url extracted sel t : string) (pre post : list string),
    title_selectors = pre ++ sel :: post →
    (∀ s, s ∈ pre → soup_select_one html s = None) →
    soup_select_one html sel = Some t →
    first_headline html = Some (Py.strip t)
    ∧ (Py.strip t ≠ EmptyString →
       resolve_title html url extracted = Some (Py.strip t))
    ∧ (Py.strip t = EmptyString →
       resolve_title html url extracted
       = match yields (first_heading extracted) with
         | Some heading => Some heading
         | None => humanized_segment url
         end).
Proof using Type.
  intros html url extracted sel t pre post Hsels Hpre Hsel.
  rewrite <- headline_title_first, <- heading_title_first,
    <- url_title_humanized.
  assert (Hhead : headline_title html = Some (Py.strip t)).
  { unfold headline_title. rewrite Hsels. by apply select_title_first. }
  split; [done|]. rewrite resolve_title_chain. unfold title_chain.
  rewrite Hhead. cbn [yields]. split.
  - intros Hne. by destruct (Py.strip t).
  - by intros ->.
Qed.

Lemma lstrip_idem (p : ascii → bool) (s : string) :
  Py.lstrip p (Py.lstrip p s) = Py.lstrip p s.
Proof using Type.
  induction s as [|a s IH]; [done|]. cbn [Py.lstrip].
  destruct (p a) eqn:Ha; [done|]. cbn [Py.lstrip]. by rewrite Ha.
Qed.

Lemma rstrip_fixed_tail (p : ascii → bool) (a : ascii) (s : string) :
  Py.rstrip p (String a s) = String a s → Py.rstrip p s = s.
Proof using Type.
  cbn [Py.rstrip]. destruct (Py.rstrip p s) as [|b r] eqn:Hr.
  - destruct (p a); [done|]. by intros [= <-].
  - by intros [= <-].
Qed.

Lemma rstrip_lstrip (p : ascii → bool) (s : string) :
  Py.rstrip p s = s → Py.rstrip p (Py.lstrip p s) = Py.lstrip p s.
Proof using Type.
  induction s as [|a s IH]; [done|]. intros Hs. cbn [Py.lstrip].
  destruct (p a); [|done]. by apply IH, (rstrip_fixed_tail p a).
Qed.

Lemma strip_idem (s : string) : Py.strip (Py.strip s) = Py.strip s.
Proof using Type.
  unfold Py.strip. rewrite rstrip_lstrip by apply rstrip_idem.
  apply lstrip_idem.
Qed.

Lemma select_title_stripped (selectors : list string) (html t : string) :
  select_title selectors html = Some t → Py.strip t = t.
Proof using Type.
  induction selectors as [|s selectors IH]; [done|]. cbn [select_title].
  destruct (soup_select_one html s); [|done].
  intros [= <-]. apply strip_idem.
Qed.

Lemma markdown_title_stripped (lines : list string) (t : string) :
  markdown_title lines None = Some t → Py.strip t = t.
Proof using Type.
  induction lines as [|line lines IH]; [done|]. cbn [markdown_title].
  destruct (Py.startswith line "# "); [|done].
  intros [= <-]. apply strip_idem.
Qed.

(** X15: a title that [extract_content] takes from an element of the
    page or from a Markdown heading has no white space at either end:
    stripping it again leaves it as it is. *)
Theorem extract_content_title_stripped :
  ∀ (url : string) (record : ExtractionRecord) (response : Response),
    extract_content url = Some record →
    session_get url 15 = Some response →
    is_Some (yields (first_headline (text response)))
    ∨ is_Some (yields (first_heading (content record))) →
    Py.strip (title record) = title record.
Proof using Type.
  intros url record response. rewrite <- headline_title_first.
  rewrite <- heading_title_first. unfold extract_content.
  intros Hrec Hget. rewrite Hget in Hrec.
  destruct (raise_for_status response); cbn [negb] in Hrec; [|done].
  destruct (trafilatura_extract (text response)) as [extracted|]; [|done].
  destruct (Py.truthy extracted); cbn [negb] in Hrec; [|done].
  rewrite resolve_title_chain in Hrec.
  destruct (title_chain (text response) url extracted) as [t|] eqn:Hchain;
    cbn [mbind option_bind] in Hrec; [|done].
  injection Hrec as <-. cbn [title content].
  unfold title_chain in Hchain.
  destruct (yields (headline_title (text response))) as [t1|] eqn:H1.
  { intros _. injection Hchain as <-. apply yields_truthy in H1 as [H1 _].
    by apply (select_title_stripped title_selectors (text response)). }
  destruct (yields (heading_title extracted)) as [t2|] eqn:H2.
  { intros _. injection Hchain as <-. apply yields_truthy in H2 as [H2 _].
    by apply (markdown_title_stripped (Py.split "010" extracted)). }
  by intros [[? ?] | [? ?]].
Qed.

(** ** [scrape_site] *)

Lemma scrape_site_returns_inv (s s' : WebScraper) (url : string)
    (result : ScrapeResult) :
  scrape_site s url = (Returns result, s') →
  ∃ normalized_url st,
    normalize_url url = Some normalized_url
    ∧ crawl_run s normalized_url = Returns st
    ∧ s' = self st
    ∧ result = build_output normalized_url
                 (omap extract_content (list_of_set (found_urls st))).
Proof using Type.
  unfold scrape_site. destruct (normalize_url url) as [n|]; [|done].
  unfold crawl_site. destruct (crawl_run s n) as [st| |] eqn:Hrun; [|done..].
  destruct (extract_all _ _ _) as [its|] eqn:Hall; [|done].
  intros [= <- <-]. exists n, st.
  apply extract_all_spec in Hall. cbn [app] in Hall. by subst its.
Qed.

Lemma crawl_run_quota (s : WebScraper) (root_url : string) (st : CrawlState) :
  crawl_run s root_url = Returns st →
  Z.of_nat (size (found_urls st)) ≤ quota s.
Proof using Type.
  intros (root & parsed & _ & _ & Hr & _)%crawl_run_reaches.
  pose proof (crawl_reaches_within_quota _ _ _
                (crawl_start_within_quota s root) Hr) as Hq.
  apply crawl_reaches_config in Hr. unfold within_quota, quota, config in *.
  cbn [crawl_start self] in Hr. injection Hr as Hm _ _. by rewrite <- Hm.
Qed.

Lemma detect_content_type_url (url title content title' content' : string) :
  detect_content_type url title content
  = detect_content_type url title' content'.
Proof using Type. reflexivity. Qed.

Lemma extract_content_record (url : string) (record : ExtractionRecord) :
  extract_content url = Some record →
  source_url record = url
  ∧ content record ≠ EmptyString
  ∧ content_type record
    = detect_content_type url EmptyString EmptyString.
Proof using Type.
  unfold extract_content.
  destruct (session_get url 15) as [response|]; [|done].
  destruct (raise_for_status response); cbn [negb]; [|done].
  destruct (trafilatura_extract (text response)) as [extracted|]; [|done].
  destruct (Py.truthy extracted) eqn:Htr; cbn [negb]; [|done].
  destruct (resolve_title _ _ _) as [t|]; cbn [mbind option_bind]; [|done].
  intros [= <-]. cbn [source_url content content_type].
  split; [done|]. split; [by apply truthy_spec|].
  apply detect_content_type_url.
Qed.

(** X16: the items of the document [scrape_site] returns: there are at
    most [max(1, max_pages)] of them, no two for the same URL, and each
    is the record [extract_content] gives for a URL that the crawl
    returned, with a content that is not empty and a content type that
    depends on that URL alone. *)
Theorem scrape_site_items :
  ∀ (s s' : WebScraper) (url : string) (result : ScrapeResult),
    scrape_site s url = (Returns result, s') →
    Z.of_nat (length (items result)) ≤ quota s
    ∧ NoDup (source_url <$> items result)
    ∧ ∃ urls,
        crawl_site s (site result) = (Returns urls, s')
        ∧ ∀ item, item ∈ items result →
                  source_url item ∈ urls
                  ∧ extract_content (source_url item) = Some item
                  ∧ content item ≠ EmptyString
                  ∧ content_type item
                    = detect_content_type (source_url item)
                        EmptyString EmptyString.
Proof using list_of_set_perm.
  intros s s' url result (n & st & Hn & Hrun & -> & ->)%scrape_site_returns_inv.
  cbn [build_output items site]. split; [|split].
  - pose proof (omap_length_le extract_content (list_of_set (found_urls st))) as Hle.
    rewrite list_of_set_length in Hle.
    pose proof (crawl_run_quota _ _ _ Hrun). lia.
  - rewrite omap_extract_sources. apply NoDup_filter, NoDup_list_of_set.
  - exists (list_of_set (found_urls st)).
    split; [unfold crawl_site; by rewrite Hrun|].
    intros item (u & Hu & Hrec)%list_elem_of_omap.
    destruct (extract_content_record _ _ Hrec) as (Hsrc & Hc & Hty).
    rewrite Hsrc. done.
Qed.

Lemma crawl_site_config_delay (s : WebScraper) (root_url : string) :
  delay (snd (crawl_site s root_url)) = delay s.
Proof using Type.
  pose proof (crawl_site_config s root_url) as Hc. unfold config in Hc.
  by injection Hc as _ -> _.
Qed.

Lemma crawl_site_nonempty (s s' : WebScraper) (root_url : string)
    (urls : list string) :
  crawl_site s root_url = (Returns urls, s') → urls ≠ [].
Proof using list_of_set_perm.
  intros (st & Hrun & -> & ->)%crawl_site_returns.
  apply crawl_run_reaches in Hrun as (root & parsed & _ & _ & Hr & _).
  assert (Hroot : root ∈ list_of_set (found_urls st)).
  { apply elem_of_list_of_set, (crawl_reaches_found_mono _ _ _ Hr).
    cbn [crawl_start found_urls]. by apply elem_of_singleton. }
  intros Hnil. rewrite Hnil in Hroot. by apply elem_of_nil in Hroot.
Qed.

Lemma crawl_site_finishes (s : WebScraper) (root_url : string) :
  fst (crawl_site s root_url) ≠ OutOfFuel.
Proof using Type.
  pose proof (crawl_run_finishes s root_url) as Hfin. unfold crawl_site.
  by destruct (crawl_run s root_url).
Qed.

Lemma scrape_site_sleeps (s : WebScraper) (url : string) :
  time_sleep (delay s) = false → fst (scrape_site s url) = Raises.
Proof using list_of_set_perm.
  intros Hsleep. unfold scrape_site.
  destruct (normalize_url url) as [n|]; [|done].
  pose proof (crawl_site_finishes s n) as Hfin.
  pose proof (crawl_site_config_delay s n) as Hdelay.
  destruct (crawl_site s n) as [[urls| |] s1] eqn:Hcrawl; [|done..].
  cbn [snd] in Hdelay.
  apply crawl_site_nonempty in Hcrawl.
  destruct urls as [|u urls]; [done|]. cbn [extract_all].
  by rewrite Hdelay, Hsleep.
Qed.

(** X17: with a negative [delay], [scrape_site] raises on every URL:
    the crawl catches the [ValueError] of [time.sleep], the extraction
    loop does not, and the crawl always returns a URL to extract. *)
Theorem scrape_site_negative_delay :
  ∀ (s : WebScraper) (url : string),
    time_sleep (delay s) = false →
    fst (scrape_site s url) = Raises.
Proof using list_of_set_perm. exact scrape_site_sleeps. Qed.

(** ** [scrape_site] and [main] on a URL without brackets *)






(** ** [main]: exit status and output file *)

(** X20: [main] ends with status 0 or 1, and with 0 only after it wrote
    a document; when every line can be printed, it ends with 0 exactly
    when it wrote one.  A document it wrote is the one [scrape_site]
    returned for the URL of the command line, under a name that is not
    empty. *)
Theorem main_exit_status :
  ∀ argv : list string,
    (exit_status (main argv) = 0 ∨ exit_status (main argv) = 1)
    ∧ (exit_status (main argv) = 0 → is_Some (written (main argv)))
    ∧ ((∀ line, print line = true) →
       is_Some (written (main argv)) → exit_status (main argv) = 0)
    ∧ ∀ file result,
        written (main argv) = Some (file, result) →
        file ≠ EmptyString
        ∧ write_json file result = true
        ∧ ∃ url, argv !! 1%nat = Some url
                 ∧ fst (scrape_site (init (default default_max_pages
                                             (max_pages_arg argv))
                                       default_delay) url)
                   = Returns result
                 ∧ normalize_url url = Some (site result).
Proof using Type.
  intros argv.
  assert (Hfail : ∀ r, r = exited 1 →
            (exit_status r = 0 ∨ exit_status r = 1)
            ∧ (exit_status r = 0 → is_Some (written r))
            ∧ ((∀ line, print line = true) →
               is_Some (written r) → exit_status r = 0)
            ∧ ∀ file result,
                written r = Some (file, result) →
                file ≠ EmptyString
                ∧ write_json file result = true
                ∧ ∃ url, argv !! 1%nat = Some url
                         ∧ fst (scrape_site (init (default default_max_pages
                                                     (max_pages_arg argv))
                                               default_delay) url)
                           = Returns result
                         ∧ normalize_url url = Some (site result)).
  { intros r ->. cbn [exited exit_status written]. split; [by right|].
    split; [done|]. split; [by intros _ [? ?]|]. done. }
  unfold main.
  destruct (length argv <? 2)%nat;
    [destruct (forallb print usage); by apply Hfail|].
  destruct (argv !! 1%nat) as [url|]; [|by apply Hfail].
  destruct (max_pages_arg argv) as [n|]; [|by apply Hfail].
  destruct (output_file_arg argv url) as [out|] eqn:Hout; [|by apply Hfail].
  destruct (negb _) eqn:Hp1; [by apply Hfail|].
  destruct (scrape_site (init n default_delay) url) as [[result| |] s'] eqn:Hs;
    cbn [fst]; [|by apply Hfail..].
  destruct (write_json out result) eqn:Hw; [|by apply Hfail].
  assert (Hdoc : ∀ file res,
            Some (out, result) = Some (file, res) →
            file ≠ EmptyString
            ∧ write_json file res = true
            ∧ ∃ url0, Some url = Some url0
                      ∧ fst (scrape_site (init (default default_max_pages (Some n))
                                            default_delay) url0)
                        = Returns res
                      ∧ normalize_url url0 = Some (site res)).
  { intros file res [= <- <-]. split; [|split; [done|]].
    - unfold output_file_arg in Hout.
      destruct (argv !! 2%nat) as [o|]; cbn [is_falsy] in Hout.
      + destruct o as [|c o]; cbn [Py.truthy negb] in Hout.
        * destruct (urlparse url) as [parsed|]; [|done].
          cbn [mbind option_bind] in Hout. injection Hout as <-.
          by destruct (Py.replace _ _ _).
        * by injection Hout as <-.
      + destruct (urlparse url) as [parsed|]; [|done].
        cbn [mbind option_bind] in Hout. injection Hout as <-.
        by destruct (Py.replace _ _ _).
    - exists url. split; [done|].
      change (default default_max_pages (Some n)) with n.
      rewrite Hs. split; [done|].
      apply scrape_site_returns_inv in Hs as (nu & st & Hn & _ & _ & ->). done. }
  clear Hp1.
  destruct (print _ && print _) eqn:Hp2; cbn [exit_status written].
  - split; [by left|]. split; [by eauto|]. split; [done|]. exact Hdoc.
  - split; [by right|]. split; [done|]. split; [|exact Hdoc].
    intros Hprint _. by rewrite !Hprint in Hp2.
Qed.

Lemma urlparse_schemeless (c : ascii) (rest : string) :
  Py.isalpha c = true →
  Py.has_char ":" (String c rest) = false →
  ∃ parsed, urlparse (String c rest) = Some parsed
            ∧ netloc parsed = EmptyString.
Proof using Type.
  intros Hc Hcolon. unfold urlparse, urlsplit.
  assert (Hcode : (65 <= Py.code c)%N).
  { unfold Py.isalpha, Py.isupper, Py.islower in Hc.
    apply orb_true_iff in Hc as [Hc | Hc];
      apply andb_true_iff in Hc as [Hc%N.leb_le _]; lia. }
  assert (Hstrip : Py.lstrip c0_control_or_space (String c rest) = String c rest).
  { cbn [Py.lstrip]. unfold c0_control_or_space.
    destruct (Py.code c <=? 32)%N eqn:Hle; [|done].
    apply N.leb_le in Hle. lia. }
  rewrite Hstrip.
  assert (Hne : ∀ d, (Py.code d < 65)%N → Ascii.eqb c d = false).
  { intros d Hd. apply Ascii.eqb_neq. intros ->. lia. }
  assert (Hrm : remove_unsafe_bytes (String c rest)
                = String c (remove_unsafe_bytes rest)).
  { unfold remove_unsafe_bytes. cbn [Py.remove_char].
    rewrite (Hne "009"%char) by (vm_compute; reflexivity). cbn [Py.remove_char].
    rewrite (Hne "013"%char) by (vm_compute; reflexivity). cbn [Py.remove_char].
    by rewrite (Hne "010"%char) by (vm_compute; reflexivity). }
  rewrite Hrm.
  assert (Hcolon' : Py.has_char ":" (String c (remove_unsafe_bytes rest)) = false).
  { rewrite <- Hrm. by apply has_char_remove_unsafe. }
  assert (Hscheme : split_scheme (String c (remove_unsafe_bytes rest))
                    = (EmptyString, String c (remove_unsafe_bytes rest))).
  { unfold split_scheme, Py.find. cbn [Py.drop].
    apply index_of_none in Hcolon'. by rewrite Hcolon'. }
  rewrite Hscheme. unfold split_components, split_authority.
  assert (Hstart : Py.startswith (String c (remove_unsafe_bytes rest)) "//" = false).
  { cbn [Py.startswith]. by rewrite (Hne "/"%char) by (vm_compute; reflexivity). }
  rewrite Hstart. cbn [mbind option_bind].
  destruct (split_fragment _) as [r f]. destruct (split_query r) as [p q].
  cbn [mbind option_bind sr_scheme sr_path sr_netloc].
  destruct (if _ && _ then _ else _) as [p' pa]. by eexists.
Qed.

(** X21: when the URL of the command line has no scheme -- it starts with
    a letter and holds no colon, as [interviewing.io] in the usage text --
    and no output file is given, [main] names the file after the network
    location of the URL as given, which is empty: the document goes to
    ["_scraped.json"]. *)
Theorem main_default_file_schemeless :
  ∀ (prog rest : string) (c : ascii) (result : ScrapeResult),
    Py.isalpha c = true →
    Py.has_char ":" (String c rest) = false →
    output_file_arg [prog; String c rest] (String c rest) = Some "_scraped.json"
    ∧ (fst (scrape_site (init default_max_pages default_delay) (String c rest))
       = Returns result →
       (∀ line, print line = true) →
       write_json "_scraped.json" result = true →
       main [prog; String c rest]
       = {| exit_status := 0; written := Some ("_scraped.json", result) |}).
Proof using Type.
  intros prog rest c result Hc Hcolon.
  destruct (urlparse_schemeless c rest Hc Hcolon) as (parsed & Hparse & Hnet).
  assert (Hout : output_file_arg [prog; String c rest] (String c rest)
                 = Some "_scraped.json").
  { unfold output_file_arg. cbn [lookup list_lookup is_falsy].
    rewrite Hparse. cbn [mbind option_bind]. by rewrite Hnet. }
  split; [done|]. intros Hscrape Hprint Hwrite.
  unfold main, max_pages_arg.
  cbn [length Nat.ltb Nat.leb lookup list_lookup]. rewrite Hout.
  rewrite !Hprint. cbn [andb negb]. by rewrite Hscrape, Hwrite, !Hprint.
Qed.

(** ** A scraper used twice *)

Lemma crawl_iter_fetched_mono (base_domain : string) (st : CrawlState) (u : string) :
  u ∈ fetched st → u ∈ fetched (crawl_iter base_domain st).
Proof using Type.
  intros Hu. destruct (urls_to_visit st) as [|v rest] eqn:Hq.
  { unfold crawl_iter. by rewrite Hq. }
  destruct (decide (v ∈ visited_urls (self st))) as [Hvis | Hvis].
  { unfold crawl_iter. rewrite Hq. cbn [set_urls_to_visit self].
    by rewrite bool_decide_eq_true_2. }
  destruct (crawl_iter_unfold base_domain st v rest Hq Hvis) as (s' & _ & ->).
  rewrite add_links_fetched. cbn [fetched]. apply elem_of_app. by left.
Qed.

(** Once the loop has run a round, the root was requested, unless the
    scraper had visited it before. *)
Lemma crawl_reaches_root (base_domain root : string) (s : WebScraper)
    (st : CrawlState) :
  crawl_reaches base_domain (crawl_start s root) st →
  st = crawl_start s root ∨ root ∈ fetched st ∨ root ∈ visited_urls s.
Proof using Type.
  induction 1 as [|st Hr IH Hguard]; [by left|]. right.
  destruct IH as [-> | [Hf | Hv]]; [|left; by apply crawl_iter_fetched_mono|by right].
  destruct (decide (root ∈ visited_urls s)) as [Hvis | Hvis]; [by right|]. left.
  destruct (crawl_iter_unfold base_domain (crawl_start s root) root [] eq_refl Hvis)
    as (s' & _ & ->).
  rewrite add_links_fetched. cbn [fetched crawl_start app].
  by apply list_elem_of_singleton.
Qed.

Lemma crawl_run_visits_root (s : WebScraper) (root_url root : string)
    (st : CrawlState) :
  1 < max_pages s →
  normalize_url root_url = Some root →
  crawl_run s root_url = Returns st →
  fetch_ok root →
  root ∈ visited_urls (self st).
Proof using Type.
  intros Hmax Hn Hrun Hok.
  apply crawl_run_reaches in Hrun as (root' & parsed & Hn' & _ & Hr & Hguard).
  rewrite Hn in Hn'. injection Hn' as <-.
  pose proof (crawl_reaches_requests _ _ _ _ Hr) as (_ & _ & Hv & _).
  apply (visited_log _ _ Hv).
  destruct (crawl_reaches_root _ _ _ _ Hr) as [-> | [Hf | Hvis]];
    [|by right|by left].
  unfold crawl_guard in Hguard. cbn [crawl_start urls_to_visit found_urls self] in Hguard.
  rewrite (size_singleton (C:=gset string)) in Hguard.
  apply andb_false_iff in Hguard as [Hguard | Hguard%Z.ltb_ge]; [done|lia].
Qed.

(** X22: a scraper does not scrape a site twice.  After [scrape_site]
    has returned for a URL whose root page could be requested, a second
    call on the same scraper with the same URL crawls nothing: its
    document holds the record of the root page alone, or no item. *)
Theorem scrape_site_twice :
  ∀ (s s1 : WebScraper) (url root : string) (result : ScrapeResult),
    1 < max_pages s →
    scrape_site s url = (Returns result, s1) →
    normalize_url (site result) = Some root →
    fetch_ok root →
    scrape_site s1 url
    = (Returns {| site := site result;
                  items := omap extract_content [root] |}, s1).
Proof using list_of_set_perm.
  intros s s1 url root result Hmax Hscrape Hroot Hok.
  assert (Hsleep : time_sleep (delay s) = true).
  { destruct (time_sleep (delay s)) eqn:Hsleep; [done|].
    pose proof (scrape_site_sleeps s url Hsleep) as Hr.
    by rewrite Hscrape in Hr. }
  apply scrape_site_returns_inv in Hscrape as (n & st & Hn & Hrun & -> & ->).
  cbn [build_output site] in Hroot |- *.
  pose proof (crawl_run_visits_root s n root st Hmax Hroot Hrun Hok) as Hvis.
  pose proof (crawl_run_reaches _ _ _ Hrun) as (root' & parsed & Hn' & Hp & _).
  rewrite Hroot in Hn'. injection Hn' as <-.
  destruct (crawl_run_root_only (self st) n root parsed Hroot Hp (or_intror Hvis))
    as (st' & Hrun' & _ & Hfound & Hself).
  unfold scrape_site, crawl_site. rewrite Hn, Hrun', Hfound, Hself.
  rewrite list_of_set_singleton. cbn [extract_all].
  assert (Hdelay : delay (self st) = delay s).
  { pose proof (crawl_run_config _ _ _ Hrun) as Hc. unfold config in Hc.
    by injection Hc as _ -> _. }
  rewrite Hdelay, Hsleep. cbn [omap list_omap app build_output].
  by destruct (extract_content root).
Qed.

(** ** [is_valid_url] and the scheme *)

(** X23: [is_valid_url] does not look at the scheme: the [http] and the
    [https] form of a URL are accepted or refused together. *)
Theorem is_valid_url_scheme_blind :
  ∀ rest base_domain : string,
    is_valid_url ("http://" +:+ rest) base_domain
    = is_valid_url ("https://" +:+ rest) base_domain.
Proof using Type.
  intros rest base_domain. unfold is_valid_url, urlparse.
  rewrite urlsplit_http, urlsplit_https. unfold split_components.
  destruct (split_authority _) as [[n r]|]; [|done].
  cbn [mbind option_bind].
  destruct (split_fragment r) as [r1 f]. destruct (split_query r1) as [p q].
  cbn [mbind option_bind sr_scheme sr_path sr_netloc].
  change (bool_decide ("http" ∈ uses_params)) with true.
  change (bool_decide ("https" ∈ uses_params)) with true.
  cbn [andb]. by destruct (if Py.has_char ";" p then _ else _).
Qed.
End Scraper.

(** * The scraper on the small site

    The collaborators of the site of four pages, Python's enumeration of a
    set taken to be [elements]. *)

Definition demo_crawl_run (s : WebScraper) (root_url : string) : outcome CrawlState :=
  crawl_run demo_check demo_get demo_hrefs demo_urljoin elements s root_url.

Definition demo_crawl_site (s : WebScraper) (root_url : string)
    : outcome (list string) * WebScraper :=
  crawl_site demo_check demo_get demo_hrefs demo_urljoin elements s root_url.

Definition demo_extract_content (url : string) : option ExtractionRecord :=
  extract_content demo_check demo_get demo_select_one demo_extract url.

Definition demo_scrape_site (s : WebScraper) (url : string)
    : outcome ScrapeResult * WebScraper :=
  scrape_site demo_check demo_get demo_hrefs demo_select_one demo_extract
    demo_urljoin elements s url.

Definition demo_main (argv : list string) : ProcessResult :=
  main demo_check demo_get demo_hrefs demo_select_one demo_extract demo_urljoin
    elements ∅ demo_int demo_write demo_print argv.

Definition demo_init (n : Z) : WebScraper := init ∅ n default_delay.

Definition demo_site_reachable (u : string) : Prop :=
  site_reachable demo_check demo_get demo_hrefs demo_urljoin
    "example.com" url_A u.

Definition demo_pages : gset string := {[url_A; url_B; url_C; url_D]}.

Definition demo_root : ParseResult :=
  {| scheme := "https"; netloc := "example.com"; path := "/";
     params := EmptyString; query := EmptyString; fragment := EmptyString |}.

Lemma elements_perm (X : gset string) : elements X ≡ₚ elements X.
Proof. reflexivity. Defined.

Lemma demo_pages_elem (u : string) :
  u ∈ demo_pages ↔ u = url_A ∨ u = url_B ∨ u = url_C ∨ u = url_D.
Proof.
  unfold demo_pages. rewrite !elem_of_union, !elem_of_singleton. tauto.
Qed.

(** The links of the site: A links to B and C, B links to A and D. *)
Lemma demo_links (u v : string) :
  links_to demo_check demo_get demo_hrefs demo_urljoin "example.com" u v →
  u = url_A ∧ (v = url_B ∨ v = url_C) ∨ u = url_B ∧ (v = url_A ∨ v = url_D).
Proof.
  intros (response & Hget & href & joined & Hin & Hj & Hn & Hv).
  injection Hj as <-. unfold demo_get in Hget.
  destruct (String.eqb_spec u url_A) as [-> | _].
  { injection Hget as <-. left. split; [done|].
    apply elem_of_cons in Hin as [-> | Hin];
      [left; vm_compute in Hn; by injection Hn as <-|].
    apply list_elem_of_singleton in Hin as ->. right.
    vm_compute in Hn. by injection Hn as <-. }
  destruct (String.eqb_spec u url_B) as [-> | _].
  { injection Hget as <-. right. split; [done|].
    apply elem_of_cons in Hin as [-> | Hin];
      [left; vm_compute in Hn; by injection Hn as <-|].
    apply elem_of_cons in Hin as [-> | Hin];
      [right; vm_compute in Hn; by injection Hn as <-|].
    apply list_elem_of_singleton in Hin as ->.
    vm_compute in Hn. injection Hn as <-. by vm_compute in Hv. }
  destruct (String.eqb_spec u url_C) as [-> | _].
  { injection Hget as <-. by apply elem_of_nil in Hin. }
  destruct (String.eqb_spec u url_D) as [-> | _].
  { injection Hget as <-. by apply elem_of_nil in Hin. }
  destruct (String.eqb_spec u url_gone) as [-> | _]; [|done].
  injection Hget as <-. by apply elem_of_nil in Hin.
Qed.

(** The pages of the site reachable from its root are its four pages. *)
Lemma demo_site_pages (u : string) : u ∈ demo_pages ↔ demo_site_reachable u.
Proof.
  unfold demo_site_reachable. split.
  - assert (HA : demo_site_reachable url_A) by constructor.
    assert (HB : demo_site_reachable url_B).
    { eapply site_link; [exact HA|].
      exists {| status_code := 200; text := "A" |}. split; [done|].
      exists "https://example.com/blog/b", "https://example.com/blog/b".
      split; [by left|]. by vm_compute. }
    intros [-> | [-> | [-> | ->]]]%demo_pages_elem; [done|done| |].
    + eapply site_link; [exact HA|].
      exists {| status_code := 200; text := "A" |}. split; [done|].
      exists "https://example.com/c/", "https://example.com/c/".
      split; [right; by left|]. by vm_compute.
    + eapply site_link; [exact HB|].
      exists {| status_code := 200; text := "B" |}. split; [done|].
      exists "https://example.com/guide/d", "https://example.com/guide/d".
      split; [right; by left|]. by vm_compute.
  - induction 1 as [|u v _ IH Hv]; [apply demo_pages_elem; by left|].
    apply demo_pages_elem.
    destruct (demo_links u v Hv) as [[_ [-> | ->]] | [_ [-> | ->]]]; tauto.
Qed.

(** Every fetch of the site succeeds, and every anchor of its pages can
    be joined and normalized. *)
Lemma demo_fetches_succeed :
  site_fetches_succeed demo_check demo_get demo_hrefs demo_urljoin
    "example.com" url_A.
Proof.
  intros u Hu%demo_site_pages%demo_pages_elem.
  destruct Hu as [-> | [-> | [-> | ->]]]; eexists; by vm_compute.
Qed.

Lemma demo_anchors_parse :
  anchors_parse demo_check demo_get demo_hrefs demo_urljoin "example.com" url_A.
Proof.
  intros u response href Hu%demo_site_pages%demo_pages_elem Hget Hin.
  exists href. unfold demo_urljoin.
  destruct Hu as [-> | [-> | [-> | ->]]]; vm_compute in Hget;
    injection Hget as <-; unfold text, demo_hrefs in Hin; cbn in Hin.
  - apply elem_of_cons in Hin as [-> | Hin]; [eexists; by vm_compute|].
    apply list_elem_of_singleton in Hin as ->. eexists; by vm_compute.
  - apply elem_of_cons in Hin as [-> | Hin]; [eexists; by vm_compute|].
    apply elem_of_cons in Hin as [-> | Hin]; [eexists; by vm_compute|].
    apply list_elem_of_singleton in Hin as ->. eexists; by vm_compute.
  - by apply elem_of_nil in Hin.
  - by apply elem_of_nil in Hin.
Qed.

(** ** C1 *)

(** The bound of [crawl_site_within_quota] on the site, with a quota of ten
    pages. *)
Lemma crawl_site_within_quota_witness :
  fst (demo_crawl_site (demo_init 10) "example.com")
  = Returns [url_D; url_C; url_B; url_A]
  ∧ Z.of_nat (length [url_D; url_C; url_B; url_A]) ≤ quota (demo_init 10).
Proof.
  split; [by vm_compute|].
  eapply (proj1 (proj2 (proj2
            (crawl_site_within_quota demo_check demo_get demo_hrefs demo_urljoin
               elements elements_perm (demo_init 10) "example.com")))).
  vm_compute. reflexivity.
Defined.

(** With [max_pages = 0] the root is discovered all the same: the list
    [crawl_site] returns has one URL, more than the quota. *)
Lemma crawl_site_exceeds_zero_quota :
  fst (demo_crawl_site (demo_init 0) "example.com") = Returns [url_A]
  ∧ max_pages (demo_init 0) = 0
  ∧ ¬ (Z.of_nat (length [url_A]) ≤ max_pages (demo_init 0)).
Proof. split; [by vm_compute|]. split; [done|]. simpl. lia. Qed.

(** ** C2 *)

(** [crawl_site_complete] on the site: a fresh scraper with a quota of ten
    pages discovers the four reachable pages. *)
Lemma crawl_site_complete_witness :
  ∃ st urls,
    demo_crawl_run (demo_init 10) "example.com" = Returns st
    ∧ found_urls st = demo_pages
    ∧ demo_crawl_site (demo_init 10) "example.com" = (Returns urls, self st)
    ∧ NoDup urls
    ∧ ∀ u, u ∈ urls ↔ demo_site_reachable u.
Proof.
  apply (proj2 (proj2
           (crawl_site_complete demo_check demo_get demo_hrefs demo_urljoin
              elements elements_perm (demo_init 10) "example.com"))
           url_A demo_root demo_pages).
  - by vm_compute.
  - by vm_compute.
  - apply demo_site_pages.
  - by vm_compute.
  - apply demo_fetches_succeed.
  - apply demo_anchors_parse.
  - apply disjoint_empty_l.
Defined.

(** A second crawl of the site by the same scraper: the four pages are
    reachable, every fetch succeeds, every anchor parses and the quota is
    ten, yet the crawl returns the root alone, because the root was visited
    by the first crawl. *)
Lemma second_crawl_misses_pages :
  (∀ u, u ∈ demo_pages ↔ demo_site_reachable u)
  ∧ Z.of_nat (size demo_pages) < 10
  ∧ site_fetches_succeed demo_check demo_get demo_hrefs demo_urljoin
      "example.com" url_A
  ∧ anchors_parse demo_check demo_get demo_hrefs demo_urljoin
      "example.com" url_A
  ∧ max_pages (snd (demo_crawl_site (demo_init 10) "example.com")) = 10
  ∧ fst (demo_crawl_site (snd (demo_crawl_site (demo_init 10) "example.com"))
           "example.com")
    = Returns [url_A]
  ∧ demo_site_reachable url_B
  ∧ url_B ∉ [url_A].
Proof.
  split; [apply demo_site_pages|].
  split; [by vm_compute|].
  split; [apply demo_fetches_succeed|].
  split; [apply demo_anchors_parse|].
  split; [by vm_compute|].
  split; [by vm_compute|].
  split; [apply demo_site_pages, demo_pages_elem; tauto|].
  by intros [=]%list_elem_of_singleton.
Qed.

(** ** C3 *)

(** [visited_set_scope] on the site: a scraper that visited a page of
    another site before returns what a fresh scraper returns. *)
Lemma visited_set_scope_witness :
  let s := with_visited {["https://elsewhere.org/"]} (demo_init 10) in
  fst (demo_scrape_site s "example.com")
  = fst (demo_scrape_site (fresh s) "example.com")
  ∧ visited_urls (snd (demo_scrape_site s "example.com"))
    = visited_urls s ∪ visited_urls (snd (demo_scrape_site (fresh s) "example.com")).
Proof.
  cbn zeta.
  eapply (proj2 (proj2
            (visited_set_scope demo_check demo_get demo_hrefs demo_select_one
               demo_extract demo_urljoin elements ∅))).
  - by vm_compute.
  - vm_compute. reflexivity.
  - apply elem_of_disjoint. intros x Hv Hx.
    unfold with_visited in Hv. cbn [visited_urls] in Hv.
    apply elem_of_singleton in Hv as ->. vm_compute in Hx. discriminate.
Defined.

(** The same scraper scraping the site twice: the first call returns three
    items, the second one item, the root's. *)
Lemma second_scrape_differs :
  length (match fst (demo_scrape_site (demo_init 10) "example.com") with
          | Returns result => items result
          | _ => []
          end) = 3%nat
  ∧ length (match fst (demo_scrape_site
                         (snd (demo_scrape_site (demo_init 10) "example.com"))
                         "example.com") with
            | Returns result => items result
            | _ => []
            end) = 1%nat
  ∧ fst (demo_scrape_site (snd (demo_scrape_site (demo_init 10) "example.com"))
           "example.com")
    ≠ fst (demo_scrape_site (demo_init 10) "example.com").
Proof.
  split; [by vm_compute|]. split; [by vm_compute|].
  vm_compute. discriminate.
Qed.

(** ** C4 *)

(** [extract_content_title] on page B, which has an [h1] and a [title]
    element: the [h1] gives the title. *)
Lemma extract_content_title_witness :
  let record := {| title := "Post B"; content := "Body of B.";
                   content_type := "blog"; source_url := url_B |} in
  demo_extract_content url_B = Some record
  ∧ ∃ response,
      demo_get url_B 15 = Some response
      ∧ demo_extract (text response) = Some (content record)
      ∧ content record ≠ EmptyString
      ∧ source_url record = url_B
      ∧ title_tiers demo_check demo_select_one (text response) url_B (content record)
        = Some (title record)
      ∧ (title record = EmptyString ↔
         yields (first_headline demo_select_one (text response)) = None
         ∧ yields (first_heading (content record)) = None
         ∧ ∃ parsed, urlparse demo_check url_B = Some parsed
                     ∧ last_path_segment (path parsed) = EmptyString)
      ∧ (∀ parsed, urlparse demo_check url_B = Some parsed →
                   last_path_segment (path parsed) ≠ EmptyString →
                   title record ≠ EmptyString).
Proof.
  cbn zeta. split; [by vm_compute|].
  apply (proj1 (extract_content_title demo_check demo_get demo_select_one
                  demo_extract)).
  by vm_compute.
Defined.

(** The root page of the site has content, no headline element and no
    Markdown heading, and its path ends in a slash: its title is empty. *)
Lemma root_page_has_empty_title :
  ∃ record,
    demo_extract_content url_A = Some record
    ∧ content record = "Welcome to the site."
    ∧ title record = EmptyString.
Proof.
  exists {| title := EmptyString; content := "Welcome to the site.";
            content_type := "blog"; source_url := url_A |}.
  split; [by vm_compute|]. by split.
Qed.

(** ** C6 *)

(** [normalize_url_idempotent] on a URL with an upper-case host, path
    parameters, a query and a trailing slash before them. *)
Lemma normalize_url_idempotent_witness :
  ∃ v, normalize_url demo_check "Example.com/docs//page;v=2?x=1" = Some v
       ∧ normalize_url demo_check v = Some v.
Proof.
  apply (proj1 (normalize_url_idempotent demo_check)
           "Example.com/docs//page;v=2?x=1"
           {| scheme := "https"; netloc := "Example.com"; path := "/docs//page";
              params := "v=2"; query := "x=1"; fragment := EmptyString |}).
  - done.
  - by vm_compute.
  - done.
  - by vm_compute.
Defined.

(** A well-formed URL whose path holds a semicolon before a trailing
    slash: normalizing strips the slash, normalizing again takes the
    semicolon for the start of empty parameters and drops it. *)
Lemma normalize_url_twice_differs :
  well_formed demo_check "https://a.com/x;/"
  ∧ normalize_url demo_check "https://a.com/x;/" = Some "https://a.com/x;"
  ∧ normalize_url demo_check "https://a.com/x;" = Some "https://a.com/x"
  ∧ "https://a.com/x" ≠ "https://a.com/x;".
Proof.
  split.
  { eexists. split; [by vm_compute|]. done. }
  split; [by vm_compute|]. split; [by vm_compute|]. done.
Qed.

(** ** C7 *)

(** A port or user information is part of the network location, not of
    the host.  The host of the first two URLs is [quill.co], the base
    domain itself, and [is_valid_url] refuses them; the host of the third
    is [evil.com], neither the base domain nor under it, and
    [is_valid_url] accepts it, because its network location ends with
    [.quill.co]. *)
Lemma is_valid_url_tests_netloc_not_host :
  (∃ parsed, urlparse demo_check "https://quill.co:443/x" = Some parsed
             ∧ netloc parsed = "quill.co:443"
             ∧ hostname parsed = Some "quill.co")
  ∧ is_valid_url demo_check "https://quill.co:443/x" "quill.co" = false
  ∧ (∃ parsed, urlparse demo_check "https://user@quill.co/x" = Some parsed
               ∧ netloc parsed = "user@quill.co"
               ∧ hostname parsed = Some "quill.co")
  ∧ is_valid_url demo_check "https://user@quill.co/x" "quill.co" = false
  ∧ (∃ parsed, urlparse demo_check "https://evil.com:.quill.co/x" = Some parsed
               ∧ netloc parsed = "evil.com:.quill.co"
               ∧ hostname parsed = Some "evil.com")
  ∧ is_valid_url demo_check "https://evil.com:.quill.co/x" "quill.co" = true.
Proof.
  split; [eexists; split; [by vm_compute|by split]|].
  split; [by vm_compute|].
  split; [eexists; split; [by vm_compute|by split]|].
  split; [by vm_compute|].
  split; [eexists; split; [by vm_compute|by split]|].
  by vm_compute.
Qed.

(** ** C8 *)



(** ** C9 *)

(** [scrape_site_items_order] on the site. *)
Lemma scrape_site_items_order_witness :
  ∃ result s',
    demo_scrape_site (demo_init 10) "example.com" = (Returns result, s')
    ∧ ∃ normalized_url st,
        let urls := elements (found_urls st) in
        normalize_url demo_check "example.com" = Some normalized_url
        ∧ demo_crawl_run (demo_init 10) normalized_url = Returns st
        ∧ demo_crawl_site (demo_init 10) normalized_url = (Returns urls, s')
        ∧ site result = normalized_url
        ∧ items result = omap demo_extract_content urls
        ∧ source_url <$> items result
          = filter (λ u, is_Some (demo_extract_content u)) urls
        ∧ urls ≡ₚ discovery st
        ∧ (length (items result) ≤ length urls)%nat.
Proof.
  eexists _, _. split; [vm_compute; reflexivity|].
  apply (scrape_site_items_order demo_check demo_get demo_hrefs demo_select_one
           demo_extract demo_urljoin elements elements_perm (demo_init 10)).
  by vm_compute.
Defined.

(** On the site the pages are discovered in the order A, C, B, D and the
    extraction succeeds on A, B and D, but the items come in the order D,
    B, A: the order in which the discovered set is enumerated. *)
Lemma items_not_in_discovery_order :
  ∃ st result,
    demo_crawl_run (demo_init 10) "example.com" = Returns st
    ∧ fst (demo_scrape_site (demo_init 10) "example.com") = Returns result
    ∧ discovery st = [url_A; url_C; url_B; url_D]
    ∧ omap demo_extract_content (discovery st)
      = omap demo_extract_content [url_A; url_B; url_D]
    ∧ source_url <$> items result = [url_D; url_B; url_A]
    ∧ source_url <$> items result
      ≠ source_url <$> omap demo_extract_content (discovery st).
Proof.
  eexists _, _. split; [vm_compute; reflexivity|].
  split; [vm_compute; reflexivity|].
  split; [by vm_compute|]. split; [by vm_compute|]. split; [by vm_compute|].
  vm_compute. discriminate.
Qed.

(** * The further properties on the small site *)

Definition demo_extract_links (html base_url base_domain : string)
    : option (list string) :=
  extract_links demo_check demo_hrefs demo_urljoin elements html base_url base_domain.

Definition demo_fetch_ok (url : string) : Prop := fetch_ok demo_get url.


(** [normalize_url_scheme] on the example of the docstring. *)
Lemma normalize_url_scheme_witness :
  normalize_url demo_check "quill.co/blog/" = Some "https://quill.co/blog"
  ∧ (∃ x, "https://quill.co/blog" = "http://" +:+ x
          ∨ "https://quill.co/blog" = "https://" +:+ x)
  ∧ with_scheme "https://quill.co/blog" = "https://quill.co/blog".
Proof.
  split; [by vm_compute|].
  apply (normalize_url_scheme demo_check "quill.co/blog/"). by vm_compute.
Defined.




(** [extract_links_spec] on the root page of the site. *)
Lemma extract_links_spec_witness :
  demo_extract_links "A" url_A "example.com" = Some [url_C; url_B]
  ∧ NoDup [url_C; url_B]
  ∧ ∀ v, v ∈ [url_C; url_B] ↔
         ∃ href joined,
           href ∈ demo_hrefs "A"
           ∧ demo_urljoin url_A href = Some joined
           ∧ normalize_url demo_check joined = Some v
           ∧ is_valid_url demo_check v "example.com" = true.
Proof.
  split; [by vm_compute|].
  apply (extract_links_spec demo_check demo_hrefs demo_urljoin elements
           elements_perm "A" url_A "example.com").
  by vm_compute.
Defined.

(** [crawl_site_outcome] on the site. *)
Lemma crawl_site_outcome_witness :
  ∃ root, normalize_url demo_check "example.com" = Some root
          ∧ root ∈ [url_D; url_C; url_B; url_A]
          ∧ NoDup [url_D; url_C; url_B; url_A].
Proof.
  apply (proj2 (crawl_site_outcome demo_check demo_get demo_hrefs demo_urljoin
                  elements elements_perm (demo_init 10) "example.com")
           [url_D; url_C; url_B; url_A]
           (snd (demo_crawl_site (demo_init 10) "example.com"))).
  by vm_compute.
Defined.

(** [crawl_site_sound] on the site. *)
Lemma crawl_site_sound_witness :
  ∃ root parsed,
    normalize_url demo_check "example.com" = Some root
    ∧ urlparse demo_check root = Some parsed
    ∧ ∀ u, u ∈ [url_D; url_C; url_B; url_A] →
           site_reachable demo_check demo_get demo_hrefs demo_urljoin
             (netloc parsed) root u.
Proof.
  apply (crawl_site_sound demo_check demo_get demo_hrefs demo_urljoin
           elements elements_perm (demo_init 10)
           (snd (demo_crawl_site (demo_init 10) "example.com")) "example.com").
  by vm_compute.
Defined.

(** [crawl_site_internal] on the site. *)
Lemma crawl_site_internal_witness :
  ∃ root parsed,
    normalize_url demo_check "example.com" = Some root
    ∧ urlparse demo_check root = Some parsed
    ∧ ∀ u, u ∈ [url_D; url_C; url_B; url_A] →
           u = root
           ∨ is_valid_url demo_check u (netloc parsed) = true
             ∧ ∃ w, normalize_url demo_check w = Some u.
Proof.
  apply (crawl_site_internal demo_check demo_get demo_hrefs demo_urljoin
           elements elements_perm (demo_init 10)
           (snd (demo_crawl_site (demo_init 10) "example.com")) "example.com").
  by vm_compute.
Defined.

(** [crawl_site_requests] on the site: four requests under a quota of
    ten. *)
Lemma crawl_site_requests_witness :
  ∃ st, demo_crawl_run (demo_init 10) "example.com" = Returns st
        ∧ fetched st = [url_A; url_C; url_B; url_D]
        ∧ (fetched st = [] ∨ Z.of_nat (length (fetched st)) < max_pages (demo_init 10))
        ∧ ∀ u, u ∈ fetched st → u ∈ found_urls st ∧ u ∉ visited_urls (demo_init 10).
Proof.
  destruct (demo_crawl_run (demo_init 10) "example.com") as [st| |] eqn:Hrun;
    [|by vm_compute in Hrun..].
  exists st. split; [done|].
  split; [by vm_compute in Hrun; injection Hrun as <-|].
  by apply (crawl_site_requests demo_check demo_get demo_hrefs demo_urljoin
              elements (demo_init 10) "example.com").
Defined.

(** [crawl_site_visited_log] on the site. *)
Lemma crawl_site_visited_log_witness :
  ∃ st, demo_crawl_run (demo_init 10) "example.com" = Returns st
        ∧ snd (demo_crawl_site (demo_init 10) "example.com") = self st
        ∧ ∀ u, u ∈ visited_urls (self st) ↔
               u ∈ visited_urls (demo_init 10) ∨ (u ∈ fetched st ∧ demo_fetch_ok u).
Proof.
  destruct (demo_crawl_run (demo_init 10) "example.com") as [st| |] eqn:Hrun;
    [|by vm_compute in Hrun..].
  exists st. split; [done|].
  by apply (crawl_site_visited_log demo_check demo_get demo_hrefs demo_urljoin
              elements (demo_init 10) "example.com").
Defined.

(** [title_first_selector] on page B, whose [h1] is found first. *)
Lemma title_first_selector_witness :
  first_headline demo_select_one "B" = Some (Py.strip " Post B ")
  ∧ (Py.strip " Post B " ≠ EmptyString →
     resolve_title demo_check demo_select_one "B" url_B "Body of B."
     = Some (Py.strip " Post B "))
  ∧ (Py.strip " Post B " = EmptyString →
     resolve_title demo_check demo_select_one "B" url_B "Body of B."
     = match yields (first_heading "Body of B.") with
       | Some heading => Some heading
       | None => humanized_segment demo_check url_B
       end).
Proof.
  apply (title_first_selector demo_check demo_select_one "B" url_B "Body of B."
           "h1" " Post B " [] ["title"; ".post-title"; ".entry-title"; ".article-title"]).
  - reflexivity.
  - by intros s Hs%elem_of_nil.
  - by vm_compute.
Defined.

(** [extract_content_title_stripped] on page B. *)
Lemma extract_content_title_stripped_witness :
  demo_extract_content url_B
  = Some {| title := "Post B"; content := "Body of B.";
            content_type := "blog"; source_url := url_B |}
  ∧ Py.strip "Post B" = "Post B".
Proof.
  split; [by vm_compute|].
  apply (extract_content_title_stripped demo_check demo_get demo_select_one
           demo_extract url_B
           {| title := "Post B"; content := "Body of B.";
              content_type := "blog"; source_url := url_B |}
           {| status_code := 200; text := "B" |}).
  - by vm_compute.
  - by vm_compute.
  - left. by exists "Post B".
Defined.

(** [scrape_site_items] on the site. *)
Lemma scrape_site_items_witness :
  ∃ result s',
    demo_scrape_site (demo_init 10) "example.com" = (Returns result, s')
    ∧ Z.of_nat (length (items result)) ≤ quota (demo_init 10)
    ∧ NoDup (source_url <$> items result)
    ∧ ∃ urls,
        demo_crawl_site (demo_init 10) (site result) = (Returns urls, s')
        ∧ ∀ item, item ∈ items result →
                  source_url item ∈ urls
                  ∧ demo_extract_content (source_url item) = Some item
                  ∧ content item ≠ EmptyString
                  ∧ content_type item
                    = detect_content_type (source_url item)
                        EmptyString EmptyString.
Proof.
  destruct (demo_scrape_site (demo_init 10) "example.com")
    as [[result| |] s'] eqn:Hscrape; [|by vm_compute in Hscrape..].
  exists result, s'. split; [done|].
  by apply (scrape_site_items demo_check demo_get demo_hrefs demo_select_one
              demo_extract demo_urljoin elements elements_perm
              (demo_init 10) s' "example.com").
Defined.

(** [scrape_site_negative_delay] on the site, with a delay of minus half
    a second. *)
Lemma scrape_site_negative_delay_witness :
  fst (scrape_site demo_check demo_get demo_hrefs demo_select_one demo_extract
         demo_urljoin elements (init ∅ 10 (Qmake (-1) 2)) "example.com")
  = Raises.
Proof.
  apply (scrape_site_negative_delay demo_check demo_get demo_hrefs
           demo_select_one demo_extract demo_urljoin elements elements_perm).
  by vm_compute.
Defined.



(** [main_default_file_schemeless] on the command line of the usage
    text. *)
Lemma main_default_file_schemeless_witness :
  ∃ result,
    fst (demo_scrape_site (init ∅ default_max_pages default_delay) "example.com")
    = Returns result
    ∧ demo_main ["scraper.py"; "example.com"]
      = {| exit_status := 0; written := Some ("_scraped.json", result) |}.
Proof.
  destruct (fst (demo_scrape_site (init ∅ default_max_pages default_delay)
                   "example.com")) as [result| |] eqn:Hscrape;
    [|by vm_compute in Hscrape..].
  exists result. split; [done|].
  by apply (proj2 (main_default_file_schemeless demo_check demo_get demo_hrefs
                     demo_select_one demo_extract demo_urljoin elements ∅
                     demo_int demo_write demo_print "scraper.py" "xample.com"
                     "e" result eq_refl eq_refl)).
Defined.

(** [scrape_site_twice] on the site: the second document holds the root
    page alone. *)
Lemma scrape_site_twice_witness :
  ∃ result s1,
    demo_scrape_site (demo_init 10) "example.com" = (Returns result, s1)
    ∧ length (items result) = 3%nat
    ∧ demo_scrape_site s1 "example.com"
      = (Returns {| site := site result;
                    items := omap demo_extract_content [url_A] |}, s1).
Proof.
  destruct (demo_scrape_site (demo_init 10) "example.com")
    as [[result| |] s1] eqn:Hscrape; [|by vm_compute in Hscrape..].
  exists result, s1. split; [done|].
  split; [by vm_compute in Hscrape; injection Hscrape as <- _|].
  apply (scrape_site_twice demo_check demo_get demo_hrefs demo_select_one
           demo_extract demo_urljoin elements elements_perm
           (demo_init 10) s1 "example.com" url_A result).
  - by vm_compute.
  - done.
  - vm_compute in Hscrape. injection Hscrape as <- _. by vm_compute.
  - eexists. split; by vm_compute.
Defined.
